(** * A shallow embedding of the AI PR Comment Fixer Bot

    The bot receives GitHub webhook deliveries, asks a chat-completion
    model whether a pull-request comment describes a safe fix and, if so,
    writes the fix to a new branch and pushes it.  This development embeds
    the services of the repository:

    - [OpenAIService]   (services/openai.ts):   [parseAIResponse],
      [analyzeComment], [generateChangeSummary];
    - [GitService]      (services/git.ts):      [setupRepository],
      [createFixBranch], [applyChanges], [commitChanges], [pushChanges];
    - [GitHubService]   (services/github.ts, both revisions present in the
      repository): [verifyWebhookSignature] and the REST wrappers;
    - [CommentProcessor] (services/commentProcessor.ts): [processComment]
      and its helpers;
    - the webhook endpoint (index.ts): [post_webhook] and
      [handleCommentEvent];
    - the configuration loader (config/index.ts): [validateConfig].

    Asynchronous code is written in a state-and-exception monad over an
    abstract world; every call that leaves the process (GitHub REST API,
    OpenAI API, git, the file system, the clock) is answered by the world
    and recorded in a log, so that orderings and absences of effects can be
    stated.  JavaScript numbers that matter for a bound check are rationals
    extended with the two infinities; where a number is multiplied and
    shown, the product is rounded as binary64 arithmetic rounds it.

    Properties of the services hold in every world.  Where a property
    depends on what git and the file system do, it is stated over a
    reference working copy, [WorkingCopyModel], with the conditions under
    which it holds there. *)

From Stdlib Require Import String Ascii List ZArith QArith Qround Lia Lqa Bool.
From Stdlib Require Import DecimalString DecimalFacts DecimalPos DecimalN.
From stdpp Require Import gmap strings.
Import ListNotations.

Local Open Scope string_scope.
Local Open Scope Z_scope.
Local Open Scope list_scope.

(* ===================================================================== *)
(** * JavaScript values, exceptions, results                              *)
(* ===================================================================== *)

(** What a [throw] carries: an instance of [Error] (with the name of its
    constructor and its message), or any other value. *)
Inductive thrown : Type :=
| JsError (cls msg : string)
| NotAnError.

(** [error instanceof Error ? error.message : 'Unknown error'] *)
Definition error_message (e : thrown) : string :=
  match e with
  | JsError _ msg => msg
  | NotAnError => "Unknown error"
  end.

(** [error instanceof Error ? error.constructor.name : 'Unknown'] *)
Definition error_class (e : thrown) : string :=
  match e with
  | JsError cls _ => cls
  | NotAnError => "Unknown"
  end.

Inductive result (A : Type) : Type :=
| Returns (a : A)
| Raises (e : thrown).
Arguments Returns {A} a.
Arguments Raises {A} e.

Definition is_ok {A} (r : result A) : bool :=
  match r with Returns _ => true | Raises _ => false end.

Definition rbind {A B} (r : result A) (k : A -> result B) : result B :=
  match r with
  | Returns a => k a
  | Raises e => Raises e
  end.

(** A JavaScript number as [JSON.parse] can produce it: a finite value or
    an overflowed literal.  The JSON grammar has no literal for NaN. *)
Inductive number : Type :=
| Finite (q : Q)
| PosInfinity
| NegInfinity.

Definition Qltb (x y : Q) : bool := negb (Qle_bool y x).

(** [a < b] on numbers *)
Definition num_ltb (a b : number) : bool :=
  match a, b with
  | Finite x, Finite y => Qltb x y
  | Finite _, PosInfinity => true
  | NegInfinity, Finite _ => true
  | NegInfinity, PosInfinity => true
  | _, _ => false
  end.

(** [a <= b] on numbers *)
Definition num_leb (a b : number) : bool :=
  match a, b with
  | Finite x, Finite y => Qle_bool x y
  | NegInfinity, _ => true
  | _, PosInfinity => true
  | _, _ => false
  end.

Definition num_zero : number := Finite 0.
Definition num_one : number := Finite 1.

(** The value of a JSON text. An object keeps its members in textual
    order; a later member with the same key wins. *)
#[warnings="-register-all"]
Inductive json : Type :=
| JNull
| JBool (b : bool)
| JNumber (n : number)
| JString (s : string)
| JArray (items : list json)
| JObject (members : list (string * json)).

(** A JavaScript value read out of a parsed reply: [undefined] or a JSON
    value. *)
Inductive jsvalue : Type :=
| Undefined
| Value (v : json).

Fixpoint assoc_last (k : string) (ms : list (string * json)) : option json :=
  match ms with
  | [] => None
  | (k', v) :: rest =>
      match assoc_last k rest with
      | Some v' => Some v'
      | None => if String.eqb k k' then Some v else None
      end
  end.

(** Property access [v.k] for the property names used by the bot, none of
    which exists on a prototype: on [null] it throws a TypeError, on an
    object it reads the member, on anything else it is [undefined]. *)
Definition get_prop (v : json) (k : string) : result jsvalue :=
  match v with
  | JNull =>
      Raises (JsError "TypeError"
                ("Cannot read properties of null (reading '" +:+ k +:+ "')"))
  | JObject ms =>
      match assoc_last k ms with
      | Some x => Returns (Value x)
      | None => Returns Undefined
      end
  | _ => Returns Undefined
  end.

(* ===================================================================== *)
(** * Text helpers                                                        *)
(* ===================================================================== *)

Definition show_nat (n : nat) : string :=
  NilZero.string_of_uint (Nat.to_uint n).

Definition show_N (n : N) : string :=
  NilZero.string_of_uint (N.to_uint n).

(** Template rendering of an integer-valued number. *)
Definition show_Z (z : Z) : string :=
  match z with
  | Z0 => "0"
  | Zpos p => show_N (Npos p)
  | Zneg p => "-" +:+ show_N (Npos p)
  end.

(** [xs.join(sep)] *)
Definition join (sep : string) (xs : list string) : string :=
  String.concat sep xs.

Definition utf8 (bytes : list nat) : string :=
  string_of_list_ascii (List.map ascii_of_nat bytes).

Definition dquote : string := utf8 [34%nat].
Definition backtick : string := utf8 [96%nat].
Definition newline : string := utf8 [10%nat].

(** [s.startsWith(p)] *)
Definition startsWith (s p : string) : bool := String.prefix p s.

(** [s.slice(n)] for [0 <= n] *)
Fixpoint slice_from (n : nat) (s : string) : string :=
  match n, s with
  | O, _ => s
  | S n', String _ r => slice_from n' r
  | S _, EmptyString => EmptyString
  end.


(** [hay] has [needle] somewhere inside. *)
Definition contains (needle hay : string) : Prop :=
  exists before after, hay = before +:+ needle +:+ after.







(* ===================================================================== *)
(** * types/index.ts                                                      *)
(* ===================================================================== *)

Record GitHubComment := {
  comment_id : Z;
  comment_body : string;
  comment_user_login : string;
  comment_created_at : string;
  comment_updated_at : string }.

Record GitRef := {
  ref : string;
  sha : string;
  repo_full_name : string }.

Record GitHubPR := {
  number_ : Z;
  title : string;
  body : string;
  head : GitRef;
  base : GitRef;
  state_ : string;
  mergeable : bool }.

Record GitHubFile := {
  file_filename : string;
  file_status : string;
  additions : Z;
  deletions : Z;
  file_changes : Z;
  blob_url : string;
  raw_url : string;
  contents_url : string;
  patch : option string }.

Record Repository := {
  full_name : string;
  name : string;
  owner_login : string }.

Record GitHubWebhookPayload := {
  action : string;
  comment : option GitHubComment;
  pull_request : option GitHubPR;
  repository : Repository;
  sender_login : string }.

(** [lineNumber] is declared [number | undefined]; at run time it holds
    whatever the reply carried (see [parseAIResponse]). *)
Record CodeChange := {
  filename : string;
  content : string;
  lineNumber : jsvalue;
  description : string }.

Record AIAnalysisResult := {
  shouldApply : bool;
  changes : list CodeChange;
  reasoning : string;
  confidence : number }.

Record Config := {
  github_token : string;
  github_webhookSecret : string;
  github_appId : string;
  github_privateKey : string;
  openai_apiKey : string;
  openai_model : string;
  server_port : Z;
  server_webhookUrl : string;
  git_userName : string;
  git_userEmail : string;
  git_token : string;
  repo_owner : string;
  repo_name : string }.

(** The declared type of a change: [lineNumber?: number]. *)
Definition well_typed_change (c : CodeChange) : bool :=
  match lineNumber c with
  | Undefined => true
  | Value (JNumber _) => true
  | Value _ => false
  end.


(** The bound the prompt asks for: [confidence] is a number in [0,1]. *)
Definition confidence_in_bounds (a : AIAnalysisResult) : bool :=
  num_leb num_zero (confidence a) && num_leb (confidence a) num_one.

(* ===================================================================== *)
(** * The world outside the process                                       *)
(* ===================================================================== *)

Record ChatMessage := { role : string; message_content : string }.

Record ChatRequest := {
  model : string;
  messages : list ChatMessage;
  temperature : Q;
  max_tokens : Z }.

(** [response.choices[0]?.message?.content]: each link may be missing. *)
Record ChatChoice := { message : option (option string) }.
Record ChatResponse := { choices : list ChatChoice }.

(** [git.status()] as the bot reads it. *)
Record StatusResult := {
  modified : list string;
  created : list string }.

(** Every call that leaves the process. *)
Inductive call : Type :=
| OpenAI_chat (req : ChatRequest)
| GitHub_getPullRequestFiles (owner repo : string) (prNumber : Z)
| GitHub_getFileContent (owner repo path ref_ : string)
| GitHub_createComment (owner repo : string) (prNumber : Z) (body_ : string)
| Git_simpleGit (baseDir : string)
| Git_clone (url path : string)
| Git_pull
| Git_addConfig (key value : string)
| Git_checkout (branch : string)
| Git_checkoutLocalBranch (branch : string)
| Git_add (files : list string)
| Git_status
| Git_commit (msg : string)
| Git_push (remote branch : string)
| Fs_existsSync (path : string)
| Fs_mkdirSync (path : string)
| Fs_writeFileSync (path data : string)
| Date_now.

Record event := Event { ev_call : call; ev_ok : bool }.

(** Values fixed when the process starts. *)
Class Settings := {
  config : Config;
  process_env : string -> option string }.

(** [JSON.parse]: the value of the text, or a SyntaxError. *)
Class JsonParser := {
  JSON_parse : string -> result json }.

(** [crypto.createHmac('sha256', key).update(data).digest('hex')] *)
Class Crypto := {
  hmac_sha256_hex : string -> string -> string }.

(** The [path] module. *)
Class Paths := {
  path_join : string -> string -> string;
  path_dirname : string -> string }.

(** The OpenAI SDK. *)
Class OpenAIClient (W : Type) := {
  chat_completions_create : ChatRequest -> W -> result ChatResponse * W }.

(** The GitHub REST API, through axios; a non-2xx answer rejects. *)
Class GitHubClient (W : Type) := {
  api_getPullRequestFiles :
    string -> string -> Z -> W -> result (list GitHubFile) * W;
  api_getFileContent :
    string -> string -> string -> string -> W -> result string * W;
  api_createComment :
    string -> string -> Z -> string -> W -> result GitHubComment * W }.

(** simple-git on the working copy, [fs] and the clock.  [simpleGit] is
    the factory called by the constructor of [GitService]. *)
Class WorkingCopy (W : Type) := {
  simpleGit : string -> W -> result unit * W;
  git_clone : string -> string -> W -> result unit * W;
  git_pull : W -> result unit * W;
  git_addConfig : string -> string -> W -> result unit * W;
  git_checkout : string -> W -> result unit * W;
  git_checkoutLocalBranch : string -> W -> result unit * W;
  git_add : list string -> W -> result unit * W;
  git_status : W -> result StatusResult * W;
  git_commit : string -> W -> result string * W;
  git_push : string -> string -> W -> result unit * W;
  fs_existsSync : string -> W -> bool * W;
  fs_mkdirSync : string -> W -> result unit * W;
  fs_writeFileSync : string -> string -> W -> result unit * W;
  Date_now_ms : W -> Z * W }.

(* ===================================================================== *)
(** * The monad of asynchronous code                                      *)
(* ===================================================================== *)

Record state (W : Type) := State { world : W; log : list event }.
Arguments State {W} world log.
Arguments world {W} s.
Arguments log {W} s.

Definition M (W A : Type) : Type := state W -> result A * state W.

Definition ret {W A} (a : A) : M W A := fun s => (Returns a, s).

Definition throw {W A} (e : thrown) : M W A := fun s => (Raises e, s).

Definition bind {W A B} (m : M W A) (k : A -> M W B) : M W B :=
  fun s =>
    match m s with
    | (Returns a, s') => k a s'
    | (Raises e, s') => (Raises e, s')
    end.

(** [try { m } catch (error) { h error }] *)
Definition try_catch {W A} (m : M W A) (h : thrown -> M W A) : M W A :=
  fun s =>
    match m s with
    | (Returns a, s') => (Returns a, s')
    | (Raises e, s') => h e s'
    end.

(** A pure computation that may throw. *)
Definition lift {W A} (r : result A) : M W A := fun s => (r, s).

(** A call answered by the world, recorded with its outcome. *)
Definition perform {W A} (c : call) (f : W -> result A * W) : M W A :=
  fun s =>
    let (r, w') := f (world s) in
    (r, State w' (log s ++ [Event c (is_ok r)])).

(** A call that cannot fail. *)
Definition observe {W A} (c : call) (f : W -> A * W) : M W A :=
  perform c (fun w => let (a, w') := f w in (Returns a, w')).

Declare Scope async_scope.
Delimit Scope async_scope with async.
Notation "'await' x <- m ; k" := (bind m (fun x => k))
  (at level 10, x name, m at level 100, k at level 200) : async_scope.
Notation "'await_' m ; k" := (bind m (fun _ => k))
  (at level 10, m at level 100, k at level 200) : async_scope.
Local Open Scope async_scope.

(** [for (const x of xs) { body x }] *)
Fixpoint for_each {W A} (xs : list A) (body_ : A -> M W unit) : M W unit :=
  match xs with
  | [] => ret tt
  | x :: rest => await_ body_ x; for_each rest body_
  end.

Definition run {W A} (m : M W A) (w : W) : result A * state W :=
  m (State w []).

(* ===================================================================== *)
(** * services/openai.ts                                                  *)
(* ===================================================================== *)

Module OpenAIService.
Section WithWorld.
Context {ST : Settings} {JP : JsonParser} {W : Type} {AI : OpenAIClient W}.

Definition buildSystemPrompt : string :=
  "You are an AI code reviewer and fixer. Your job is to analyze GitHub PR comments and determine if they should be automatically applied.

IMPORTANT RULES:
1. Only apply changes that are CLEAR and UNAMBIGUOUS code improvements
2. Do NOT apply subjective style changes or opinion-based suggestions
3. Do NOT apply changes that require business logic decisions
4. Focus on: bug fixes, syntax errors, obvious improvements, security issues
5. If unsure, set shouldApply to false
6. Always provide clear reasoning for your decision

RESPONSE FORMAT (JSON):
{
  " +:+ dquote +:+ "shouldApply" +:+ dquote +:+ ": boolean,
  " +:+ dquote +:+ "confidence" +:+ dquote +:+ ": number (0-1),
  " +:+ dquote +:+ "reasoning" +:+ dquote +:+ ": "
    +:+ dquote +:+ "string explaining your decision" +:+ dquote +:+ ",
  " +:+ dquote +:+ "changes" +:+ dquote +:+ ": [
    {
      " +:+ dquote +:+ "filename" +:+ dquote +:+ ": "
    +:+ dquote +:+ "string" +:+ dquote +:+ ",
      " +:+ dquote +:+ "content" +:+ dquote +:+ ": "
    +:+ dquote +:+ "complete file content after changes" +:+ dquote +:+ ",
      " +:+ dquote +:+ "description" +:+ dquote +:+ ": "
    +:+ dquote +:+ "what was changed and why" +:+ dquote +:+ "
    }
  ]
}".

(** [fileContents.get(name) || 'File not found'] *)
Definition content_or_not_found
    (fileContents : gmap string string) (name_ : string) : string :=
  match fileContents !! name_ with
  | Some EmptyString | None => "File not found"
  | Some c => c
  end.

Definition buildUserPrompt (comment_ : GitHubComment) (pr : GitHubPR)
    (files : list GitHubFile) (fileContents : gmap string string) : string :=
  let fileInfo :=
    join newline
      (List.map (fun file =>
         newline +:+ "--- " +:+ file_filename file +:+ " ---" +:+ newline
         +:+ content_or_not_found fileContents (file_filename file)
         +:+ newline +:+ "---") files) in
  "PR TITLE: " +:+ title pr +:+ "
PR DESCRIPTION: " +:+ body pr +:+ "

COMMENT: " +:+ comment_body comment_ +:+ "
COMMENT AUTHOR: " +:+ comment_user_login comment_ +:+ "

FILES IN PR:
" +:+ fileInfo +:+ "

Please analyze this comment and determine if it should be automatically applied. Consider:
1. Is the comment clear and actionable?
2. Is it a technical improvement that can be automated?
3. Does it require subjective decisions or business logic?
4. Is it safe to apply without human review?

Respond with the JSON format specified in the system prompt.".

(** The longest prefix of [s] that ends with a closing brace. *)
Fixpoint upto_last_close (s : string) : option string :=
  match s with
  | EmptyString => None
  | String c r =>
      match upto_last_close r with
      | Some t => Some (String c t)
      | None => if Ascii.eqb c "}" then Some (String c EmptyString) else None
      end
  end.

(** [response.match(/\{[\s\S]*\}/)]: from the first opening brace to
    the last closing brace after it. *)
Fixpoint match_braces (response : string) : option string :=
  match response with
  | EmptyString => None
  | String c r =>
      if Ascii.eqb c "{" then
        match upto_last_close r with
        | Some t => Some (String c t)
        | None => None
        end
      else match_braces r
  end.

(** The body of the callback of [parsed.changes.map]. *)
Definition validate_change (index : nat) (change : json) : result CodeChange :=
  rbind (get_prop change "filename") (fun f =>
  match f with
  | Value (JString filename_) =>
      rbind (get_prop change "content") (fun c =>
      match c with
      | Value (JString content_) =>
          rbind (get_prop change "description") (fun d =>
          match d with
          | Value (JString description_) =>
              rbind (get_prop change "lineNumber") (fun ln =>
              Returns {| filename := filename_;
                         content := content_;
                         lineNumber := ln;
                         description := description_ |})
          | _ => Raises (JsError "Error"
                   ("Invalid description in change " +:+ show_nat index))
          end)
      | _ => Raises (JsError "Error"
               ("Invalid content in change " +:+ show_nat index))
      end)
  | _ => Raises (JsError "Error"
           ("Invalid filename in change " +:+ show_nat index))
  end).

Fixpoint validate_changes (index : nat) (items : list json)
    : result (list CodeChange) :=
  match items with
  | [] => Returns []
  | change :: rest =>
      rbind (validate_change index change) (fun c =>
      rbind (validate_changes (S index) rest) (fun cs =>
      Returns (c :: cs)))
  end.

(** The [try] block of [parseAIResponse]. *)
Definition parseAIResponse_try (response : string) : result AIAnalysisResult :=
  match match_braces response with
  | None => Raises (JsError "Error" "No JSON found in response")
  | Some jsonMatch =>
      rbind (JSON_parse jsonMatch) (fun parsed =>
      rbind (get_prop parsed "shouldApply") (fun sa =>
      match sa with
      | Value (JBool shouldApply_) =>
          rbind (get_prop parsed "confidence") (fun cf =>
          match cf with
          | Value (JNumber confidence_) =>
              if num_ltb confidence_ num_zero || num_ltb num_one confidence_
              then Raises (JsError "Error" "Invalid confidence field")
              else
                rbind (get_prop parsed "reasoning") (fun rs =>
                match rs with
                | Value (JString reasoning_) =>
                    rbind (get_prop parsed "changes") (fun ch =>
                    match ch with
                    | Value (JArray items) =>
                        rbind (validate_changes 0 items) (fun changes_ =>
                        Returns {| shouldApply := shouldApply_;
                                   changes := changes_;
                                   reasoning := reasoning_;
                                   confidence := confidence_ |})
                    | _ => Raises (JsError "Error" "Invalid changes field")
                    end)
                | _ => Raises (JsError "Error" "Invalid reasoning field")
                end)
          | _ => Raises (JsError "Error" "Invalid confidence field")
          end)
      | _ => Raises (JsError "Error" "Invalid shouldApply field")
      end))
  end.

(** The verdict both [catch] blocks build. *)
Definition safe_default (reasoning_ : string) : AIAnalysisResult :=
  {| shouldApply := false;
     changes := [];
     reasoning := reasoning_;
     confidence := num_zero |}.

Definition parseAIResponse (response : string) : AIAnalysisResult :=
  match parseAIResponse_try response with
  | Returns a => a
  | Raises error =>
      safe_default ("Failed to parse AI response: " +:+ error_message error)
  end.

(** [response.choices[0]?.message?.content] *)
Definition first_content (response : ChatResponse) : option string :=
  match choices response with
  | [] => None
  | c :: _ =>
      match message c with
      | Some (Some text) => Some text
      | _ => None
      end
  end.

Definition analysis_request (systemPrompt userPrompt : string) : ChatRequest :=
  {| model := openai_model config;
     messages := [ {| role := "system"; message_content := systemPrompt |};
                   {| role := "user"; message_content := userPrompt |} ];
     temperature := 0.1%Q;
     max_tokens := 4000 |}.

Definition analyzeComment (comment_ : GitHubComment) (pr : GitHubPR)
    (files : list GitHubFile) (fileContents : gmap string string)
    : M W AIAnalysisResult :=
  let systemPrompt := buildSystemPrompt in
  let userPrompt := buildUserPrompt comment_ pr files fileContents in
  let req := analysis_request systemPrompt userPrompt in
  try_catch
    (await response <- perform (OpenAI_chat req) (chat_completions_create req);
     match first_content response with
     | None | Some EmptyString =>
         throw (JsError "Error" "No response from OpenAI")
     | Some result_ => ret (parseAIResponse result_)
     end)
    (fun error =>
       ret (safe_default ("Error analyzing comment: " +:+ error_message error))).

Definition change_line (c : CodeChange) : string :=
  "- " +:+ filename c +:+ ": " +:+ description c.

Definition summary_request (changes_ : list CodeChange) : ChatRequest :=
  let changeDescriptions := join newline (List.map change_line changes_) in
  let prompt :=
    "Generate a brief, professional summary of the following code changes for a GitHub PR comment:

" +:+ changeDescriptions +:+ "

The summary should be:
- Concise (1-2 sentences)
- Professional
- Focus on the improvements made
- Suitable for a PR comment

Summary:" in
  {| model := openai_model config;
     messages := [ {| role := "user"; message_content := prompt |} ];
     temperature := 0.3%Q;
     max_tokens := 200 |}.

Definition generateChangeSummary (changes_ : list CodeChange) : M W string :=
  let req := summary_request changes_ in
  try_catch
    (await response <- perform (OpenAI_chat req) (chat_completions_create req);
     match first_content response with
     | None | Some EmptyString => ret "Applied suggested changes"
     | Some text => ret text
     end)
    (fun _ => ret "Applied suggested changes").

End WithWorld.
End OpenAIService.

(* ===================================================================== *)
(** * services/git.ts                                                     *)
(* ===================================================================== *)

Module GitService.
Section WithWorld.
Context {ST : Settings} {PT : Paths} {W : Type} {WC : WorkingCopy W}.

(** The field [this.repoPath] set by the constructor. *)
Variable repoPath : string.

(** The constructor: [this.git = simpleGit({ baseDir: repoPath, ... })]. *)
Definition new_GitService : M W unit :=
perform (Git_simpleGit repoPath) (simpleGit repoPath).

Definition setupRepository (owner repo branch : string) : M W unit :=
  let repoUrl :=
    "https://" +:+ git_token config +:+ "@github.com/" +:+ owner +:+ "/"
    +:+ repo +:+ ".git" in
  await present <- observe (Fs_existsSync repoPath) (fs_existsSync repoPath);
  await_ (if negb present
          then perform (Git_clone repoUrl repoPath) (git_clone repoUrl repoPath)
          else perform Git_pull git_pull);
  await_ perform (Git_addConfig "user.name" (git_userName config))
                 (git_addConfig "user.name" (git_userName config));
  await_ perform (Git_addConfig "user.email" (git_userEmail config))
                 (git_addConfig "user.email" (git_userEmail config));
  try_catch
    (perform (Git_checkout branch) (git_checkout branch))
    (fun _ =>
       perform (Git_checkoutLocalBranch branch) (git_checkoutLocalBranch branch)).

Definition fix_branch_name (prNumber now : Z) : string :=
  "fix/pr-" +:+ show_Z prNumber +:+ "-" +:+ show_Z now.

Definition createFixBranch (baseBranch : string) (prNumber : Z) : M W string :=
  await now <- observe Date_now Date_now_ms;
  let branchName := fix_branch_name prNumber now in
  await_ perform (Git_checkout baseBranch) (git_checkout baseBranch);
  await_ perform Git_pull git_pull;
  await_ perform (Git_checkoutLocalBranch branchName)
                 (git_checkoutLocalBranch branchName);
  ret branchName.

Definition applyChange (change : CodeChange) : M W unit :=
  let filePath := path_join repoPath (filename change) in
  let dir := path_dirname filePath in
  await present <- observe (Fs_existsSync dir) (fs_existsSync dir);
  await_ (if negb present
          then perform (Fs_mkdirSync dir) (fs_mkdirSync dir)
          else ret tt);
  perform (Fs_writeFileSync filePath (content change))
          (fs_writeFileSync filePath (content change)).

Definition applyChanges (changes_ : list CodeChange) : M W unit :=
  for_each changes_ applyChange.

Definition commit_message (prNumber commentId : Z)
    (changes_ : list CodeChange) : string :=
  let changeDescriptions :=
    join newline (List.map OpenAIService.change_line changes_) in
  "fix: Apply PR comment suggestions

PR: #" +:+ show_Z prNumber +:+ "
Comment: #" +:+ show_Z commentId +:+ "

Changes:
" +:+ changeDescriptions +:+ "

Applied by AI Comment Fixer Bot".

Definition no_changes_error : thrown := JsError "Error" "No changes to commit".

Definition commitChanges (prNumber commentId : Z)
    (changes_ : list CodeChange) : M W string :=
  let changedFiles := List.map filename changes_ in
  await_ perform (Git_add changedFiles) (git_add changedFiles);
  await status <- perform Git_status git_status;
  match modified status, created status with
  | [], [] => throw no_changes_error
  | _, _ =>
      let commitMessage := commit_message prNumber commentId changes_ in
      perform (Git_commit commitMessage) (git_commit commitMessage)
  end.

Definition pushChanges (branchName : string) : M W unit :=
  perform (Git_push "origin" branchName) (git_push "origin" branchName).

End WithWorld.
End GitService.

(* ===================================================================== *)
(** * services/github.ts                                                  *)
(* ===================================================================== *)

(** Node buffers and the two [crypto] functions the verifier uses. *)
Module Buffer.

Definition t : Type := list ascii.

(** [Buffer.from(s)]: the bytes of the text. *)
Definition from_utf8 (s : string) : t := list_ascii_of_string s.

Definition hex_digit (c : ascii) : option N :=
  let n := N_of_ascii c in
  if (48 <=? n)%N && (n <=? 57)%N then Some (n - 48)%N
  else if (97 <=? n)%N && (n <=? 102)%N then Some (n - 87)%N
  else if (65 <=? n)%N && (n <=? 70)%N then Some (n - 55)%N
  else None.

(** [Buffer.from(s, 'hex')]: whole pairs of hexadecimal digits are
    decoded up to the first pair that is not one; nothing throws. *)
Fixpoint from_hex (s : string) : t :=
  match s with
  | String a (String b r) =>
      match hex_digit a, hex_digit b with
      | Some x, Some y => ascii_of_N (16 * x + y) :: from_hex r
      | _, _ => []
      end
  | _ => []
  end.

Definition eqb (a b : t) : bool :=
  String.eqb (string_of_list_ascii a) (string_of_list_ascii b).

(** [crypto.timingSafeEqual(a, b)] throws a RangeError when the byte
    lengths differ. *)
Definition timingSafeEqual (a b : t) : result bool :=
  if Nat.eqb (List.length a) (List.length b)
  then Returns (eqb a b)
  else Raises (JsError "RangeError"
                 "Input buffers must have the same byte length").

End Buffer.

(** The [GitHubService] whose verifier takes the raw [Buffer], strips the
  algorithm prefix and compares the decoded digests inside [try]. *)
Module GitHubService.
Section WithWorld.
Context {ST : Settings} {CR : Crypto} {W : Type} {GH : GitHubClient W}.

Definition fallback_secret : string :=
  "d1169ad263cd1fcbbdf23f47a8089e839b2f7665eecbb2f3993845226655f620".

(** [process.env.GITHUB_WEBHOOK_SECRET || '...'] *)
Definition webhook_secret : string :=
  match process_env "GITHUB_WEBHOOK_SECRET" with
  | None | Some EmptyString => fallback_secret
  | Some sec => sec
  end.

Definition verifyWebhookSignature (payload signature : string) : result bool :=
  let expectedSignature := hmac_sha256_hex webhook_secret payload in
  let signatureHex :=
    if startsWith signature "sha256=" then slice_from 7 signature
    else signature in
  match Buffer.timingSafeEqual (Buffer.from_hex signatureHex)
                               (Buffer.from_hex expectedSignature) with
  | Returns b => Returns b
  | Raises _ => Returns false
  end.

Definition getPullRequestFiles (owner repo : string) (prNumber : Z)
    : M W (list GitHubFile) :=
  perform (GitHub_getPullRequestFiles owner repo prNumber)
          (api_getPullRequestFiles owner repo prNumber).

Definition getFileContent (owner repo path ref_ : string) : M W string :=
  perform (GitHub_getFileContent owner repo path ref_)
          (api_getFileContent owner repo path ref_).

Definition createComment (owner repo : string) (prNumber : Z)
    (body_ : string) : M W GitHubComment :=
  perform (GitHub_createComment owner repo prNumber body_)
          (api_createComment owner repo prNumber body_).

End WithWorld.
End GitHubService.

(** The other [GitHubService] of the repository: its verifier takes the
  body as text and compares it with the prefixed digest, with no [try]
  around the comparison.  Its REST wrappers are the same. *)
Module GitHubServiceText.
Section WithRuntime.
Context {ST : Settings} {CR : Crypto}.

Definition verifyWebhookSignature (payload signature : string) : result bool :=
  let expectedSignature :=
    "sha256=" +:+ hmac_sha256_hex (github_webhookSecret config) payload in
  Buffer.timingSafeEqual (Buffer.from_utf8 signature)
                         (Buffer.from_utf8 expectedSignature).

End WithRuntime.
End GitHubServiceText.

(* ===================================================================== *)
(** * Arithmetic on numbers                                               *)
(* ===================================================================== *)

(** A Number is an IEEE 754 binary64 value: arithmetic rounds the exact
    result to the nearest value with 53 significant bits, ties to the
    even one, within the exponents of the format. *)

(** [2^e] *)
Definition Qpow2 (e : Z) : Q :=
  if 0 <=? e then inject_Z (2 ^ e) else Qmake 1 (Z.to_pos (2 ^ (- e))).

(** The [e] with [2^e <= q < 2^(e+1)], for [q > 0]. *)
Definition Qlog2 (q : Q) : Z :=
  let e := Z.log2 (Qnum q) - Z.log2 (Zpos (Qden q)) in
  if Qle_bool (Qpow2 e) q then e else e - 1.

(** The nearest integer, a half going to the even one. *)
Definition round_half_even (q : Q) : Z :=
  let f := Qfloor q in
  match Qcompare (q - inject_Z f) (1 # 2) with
  | Lt => f
  | Gt => f + 1
  | Eq => if Z.even f then f else f + 1
  end.

(** The binary64 value nearest to [q > 0]: a multiple of the spacing of
    the values around [q], which is [2^-1074] below [2^-1022]; what
    rounds to [2^1024] overflows. *)
Definition nearest_double (q : Q) : number :=
  let e := Z.max (Qlog2 q) (-1022) in
  let spacing := Qpow2 (e - 52) in
  let r := Qred (inject_Z (round_half_even (q / spacing)) * spacing) in
  if Qle_bool (Qpow2 1024) r then PosInfinity else Finite r.

Definition num_opp (a : number) : number :=
  match a with
  | Finite q => Finite (Qred (- q))
  | PosInfinity => NegInfinity
  | NegInfinity => PosInfinity
  end.

Definition to_double (q : Q) : number :=
  match Qcompare q 0 with
  | Eq => Finite 0
  | Gt => nearest_double q
  | Lt => num_opp (nearest_double (- q))
  end.

(** [c * 100] *)
Definition times_hundred (c : number) : number :=
  match c with
  | Finite q =>
      match to_double q with
      | Finite d => to_double (d * inject_Z 100)
      | overflow => overflow
      end
  | PosInfinity => PosInfinity
  | NegInfinity => NegInfinity
  end.

(** [Math.round(x)]: the integer nearest to [x], a half going up. *)
Definition Math_round (x : number) : number :=
  match x with
  | Finite q => Finite (inject_Z (Qfloor (q + (1 # 2))))
  | PosInfinity => PosInfinity
  | NegInfinity => NegInfinity
  end.

(** The decimal [d] reads back as the Number of value [v]. *)
Definition reads_as (v d : Z) : bool :=
  match to_double (inject_Z d) with
  | Finite q => Qeq_bool q (inject_Z v)
  | _ => false
  end.

(** A decimal of [k] significant digits that reads back as [v], the
    closest to [v] if there are two, where [v] has [n] digits. *)
Definition with_digits (v n k : Z) : option Z :=
  let unit := 10 ^ (n - k) in
  let lo := (v / unit) * unit in
  let hi := lo + unit in
  match reads_as v lo, reads_as v hi with
  | true, true =>
      Some (if v - lo <? hi - v then lo
            else if hi - v <? v - lo then hi
            else if Z.even (v / unit) then lo else hi)
  | true, false => Some lo
  | false, true => Some hi
  | false, false => None
  end.

Fixpoint shortest_from (v n k : Z) (fuel : nat) : Z :=
  match fuel with
  | O => v
  | S fuel' =>
      match with_digits v n k with
      | Some d => d
      | None => shortest_from v n (k + 1) fuel'
      end
  end.

(** The decimal with the fewest significant digits that reads back as
    the Number of value [v > 0]. *)
Definition shortest_decimal (v : Z) : Z :=
  let n := String.length (show_Z v) in
  shortest_from v (Z.of_nat n) 1 n.

Fixpoint without_zeros (d : Z) (fuel : nat) : Z :=
  match fuel with
  | O => d
  | S fuel' => if d mod 10 =? 0 then without_zeros (d / 10) fuel' else d
  end.

(** The text of a Number whose value is the integer [v > 0].  Up to
    [2^53] every integer is a Number and no shorter decimal reads back
    as it; beyond, the shortest decimal that does is shown, in full
    below [10^21] and with an exponent from there on. *)
Definition show_whole_pos (v : Z) : string :=
  if v <=? 2 ^ 53 then show_Z v
  else
    let d := shortest_decimal v in
    if d <? 10 ^ 21 then show_Z d
    else
      let n := String.length (show_Z d) in
      match show_Z (without_zeros d n) with
      | String c "" => String c "e+" +:+ show_nat (n - 1)
      | String c rest => String c ("." +:+ rest) +:+ "e+" +:+ show_nat (n - 1)
      | "" => ""
      end.

(** The text of a Number whose value is an integer, as a template
    literal shows it; minus zero is shown as [0]. *)
Definition show_whole (x : number) : string :=
  match x with
  | Finite q =>
      match Qfloor q with
      | Z0 => "0"
      | Zpos p => show_whole_pos (Zpos p)
      | Zneg p => "-" +:+ show_whole_pos (Zpos p)
      end
  | PosInfinity => "Infinity"
  | NegInfinity => "-Infinity"
  end.

(* ===================================================================== *)
(** * services/commentProcessor.ts                                        *)
(* ===================================================================== *)

(** The three marks of the comments, byte for byte as the source file
    holds them. *)
Definition emoji_robot : string :=
  utf8 [239; 163; 191; 195; 188; 194; 167; 195; 177]%nat.
Definition emoji_check : string := utf8 [226; 128; 154; 195; 186; 195; 150]%nat.
Definition emoji_cross : string := utf8 [226; 128; 154; 195; 185; 195; 165]%nat.

(** [${Math.round(analysis.confidence * 100)}]: the product is rounded
    as a Number, then to the nearest integer, and shown. *)
Definition show_percent (c : number) : string :=
  show_whole (Math_round (times_hundred c)).

Module CommentProcessor.
Section WithWorld.
Context {ST : Settings} {JP : JsonParser} {PT : Paths} {W : Type}.
Context {AI : OpenAIClient W} {GH : GitHubClient W} {WC : WorkingCopy W}.

(** The field [this.tempDir] set by the constructor. *)
Variable tempDir : string.

(** The login compared with the author of the comment. *)
Definition bot_login : string := "AI Comment Fixer Bot".

Definition file_content_placeholder : string := "File content not available".

(** The loop of [analyzeComment] that fills [fileContents]. *)
Fixpoint fetch_contents (repository_ : Repository) (pr : GitHubPR)
    (files : list GitHubFile) (fileContents : gmap string string)
    : M W (gmap string string) :=
  match files with
  | [] => ret fileContents
  | file :: rest =>
      await text <-
        try_catch
          (GitHubService.getFileContent (owner_login repository_)
             (name repository_) (file_filename file) (sha (head pr)))
          (fun _ => ret file_content_placeholder);
      fetch_contents repository_ pr rest
        (<[file_filename file := text]> fileContents)
  end.

Definition analyzeComment (comment_ : GitHubComment) (pr : GitHubPR)
    (repository_ : Repository) : M W AIAnalysisResult :=
  await files <-
    GitHubService.getPullRequestFiles (owner_login repository_)
      (name repository_) (number_ pr);
  await fileContents <- fetch_contents repository_ pr files ∅;
  OpenAIService.analyzeComment comment_ pr files fileContents.

Definition analysis_message (analysis : AIAnalysisResult) : string :=
  emoji_robot +:+ " **AI Analysis**

**Decision:** "
  +:+ (if shouldApply analysis then emoji_check +:+ " Will apply"
       else emoji_cross +:+ " Will not apply") +:+ "

**Reasoning:** " +:+ reasoning analysis +:+ "

**Confidence:** " +:+ show_percent (confidence analysis) +:+ "%

"
  +:+ (match changes analysis with
       | [] => ""
       | _ => "**Proposed Changes:**" +:+ newline
              +:+ join newline
                    (List.map OpenAIService.change_line (changes analysis))
       end) +:+ "

---
*This analysis was performed by the AI Comment Fixer Bot*".

Definition addAnalysisComment (comment_ : GitHubComment) (pr : GitHubPR)
    (repository_ : Repository) (analysis : AIAnalysisResult) : M W unit :=
  await_ GitHubService.createComment (owner_login repository_)
           (name repository_) (number_ pr) (analysis_message analysis);
  ret tt.

Definition success_message (summary fixBranch : string) (pr : GitHubPR)
    (analysis : AIAnalysisResult) : string :=
  emoji_check +:+ " **Changes Applied Successfully**

" +:+ summary +:+ "

**Branch:** " +:+ backtick +:+ fixBranch +:+ backtick +:+ "
**Confidence:** " +:+ show_percent (confidence analysis) +:+ "%

**Changes Made:**
" +:+ join newline (List.map OpenAIService.change_line (changes analysis)) +:+ "

**Next Steps:**
1. Review the changes in the new branch
2. Create a new PR from " +:+ backtick +:+ fixBranch +:+ backtick +:+ " to "
  +:+ backtick +:+ ref (base pr) +:+ backtick +:+ "
3. Or merge the changes directly if approved

---
*Applied by AI Comment Fixer Bot*".

Definition addSuccessComment (comment_ : GitHubComment) (pr : GitHubPR)
    (repository_ : Repository) (analysis : AIAnalysisResult)
    (fixBranch : string) : M W unit :=
  await summary <- OpenAIService.generateChangeSummary (changes analysis);
  await_ GitHubService.createComment (owner_login repository_)
           (name repository_) (number_ pr)
           (success_message summary fixBranch pr analysis);
  ret tt.

Definition repo_path (repository_ : Repository) : string :=
  path_join tempDir (owner_login repository_ +:+ "-" +:+ name repository_).

(** The [catch] of [applyChanges] logs and throws the error again. *)
Definition applyChanges (comment_ : GitHubComment) (pr : GitHubPR)
    (repository_ : Repository) (analysis : AIAnalysisResult) : M W unit :=
  let repoPath := repo_path repository_ in
  await_ GitService.new_GitService repoPath;
  try_catch
    (await_ GitService.setupRepository repoPath (owner_login repository_)
              (name repository_) (ref (base pr));
     await fixBranch <-
       GitService.createFixBranch (ref (base pr)) (number_ pr);
     await_ GitService.applyChanges repoPath (changes analysis);
     await commitSha <-
       GitService.commitChanges (number_ pr) (comment_id comment_)
         (changes analysis);
     await_ GitService.pushChanges fixBranch;
     addSuccessComment comment_ pr repository_ analysis fixBranch)
    (fun error => throw error).

Definition error_comment (error : thrown) : string :=
  emoji_cross +:+ " **Error Processing Comment**

An error occurred while processing this comment:

" +:+ backtick +:+ backtick +:+ backtick +:+ "
" +:+ error_message error +:+ "
" +:+ backtick +:+ backtick +:+ backtick +:+ "

**Error Type:** " +:+ error_class error +:+ "

Please check the bot logs for more details or try again later.

---
*AI Comment Fixer Bot*".

Definition handleError (payload : GitHubWebhookPayload) (error : thrown)
    : M W unit :=
  match comment payload, pull_request payload with
  | Some _, Some pr =>
      try_catch
        (await_ GitHubService.createComment
                  (owner_login (repository payload))
                  (name (repository payload)) (number_ pr)
                  (error_comment error);
         ret tt)
        (fun _ => ret tt)
  | _, _ => ret tt
  end.

Definition processComment (payload : GitHubWebhookPayload) : M W unit :=
  try_catch
    (match comment payload, pull_request payload with
     | Some comment_, Some pr =>
         let repository_ := repository payload in
         if String.eqb (comment_user_login comment_) bot_login then ret tt
         else
           await analysis <- analyzeComment comment_ pr repository_;
           if negb (shouldApply analysis)
           then addAnalysisComment comment_ pr repository_ analysis
           else applyChanges comment_ pr repository_ analysis
     | _, _ => ret tt
     end)
    (fun error => handleError payload error).

(** index.ts: the task handed to [setImmediate] is run to its end here;
    whatever it throws is logged and dropped. *)
Definition handleCommentEvent (payload : GitHubWebhookPayload) : M W unit :=
  if negb (String.eqb (action payload) "created") then ret tt
  else
    match pull_request payload with
    | None => ret tt
    | Some _ => try_catch (processComment payload) (fun _ => ret tt)
    end.

End WithWorld.
End CommentProcessor.

(* ===================================================================== *)
(** * Observations on a log                                               *)
(* ===================================================================== *)

(** Calls made by [GitService]: simple-git, [fs] and the clock. *)
Definition is_working_copy_call (c : call) : bool :=
  match c with
  | OpenAI_chat _
  | GitHub_getPullRequestFiles _ _ _
  | GitHub_getFileContent _ _ _ _
  | GitHub_createComment _ _ _ _ => false
  | _ => true
  end.

(** Calls to the chat-completion model. *)
Definition is_engine_call (c : call) : bool :=
  match c with
  | OpenAI_chat _ => true
  | _ => false
  end.

Definition comment_body_of (c : call) : option string :=
  match c with
  | GitHub_createComment _ _ _ text => Some text
  | _ => None
  end.

(** The texts the bot tried to post, in order. *)
Definition attempted_comments (l : list event) : list string :=
  omap (fun e => comment_body_of (ev_call e)) l.

(** The texts GitHub accepted, in order. *)
Definition posted_comments (l : list event) : list string :=
  omap (fun e => if ev_ok e then comment_body_of (ev_call e) else None) l.

Definition no_working_copy_call (l : list event) : Prop :=
  Forall (fun e => is_working_copy_call (ev_call e) = false) l.

Definition only_working_copy_calls (l : list event) : Prop :=
  Forall (fun e => is_working_copy_call (ev_call e) = true) l.

Definition no_engine_call (l : list event) : Prop :=
  Forall (fun e => is_engine_call (ev_call e) = false) l.

(** The calls the orchestrator makes to GitHub for one delivery. *)
Definition files_call (repository_ : Repository) (pr : GitHubPR) : call :=
  GitHub_getPullRequestFiles (owner_login repository_) (name repository_)
    (number_ pr).

Definition content_call (repository_ : Repository) (pr : GitHubPR)
    (file : GitHubFile) : call :=
  GitHub_getFileContent (owner_login repository_) (name repository_)
    (file_filename file) (sha (head pr)).

Definition comment_call (repository_ : Repository) (pr : GitHubPR)
    (text : string) : call :=
  GitHub_createComment (owner_login repository_) (name repository_)
    (number_ pr) text.

(** GitHub answered the post of [text] with success ([ok]) or not. *)
Definition answered {W : Type} {GH : GitHubClient W}
    (repository_ : Repository) (pr : GitHubPR) (text : string)
    (ok : bool) : Prop :=
  exists w : W,
    is_ok (fst (api_createComment (owner_login repository_)
                  (name repository_) (number_ pr) text w)) = ok.


(** The comment API accepts every post. *)
Definition comment_api_accepts {W : Type} {GH : GitHubClient W} : Prop :=
  forall owner repo_ prNumber text (w : W),
    is_ok (fst (api_createComment owner repo_ prNumber text w)) = true.

(** A failed sequence of repository steps ends with the call that
    failed, or with the status that showed nothing to commit. *)
Definition ends_in_failure (e : thrown) (G : list event) : Prop :=
  exists G' ev,
    G = G' ++ [ev] /\
    (ev_ok ev = false \/
     (e = GitService.no_changes_error /\ ev = Event Git_status true)).

Definition git_outcome {A} (r : result A) (G : list event) : Prop :=
  only_working_copy_calls G /\
  match r with
  | Returns _ => True
  | Raises e => ends_in_failure e G
  end.

(** The log of a sequence of repository steps that went through: the
    fix branch was created, every change was written, the commit was
    made and the branch pushed, in this order. *)
Definition completed_git_sequence {PT : Paths} (repoPath fixBranch : string)
    (prNumber commentId : Z) (changes_ : list CodeChange)
    (G : list event) : Prop :=
  exists e1 e2,
    G = e1 ++ [Event (Git_checkoutLocalBranch fixBranch) true] ++ e2
           ++ [Event (Git_commit
                        (GitService.commit_message prNumber commentId changes_))
                     true;
               Event (Git_push "origin" fixBranch) true] /\
    Forall (fun c =>
              In (Event (Fs_writeFileSync (path_join repoPath (filename c))
                                          (content c)) true) e2) changes_.

(** Stretches of the pipeline that the properties speak about. *)
Module Phases.
Section WithWorld.
Context {ST : Settings} {PT : Paths} {W : Type} {WC : WorkingCopy W}.


(** The steps of [CommentProcessor.applyChanges] that work on the
    repository, up to and including the push; the success comment is
    what follows them. *)
Definition git_sequence (tempDir : string) (comment_ : GitHubComment)
    (pr : GitHubPR) (repository_ : Repository) (analysis : AIAnalysisResult)
    : M W string :=
  let repoPath :=
    path_join tempDir (owner_login repository_ +:+ "-" +:+ name repository_) in
  await_ GitService.new_GitService repoPath;
  await_ GitService.setupRepository repoPath (owner_login repository_)
           (name repository_) (ref (base pr));
  await fixBranch <- GitService.createFixBranch (ref (base pr)) (number_ pr);
  await_ GitService.applyChanges repoPath (changes analysis);
  await commitSha <-
    GitService.commitChanges (number_ pr) (comment_id comment_)
      (changes analysis);
  await_ GitService.pushChanges fixBranch;
  ret fixBranch.

End WithWorld.
End Phases.

(* ===================================================================== *)
(** * What a delivery posts, and the steps before it                      *)
(* ===================================================================== *)

Module Posts.
Section WithWorld.
Context {W : Type} {GH : GitHubClient W}.

(** What GitHub answers, in world [w], to the post of [text] on the
    pull request. *)
Definition post_result (repository_ : Repository) (pr : GitHubPR)
    (text : string) (w : W) : result GitHubComment * W :=
  api_createComment (owner_login repository_) (name repository_)
    (number_ pr) text w.

(** The comments in [l] when the error comment [text] is posted in
    world [w]: one attempt, which stays the only one, and one comment on
    the pull request if GitHub accepts it. *)
Definition error_comment_only (repository_ : Repository) (pr : GitHubPR)
    (text : string) (w : W) (l : list event) : Prop :=
  attempted_comments l = [text] /\
  posted_comments l =
    if is_ok (fst (post_result repository_ pr text w)) then [text] else [].

(** The comments in [l] when [text] is posted in world [w] under the
    [catch] of [processComment]: if GitHub accepts the post it is the
    only comment; if GitHub refuses it with [e], the error comment of
    [e] is attempted next, and is the one comment on the pull request if
    GitHub accepts that one. *)
Definition comment_or_its_error (repository_ : Repository) (pr : GitHubPR)
    (text : string) (w : W) (l : list event) : Prop :=
  match post_result repository_ pr text w with
  | (Returns _, _) =>
      attempted_comments l = [text] /\ posted_comments l = [text]
  | (Raises e, w') =>
      attempted_comments l = [text; CommentProcessor.error_comment e] /\
      posted_comments l =
        if is_ok (fst (post_result repository_ pr
                         (CommentProcessor.error_comment e) w'))
        then [CommentProcessor.error_comment e] else []
  end.

(** The state after [text] is posted from state [s]: GitHub has
    answered, and the call is in the log with its outcome. *)
Definition post (repository_ : Repository) (pr : GitHubPR) (text : string)
    (s : state W) : state W :=
  let answer := post_result repository_ pr text (world s) in
  State (snd answer)
    (log s ++ [Event (comment_call repository_ pr text) (is_ok (fst answer))]).

(** The state after [text] is posted under the [catch] of
    [processComment]: when GitHub refuses the post, the error comment of
    that refusal is posted next. *)
Definition report (repository_ : Repository) (pr : GitHubPR) (text : string)
    (s : state W) : state W :=
  match fst (post_result repository_ pr text (world s)) with
  | Returns _ => post repository_ pr text s
  | Raises e =>
      post repository_ pr (CommentProcessor.error_comment e)
        (post repository_ pr text s)
  end.

End WithWorld.
End Posts.

(** The repository steps of the apply phase, one after the other. *)
Module Steps.
Section WithWorld.
Context {ST : Settings} {PT : Paths} {W : Type} {WC : WorkingCopy W}.
Variables (repoPath : string) (repository_ : Repository) (pr : GitHubPR).
Variables (comment_ : GitHubComment) (changes_ : list CodeChange).

(** Every step returned, from [s1] to [s2]: the constructor, the set-up,
    the new branch [fixBranch], the writes, the commit, and the push of
    [fixBranch] to [origin], which git accepted. *)
Definition went_through (s1 : state W) (fixBranch : string) (s2 : state W)
    : Prop :=
  exists sa sb sc sd se commitSha,
    GitService.new_GitService repoPath s1 = (Returns tt, sa) /\
    GitService.setupRepository repoPath (owner_login repository_)
      (name repository_) (ref (base pr)) sa = (Returns tt, sb) /\
    GitService.createFixBranch (ref (base pr)) (number_ pr) sb
      = (Returns fixBranch, sc) /\
    GitService.applyChanges repoPath changes_ sc = (Returns tt, sd) /\
    GitService.commitChanges (number_ pr) (comment_id comment_) changes_ sd
      = (Returns commitSha, se) /\
    git_push "origin" fixBranch (world se) = (Returns tt, world s2) /\
    log s2 = log se ++ [Event (Git_push "origin" fixBranch) true].

(** One step threw [e] and left [s2], after the steps before it had
    returned. *)
Definition failed_step (s1 : state W) (e : thrown) (s2 : state W) : Prop :=
  GitService.new_GitService repoPath s1 = (Raises e, s2) \/
  exists sa,
    GitService.new_GitService repoPath s1 = (Returns tt, sa) /\
    (GitService.setupRepository repoPath (owner_login repository_)
       (name repository_) (ref (base pr)) sa = (Raises e, s2) \/
     exists sb,
       GitService.setupRepository repoPath (owner_login repository_)
         (name repository_) (ref (base pr)) sa = (Returns tt, sb) /\
       (GitService.createFixBranch (ref (base pr)) (number_ pr) sb
          = (Raises e, s2) \/
        exists fixBranch sc,
          GitService.createFixBranch (ref (base pr)) (number_ pr) sb
            = (Returns fixBranch, sc) /\
          (GitService.applyChanges repoPath changes_ sc = (Raises e, s2) \/
           exists sd,
             GitService.applyChanges repoPath changes_ sc = (Returns tt, sd) /\
             (GitService.commitChanges (number_ pr) (comment_id comment_)
                changes_ sd = (Raises e, s2) \/
              exists commitSha se,
                GitService.commitChanges (number_ pr) (comment_id comment_)
                  changes_ sd = (Returns commitSha, se) /\
                GitService.pushChanges fixBranch se = (Raises e, s2))))).

End WithWorld.
End Steps.

(* ===================================================================== *)
(** * A reference working copy                                            *)
(* ===================================================================== *)

(** What the file system, git and the clock answer, as far as the bot
    can observe it.  The file system is a tree of directories and
    files without links, in which every path may be written.  There is
    one repository, at [root], and one remote, [origin]; git runs in the
    directory that was given to simple-git.  Refs are local branches and
    the branches of the remote; a commit is identified with its tree; no
    ignore rules, attributes or hooks are in force; [git add] is given
    paths, not options or patterns. *)
Module WorkingCopyModel.

(** ** Paths, as [path.posix] of Node has them *)

Abbreviation path := (list string).

(** [p.split('/')] *)
Fixpoint split_path (p : string) : list string :=
  match p with
  | EmptyString => [EmptyString]
  | String c r =>
      if Ascii.eqb c "/" then EmptyString :: split_path r
      else match split_path r with
           | seg :: rest => String c seg :: rest
           | [] => [String c EmptyString]
           end
  end.

Definition is_dot (seg : string) : bool :=
  String.eqb seg "" || String.eqb seg ".".

Definition is_dotdot (seg : string) : bool := String.eqb seg "..".

(** One step of [normalizeString]; the segments kept so far are in
    [stack], the last one first. *)
Definition push_segment (allowAboveRoot : bool) (stack : list string)
    (seg : string) : list string :=
  if is_dot seg then stack
  else if is_dotdot seg then
    match stack with
    | top :: rest =>
        if is_dotdot top then (if allowAboveRoot then seg :: stack else stack)
        else rest
    | [] => if allowAboveRoot then [seg] else []
    end
  else seg :: stack.

Definition normalize_segments (allowAboveRoot : bool) (segs : list string)
    : list string :=
  rev (fold_left (push_segment allowAboveRoot) segs []).

Definition is_absolute (p : string) : bool :=
  match p with
  | String c _ => Ascii.eqb c "/"
  | EmptyString => false
  end.

Fixpoint ends_with_slash (p : string) : bool :=
  match p with
  | EmptyString => false
  | String c EmptyString => Ascii.eqb c "/"
  | String _ r => ends_with_slash r
  end.

(** [path.normalize] *)
Definition normalize (p : string) : string :=
  match p with
  | EmptyString => "."
  | _ =>
      match join "/" (normalize_segments (negb (is_absolute p)) (split_path p))
      with
      | EmptyString =>
          if is_absolute p then "/"
          else if ends_with_slash p then "./" else "."
      | body =>
          (if is_absolute p then "/" else "") +:+ body
          +:+ (if ends_with_slash p then "/" else "")
      end
  end.

Fixpoint skip_while {A} (f : A -> bool) (l : list A) : list A :=
  match l with
  | x :: rest => if f x then skip_while f rest else l
  | [] => []
  end.

Definition is_slash (c : ascii) : bool := Ascii.eqb c "/".

(** [path.dirname]: the text before the last slash that has something
    other than slashes after it; the first character is not looked at. *)
Definition dirname (p : string) : string :=
  match p with
  | EmptyString => "."
  | String c0 rest =>
      let backwards := rev (list_ascii_of_string rest) in
      let before_base :=
        skip_while (fun c => negb (is_slash c)) (skip_while is_slash backwards) in
      match before_base with
      | [] => if is_slash c0 then "/" else "."
      | _ :: [] => if is_slash c0 then "//" else String c0 EmptyString
      | _ :: more => String c0 (string_of_list_ascii (rev more))
      end
  end.

#[export] Instance posix_paths : Paths := {
  path_join a b :=
    match a, b with
    | EmptyString, EmptyString => "."
    | EmptyString, _ => normalize b
    | _, EmptyString => normalize a
    | _, _ => normalize (a +:+ "/" +:+ b)
    end;
  path_dirname := dirname }.

(** ** The file system *)

Inductive node : Type :=
| File (data : string)
| Dir.

#[export] Instance node_eq_dec : EqDecision node.
Proof. solve_decision. Defined.

Record Repo := {
  root : string;
  cwd : path;
  inside : gmap path node;
  outside : gmap path node;
  cloned : bool;
  base_dir : option path;
  index : gmap path string;
  branches : gmap string (gmap path string);
  HEAD : string;
  upstream : gmap string string;
  synced : gmap string (gmap path string);
  fetched : gmap string (gmap path string);
  origin : gmap string (gmap path string);
  origin_HEAD : string;
  commits : nat;
  clock : Z }.

Abbreviation tree := (gmap (list string) string).

(** [l] without its prefix [p], when it has that prefix. *)
Fixpoint drop_prefix (p l : path) : option path :=
  match p, l with
  | [], _ => Some l
  | a :: p', b :: l' => if String.eqb a b then drop_prefix p' l' else None
  | _ :: _, [] => None
  end.

(** Where a path leads when its segments are followed from [start]
    without looking at the disk. *)
Definition follow (start : path) (p : string) : path :=
  normalize_segments false
    ((if is_absolute p then [] else start) ++ split_path p).

Definition root_path (r : Repo) : path := follow (cwd r) (root r).

(** What is at an absolute path: the top directory is always there; at
    and under [root] the disk is kept in [inside], by the path from
    [root]. *)
Definition lookup_node (r : Repo) (q : path) : option node :=
  match q with
  | [] => Some Dir
  | _ =>
      match drop_prefix (root_path r) q with
      | Some rel => inside r !! rel
      | None => outside r !! q
      end
  end.

Definition with_disk (inside_ outside_ : gmap path node) (r : Repo) : Repo :=
  {| root := root r; cwd := cwd r; inside := inside_; outside := outside_;
     cloned := cloned r; base_dir := base_dir r; index := index r;
     branches := branches r; HEAD := HEAD r; upstream := upstream r;
     synced := synced r; fetched := fetched r; origin := origin r;
     origin_HEAD := origin_HEAD r; commits := commits r; clock := clock r |}.

Definition put_node (q : path) (n : node) (r : Repo) : Repo :=
  match q with
  | [] => r
  | _ =>
      match drop_prefix (root_path r) q with
      | Some rel => with_disk (<[rel := n]> (inside r)) (outside r) r
      | None => with_disk (inside r) (<[q := n]> (outside r)) r
      end
  end.

Inductive fs_code : Type := ENOENT | ENOTDIR | EISDIR | EEXIST.

(** The error Node throws for a failed system call. *)
Definition fs_error (code : fs_code) (syscall p : string) : thrown :=
  JsError "Error"
    (match code with
     | ENOENT => "ENOENT: no such file or directory"
     | ENOTDIR => "ENOTDIR: not a directory"
     | EISDIR => "EISDIR: illegal operation on a directory"
     | EEXIST => "EEXIST: file already exists"
     end +:+ ", " +:+ syscall +:+ " '" +:+ p +:+ "'").

(** Follow segments that must all lead through directories. *)
Fixpoint walk_dirs (r : Repo) (cur : path) (segs : list string)
    : fs_code + path :=
  match segs with
  | [] => inr cur
  | seg :: rest =>
      if is_dot seg then walk_dirs r cur rest
      else if is_dotdot seg then walk_dirs r (removelast cur) rest
      else
        match lookup_node r (cur ++ [seg]) with
        | Some Dir => walk_dirs r (cur ++ [seg]) rest
        | Some (File _) => inl ENOTDIR
        | None => inl ENOENT
        end
  end.

(** Where a path leads: to a directory ([.], [..] or only slashes at the
    end), or to an entry of a directory, which may be missing. *)
Inductive target : Type :=
| Directory (q : path)
| Entry (q : path).

Definition is_empty (seg : string) : bool := String.eqb seg "".

(** The segments without the empty ones that trailing slashes leave. *)
Definition without_trailing (segs : list string) : list string :=
  rev (skip_while is_empty (rev segs)).

Definition locate (r : Repo) (p : string) : fs_code + target :=
  match p with
  | EmptyString => inl ENOENT
  | _ =>
      let segs := without_trailing (split_path p) in
      match last segs with
      | None => inr (Directory [])
      | Some seg =>
          match walk_dirs r (if is_absolute p then [] else cwd r)
                  (removelast segs) with
          | inl code => inl code
          | inr cur =>
              if is_dot seg then inr (Directory cur)
              else if is_dotdot seg then inr (Directory (removelast cur))
              else inr (Entry (cur ++ [seg]))
          end
      end
  end.

(** [fs.existsSync]: whether [stat] succeeds. *)
Definition exists_on_disk (p : string) (r : Repo) : bool :=
  match locate r p with
  | inr (Directory _) => true
  | inr (Entry q) =>
      match lookup_node r q with
      | Some Dir => true
      | Some (File _) => negb (ends_with_slash p)
      | None => false
      end
  | inl _ => false
  end.

(** [fs.writeFileSync(p, data)]: the file is created or replaced; a
    directory cannot be opened for writing, and the directory the file
    is in must be there. *)
Definition do_writeFileSync (p data : string) (r : Repo)
    : result unit * Repo :=
  match locate r p with
  | inl code => (Raises (fs_error code "open" p), r)
  | inr (Directory _) => (Raises (fs_error EISDIR "open" p), r)
  | inr (Entry q) =>
      if ends_with_slash p then (Raises (fs_error EISDIR "open" p), r)
      else
        match lookup_node r q with
        | Some Dir => (Raises (fs_error EISDIR "open" p), r)
        | _ => (Returns tt, put_node q (File data) r)
        end
  end.

Definition is_name (seg : string) : bool :=
  negb (is_dot seg) && negb (is_dotdot seg).

(** Make every directory on the way that is missing. *)
Fixpoint make_dirs (r : Repo) (cur : path) (segs : list string)
    : fs_code + Repo :=
  match segs with
  | [] => inr r
  | seg :: rest =>
      if is_dot seg then make_dirs r cur rest
      else if is_dotdot seg then make_dirs r (removelast cur) rest
      else
        match lookup_node r (cur ++ [seg]) with
        | Some Dir => make_dirs r (cur ++ [seg]) rest
        | Some (File _) =>
            inl (if existsb is_name rest then ENOTDIR else EEXIST)
        | None => make_dirs (put_node (cur ++ [seg]) Dir r) (cur ++ [seg]) rest
        end
  end.

(** [fs.mkdirSync(p, { recursive: true })] *)
Definition do_mkdirSync (p : string) (r : Repo) : result unit * Repo :=
  match p with
  | EmptyString => (Raises (fs_error ENOENT "mkdir" p), r)
  | _ =>
      match make_dirs r (if is_absolute p then [] else cwd r) (split_path p)
      with
      | inl code => (Raises (fs_error code "mkdir" p), r)
      | inr r' => (Returns tt, r')
      end
  end.

(** ** The repository *)

Definition git_error {A} (msg : string) : result A :=
  Raises (JsError "GitError" msg).

Definition not_a_repository {A} : result A :=
  git_error "fatal: not a git repository (or any of the parent directories): .git".

(** The directory git runs in, as a path from [root], when it is in the
    work tree of the repository. *)
Definition git_prefix (r : Repo) : option path :=
  if cloned r then
    match base_dir r with
    | Some b => drop_prefix (root_path r) b
    | None => None
    end
  else None.

Definition in_repository (r : Repo) : bool :=
  match git_prefix r with Some _ => true | None => false end.

Definition head_tree (r : Repo) : tree :=
  default ∅ (branches r !! HEAD r).

Definition under_git (f : path) : bool :=
  match f with
  | seg :: _ => String.eqb seg ".git"
  | [] => false
  end.

Definition file_data (n : node) : option string :=
  match n with
  | File data => Some data
  | Dir => None
  end.

(** The files of the work tree, by their path from [root]. *)
Definition worktree (r : Repo) : tree :=
  omap file_data (filter (fun kv => under_git kv.1 = false) (inside r)).

(** [simpleGit({ baseDir })] refuses a base directory that is not
    there. *)
Definition do_simpleGit (baseDir : string) (r : Repo) : result unit * Repo :=
  let refused :=
    (Raises (JsError "GitConstructError"
               "Cannot use simple-git on a directory that does not exist"), r) in
  let started (q : path) :=
    (Returns tt,
     {| root := root r; cwd := cwd r; inside := inside r; outside := outside r;
        cloned := cloned r; base_dir := Some q; index := index r;
        branches := branches r; HEAD := HEAD r; upstream := upstream r;
        synced := synced r; fetched := fetched r; origin := origin r;
        origin_HEAD := origin_HEAD r; commits := commits r;
        clock := clock r |}) in
  match locate r baseDir with
  | inr (Directory q) => started q
  | inr (Entry q) =>
      match lookup_node r q with
      | Some Dir => started q
      | _ => refused
      end
  | inl _ => refused
  end.

Definition with_git (index_ : tree) (branches_ : gmap string tree)
    (HEAD_ : string) (upstream_ : gmap string string)
    (synced_ fetched_ : gmap string tree) (r : Repo) : Repo :=
  {| root := root r; cwd := cwd r; inside := inside r; outside := outside r;
     cloned := cloned r; base_dir := base_dir r; index := index_;
     branches := branches_; HEAD := HEAD_; upstream := upstream_;
     synced := synced_; fetched := fetched_; origin := origin r;
     origin_HEAD := origin_HEAD r; commits := commits r; clock := clock r |}.

(** Every directory above the files of [t], and [t] itself as files. *)
Fixpoint ancestors (f : path) : list path :=
  match f with
  | [] => []
  | seg :: rest => [] :: List.map (cons seg) (ancestors rest)
  end.

Definition with_dirs (f : path) (d : gmap path node) : gmap path node :=
  fold_right (fun q d => <[q := Dir]> d) d (ancestors f).

Definition checked_out (t : tree) : gmap path node :=
  map_fold (fun f data d => <[f := File data]> (with_dirs f d)) ∅ t.

(** No entry of [d] lies under the directory [q]. *)
Definition is_empty_dir (d : gmap path node) (q : path) : bool :=
  bool_decide (map_Forall (fun f _ => f = q \/ drop_prefix q f = None) d).

(** Remove the directories above [f] that are left empty, the deepest
    first; [root] itself stays. *)
Definition prune_above (f : path) (d : gmap path node) : gmap path node :=
  fold_left
    (fun d q =>
       match q with
       | [] => d
       | _ => if is_empty_dir d q then delete q d else d
       end)
    (rev (ancestors f)) d.

(** One path of a two-way merge from the tree [H] to the tree [M]
    ([git read-tree -m -u H M]): what does not differ between the two
    trees stays as it is in the index and on disk; what differs is
    taken from [M], unless the index or the disk holds something else
    than [H] there, which stops the merge. *)
Definition merge_path (H M : tree) (f : path)
    (acc : option (tree * gmap path node)) : option (tree * gmap path node) :=
  match acc with
  | None => None
  | Some (idx, d) =>
      if bool_decide (H !! f = M !! f) then Some (idx, d)
      else if bool_decide (idx !! f = M !! f) then Some (idx, d)
      else if bool_decide (idx !! f = H !! f) then
        if bool_decide (d !! f = File <$> (idx !! f)) then
          match M !! f with
          | Some data =>
              Some (<[f := data]> idx, <[f := File data]> (with_dirs f d))
          | None => Some (delete f idx, prune_above f (delete f d))
          end
        else None
      else None
  end.

Definition two_way_merge (H M : tree) (r : Repo)
    : option (tree * gmap path node) :=
  fold_right (merge_path H M) (Some (index r, inside r))
    (elements (dom H ∪ dom M)).

Definition would_be_overwritten {A} : result A :=
  git_error
    "error: Your local changes to the following files would be overwritten".

(** Move to the tree [t], carrying over what is staged or changed on
    disk where the two trees agree. *)
Definition switch_tree (t : tree) (r : Repo)
    (k : tree -> Repo -> Repo) : result unit * Repo :=
  match two_way_merge (head_tree r) t r with
  | Some (idx, d) => (Returns tt, k idx (with_disk d (outside r) r))
  | None => (would_be_overwritten, r)
  end.

(** [git clone url path], run in the directory of simple-git.  The
    model follows the repository at [root]; a clone made elsewhere
    leaves only its files. *)
Definition do_clone (url p : string) (r : Repo) : result unit * Repo :=
  let t := default ∅ (origin r !! origin_HEAD r) in
  let target := follow (default (cwd r) (base_dir r)) p in
  let taken :=
    (git_error
       ("fatal: destination path '" +:+ p
        +:+ "' already exists and is not an empty directory."), r) in
  if bool_decide (target = root_path r) then
    if cloned r then taken
    else
      match inside r !! [] with
      | Some (File _) => taken
      | _ =>
          if bool_decide (inside r = ∅)
             || bool_decide (inside r = {[ [] := Dir ]}) then
            (Returns tt,
             {| root := root r; cwd := cwd r;
                inside := <[ [".git"] := Dir ]> (<[ [] := Dir ]> (checked_out t));
                outside :=
                  fold_right (fun q d => <[q := Dir]> d) (outside r)
                    (List.filter (fun q => negb (bool_decide (q = [])))
                       (ancestors (root_path r)));
                cloned := true; base_dir := base_dir r; index := t;
                branches := {[ origin_HEAD r := t ]}; HEAD := origin_HEAD r;
                upstream := {[ origin_HEAD r := origin_HEAD r ]};
                synced := {[ origin_HEAD r := t ]}; fetched := origin r;
                origin := origin r; origin_HEAD := origin_HEAD r;
                commits := commits r; clock := clock r |})
          else taken
      end
  else
    match lookup_node r target with
    | Some _ => taken
    | None =>
        (Returns tt,
         map_fold (fun f data r => put_node (target ++ f) (File data) r)
           (fold_right (fun q r => put_node q Dir r) r
              (List.map (app target)
                 (concat (List.map ancestors (elements (dom t))))
               ++ List.filter (fun q => negb (bool_decide (q = [])))
                    (ancestors target) ++ [target]))
           t)
    end.

(** [git pull]: fetch, then merge the branch that the current branch
    tracks.  There is nothing to merge when the remote branch is where
    it was at the last pull; the merge is a fast-forward when the
    current branch has no commit of its own; otherwise git asks how to
    reconcile the two. *)
Definition do_pull (r : Repo) : result unit * Repo :=
  if negb (in_repository r) then (not_a_repository, r)
  else
    let fetched_ := origin r ∪ fetched r in
    let r1 :=
      with_git (index r) (branches r) (HEAD r) (upstream r) (synced r)
        fetched_ r in
    match upstream r !! HEAD r with
    | None =>
        (git_error "There is no tracking information for the current branch.",
         r1)
    | Some remote_branch =>
        match origin r !! remote_branch with
        | None =>
            (git_error
               ("Your configuration specifies to merge with the ref 'refs/heads/"
                +:+ remote_branch
                +:+ "' from the remote, but no such ref was fetched."), r1)
        | Some t =>
            if bool_decide (synced r !! HEAD r = Some t) then (Returns tt, r1)
            else if bool_decide (branches r !! HEAD r = synced r !! HEAD r) then
              switch_tree t r1
                (fun idx r2 =>
                   with_git idx (<[HEAD r := t]> (branches r)) (HEAD r)
                     (upstream r) (<[HEAD r := t]> (synced r)) fetched_ r2)
            else
              (git_error
                 "fatal: Need to specify how to reconcile divergent branches.",
               r1)
        end
    end.

(** [git config --local key value] *)
Definition do_addConfig (key value : string) (r : Repo) : result unit * Repo :=
  if negb (in_repository r) then (not_a_repository, r) else (Returns tt, r).

(** [git checkout b]: a local branch, or a branch of the remote that was
    fetched, which becomes a local branch that tracks it.  Any other
    name is refused (git would also take a tag, a commit or a path). *)
Definition do_checkout (b : string) (r : Repo) : result unit * Repo :=
  if negb (in_repository r) then (not_a_repository, r)
  else
    match branches r !! b with
    | Some t =>
        switch_tree t r
          (fun idx r2 =>
             with_git idx (branches r) b (upstream r) (synced r) (fetched r) r2)
    | None =>
        match fetched r !! b with
        | Some t =>
            switch_tree t r
              (fun idx r2 =>
                 with_git idx (<[b := t]> (branches r)) b
                   (<[b := b]> (upstream r)) (<[b := t]> (synced r))
                   (fetched r) r2)
        | None =>
            (git_error
               ("error: pathspec '" +:+ b
                +:+ "' did not match any file(s) known to git"), r)
        end
    end.

(** Two refs cannot be a file and a directory at once: [a] cannot be
    made when [a/b] is there, nor [a/b] when [a] is. *)
Definition ref_clash (a b : string) : bool :=
  match drop_prefix (split_path a) (split_path b),
        drop_prefix (split_path b) (split_path a) with
  | None, None => false
  | _, _ => true
  end.

(** [git checkout -b b]: a new branch at the current commit; what is
    staged and on disk stays. *)
Definition do_checkoutLocalBranch (b : string) (r : Repo)
    : result unit * Repo :=
  if negb (in_repository r) then (not_a_repository, r)
  else
    match branches r !! b with
    | Some _ =>
        (git_error ("fatal: a branch named '" +:+ b +:+ "' already exists"), r)
    | None =>
        if existsb (ref_clash b) (elements (dom (branches r))) then
          (git_error
             ("fatal: cannot lock ref 'refs/heads/" +:+ b +:+ "'"), r)
        else
          (Returns tt,
           with_git (index r) (<[b := head_tree r]> (branches r)) b
             (upstream r) (synced r) (fetched r) r)
    end.

(** Follow the segments of a pathspec from the directory git runs in;
    [stack] holds the path so far, the last segment first.  A pathspec
    that leaves the work tree is refused. *)
Fixpoint descend (stack : list string) (segs : list string)
    : option (list string) :=
  match segs with
  | [] => Some stack
  | seg :: rest =>
      if is_dot seg then descend stack rest
      else if is_dotdot seg then
        match stack with
        | [] => None
        | _ :: below => descend below rest
        end
      else descend (seg :: stack) rest
  end.

(** The path from [root] that a pathspec names. *)
Definition pathspec (r : Repo) (prefix : path) (n : string) : option path :=
  match n with
  | EmptyString => None
  | _ =>
      if is_absolute n then drop_prefix (root_path r) (follow [] n)
      else option_map (@rev string) (descend (rev prefix) (split_path n))
  end.

(** A pathspec that ends in a slash, or in a [.] or [..] segment, asks
    for a directory. *)
Definition wants_directory (n : string) : bool :=
  match last (split_path n) with
  | Some seg => is_dot seg || is_dotdot seg
  | None => false
  end.

(** A pathspec covers the file it names, unless it asks for a
    directory, and every file under the directory it names. *)
Definition covered_by (f : path) (spec : path * bool) : bool :=
  match drop_prefix spec.1 f with
  | Some [] => negb spec.2
  | Some _ => true
  | None => false
  end.

Definition covers (ks : list (path * bool)) (f : path) : bool :=
  existsb (covered_by f) ks.

(** A pathspec is refused when it covers no file of the work tree or of
    the staging area and there is nothing at its path, or no directory
    when it asks for one. *)
Definition names_something (r : Repo) (spec : path * bool) : bool :=
  (if spec.2
   then bool_decide (lookup_node r (root_path r ++ spec.1) = Some Dir)
   else bool_decide (is_Some (lookup_node r (root_path r ++ spec.1))))
  || bool_decide (map_Exists (fun f _ => covered_by f spec = true)
                    (worktree r ∪ index r)).

(** The first of [names] whose pathspec is refused. *)
Definition unmatched (r : Repo) (names : list string)
    (ks : list (path * bool)) : string :=
  match List.find (fun nk => negb (names_something r nk.2)) (combine names ks)
  with
  | Some (n, _) => n
  | None => ""
  end.

(** The staging area once everything under [ks] is staged as it is on
    disk. *)
Definition staged (ks : list (path * bool)) (r : Repo) : tree :=
  filter (fun kv => covers ks kv.1 = true) (worktree r)
  ∪ filter (fun kv => covers ks kv.1 = false) (index r).

Definition with_index (index_ : tree) (r : Repo) : Repo :=
  with_git index_ (branches r) (HEAD r) (upstream r) (synced r) (fetched r) r.

Fixpoint pathspecs (r : Repo) (prefix : path) (names : list string)
    : string + list (path * bool) :=
  match names with
  | [] => inr []
  | n :: rest =>
      match pathspec r prefix n with
      | None => inl n
      | Some k =>
          match pathspecs r prefix rest with
          | inl bad => inl bad
          | inr ks => inr ((k, wants_directory n) :: ks)
          end
      end
  end.

(** [git add names...] *)
Definition do_add (names : list string) (r : Repo) : result unit * Repo :=
  match git_prefix r with
  | None => (not_a_repository, r)
  | Some prefix =>
      match pathspecs r prefix names with
      | inl EmptyString =>
          (git_error "fatal: empty string is not a valid pathspec.", r)
      | inl n =>
          (git_error ("fatal: " +:+ n +:+ ": '" +:+ n
                      +:+ "' is outside repository"), r)
      | inr ks =>
          if forallb (names_something r) ks
          then (Returns tt, with_index (staged ks r) r)
          else
            (git_error
               ("fatal: pathspec '" +:+ unmatched r names ks
                +:+ "' did not match any files"), r)
      end
  end.

Definition show_path (f : path) : string := join "/" f.

(** Staged with another content than the commit has. *)
Definition staged_change (r : Repo) (f : path) : bool :=
  match head_tree r !! f, index r !! f with
  | Some a, Some b => negb (String.eqb a b)
  | _, _ => false
  end.

(** On disk with another content than staged. *)
Definition unstaged_change (r : Repo) (f : path) : bool :=
  match index r !! f, worktree r !! f with
  | Some b, Some c => negb (String.eqb b c)
  | _, _ => false
  end.

Definition newly_added (r : Repo) (f : path) : bool :=
  match head_tree r !! f with
  | None => true
  | Some _ => false
  end.

(** The two lists of [git.status()] that the bot reads; renames are not
    looked for. *)
Definition status_of (r : Repo) : StatusResult :=
  let tracked := elements (dom (index r)) in
  {| modified :=
       List.map show_path
         (List.filter (fun f => staged_change r f || unstaged_change r f)
            tracked);
     created := List.map show_path (List.filter (newly_added r) tracked) |}.

Definition do_status (r : Repo) : result StatusResult * Repo :=
  if negb (in_repository r) then (not_a_repository, r)
  else (Returns (status_of r), r).

(** The repository once the staging area is committed. *)
Definition committed (r : Repo) : Repo :=
  {| root := root r; cwd := cwd r; inside := inside r; outside := outside r;
     cloned := cloned r; base_dir := base_dir r; index := index r;
     branches := <[HEAD r := index r]> (branches r); HEAD := HEAD r;
     upstream := upstream r; synced := synced r; fetched := fetched r;
     origin := origin r; origin_HEAD := origin_HEAD r;
     commits := S (commits r); clock := clock r |}.

(** [git commit -m msg]; with nothing staged git makes no commit, and
    simple-git returns a summary without a commit. *)
Definition do_commit (msg : string) (r : Repo) : result string * Repo :=
  if negb (in_repository r) then (not_a_repository, r)
  else if bool_decide (index r = head_tree r) then (Returns "", r)
  else (Returns ("commit-" +:+ show_nat (S (commits r))), committed r).

(** [git push remote b]: the remote takes the branch when it has none
    of that name or has it where this repository last saw it. *)
Definition do_push (remote b : string) (r : Repo) : result unit * Repo :=
  if negb (in_repository r) then (not_a_repository, r)
  else if negb (String.eqb remote "origin") then
    (git_error
       ("fatal: '" +:+ remote +:+ "' does not appear to be a git repository"), r)
  else
    match branches r !! b with
    | None =>
        (git_error
           ("error: src refspec " +:+ b +:+ " does not match any"), r)
    | Some t =>
        if bool_decide (origin r !! b = None)
           || bool_decide (origin r !! b = fetched r !! b)
           || bool_decide (origin r !! b = Some t)
        then
          (Returns tt,
           {| root := root r; cwd := cwd r; inside := inside r;
              outside := outside r; cloned := cloned r;
              base_dir := base_dir r; index := index r;
              branches := branches r; HEAD := HEAD r; upstream := upstream r;
              synced := synced r; fetched := <[b := t]> (fetched r);
              origin := <[b := t]> (origin r);
              origin_HEAD := origin_HEAD r; commits := commits r;
              clock := clock r |})
        else
          (git_error
             ("error: failed to push some refs (the remote contains work that "
              +:+ "you do not have locally)"), r)
    end.

#[export] Instance repo_working_copy : WorkingCopy Repo := {
  simpleGit := do_simpleGit;
  git_clone := do_clone;
  git_pull := do_pull;
  git_addConfig := do_addConfig;
  git_checkout := do_checkout;
  git_checkoutLocalBranch := do_checkoutLocalBranch;
  git_add := do_add;
  git_status := do_status;
  git_commit := do_commit;
  git_push := do_push;
  fs_existsSync p r := (exists_on_disk p r, r);
  fs_mkdirSync := do_mkdirSync;
  fs_writeFileSync := do_writeFileSync;
  Date_now_ms r := (clock r, r) }.

(** ** What a set of changes writes *)

(** The file of the work tree that [writeFileSync] reaches at [p], if
    it reaches one. *)
Definition write_key (r : Repo) (p : string) : option path :=
  match locate r p with
  | inr (Entry q) =>
      match drop_prefix (root_path r) q with
      | Some rel => if under_git rel then None else Some rel
      | None => None
      end
  | _ => None
  end.

(** The files of the work tree that the changes reach, each with what
    is written to it, in the order of the changes. *)
Definition writes_of (r : Repo) (repoPath : string)
    (changes_ : list CodeChange) : list (option path * string) :=
  List.map
    (fun c => (write_key r (path_join repoPath (filename c)), content c))
    changes_.

Definition put_all (writes : list (option path * string)) (t : tree) : tree :=
  fold_left
    (fun t w => match w.1 with Some f => <[f := w.2]> t | None => t end)
    writes t.

(** The content the writes leave in [f], if one of them reaches it. *)
Fixpoint written (f : path) (writes : list (option path * string))
    : option string :=
  match writes with
  | [] => None
  | (k, data) :: rest =>
      match written f rest with
      | Some v => Some v
      | None => if decide (k = Some f) then Some data else None
      end
  end.

(** ** Conditions on a repository and on file names *)



End WorkingCopyModel.

(* ===================================================================== *)
(** * A scripted world                                                    *)
(* ===================================================================== *)

(** A world to run the bot in: the reference working copy, a GitHub
    whose answers are listed beforehand, and a model that replies from a
    list.  It serves to evaluate the pipeline on concrete deliveries. *)
Module Bench.
Import WorkingCopyModel.

Record World := {
  repo : Repo;
  pr_files : result (list GitHubFile);
  file_texts : gmap string string;
  comment_api : list bool;
  posted : list string;
  chat_replies : list (result ChatResponse) }.

Definition http_error (status : string) : thrown :=
  JsError "AxiosError" ("Request failed with status code " +:+ status).

Definition posted_comment (text : string) : GitHubComment :=
  {| comment_id := 1; comment_body := text;
     comment_user_login := "fixer-bot";
     comment_created_at := ""; comment_updated_at := "" |}.

#[export] Instance github : GitHubClient World := {
  api_getPullRequestFiles owner repo_ prNumber w := (pr_files w, w);
  api_getFileContent owner repo_ path ref_ w :=
    (match file_texts w !! path with
     | Some text => Returns text
     | None => Raises (http_error "404")
     end, w);
  api_createComment owner repo_ prNumber text w :=
    match comment_api w with
    | false :: rest =>
        (Raises (http_error "502"),
         {| repo := repo w; pr_files := pr_files w;
            file_texts := file_texts w; comment_api := rest;
            posted := posted w; chat_replies := chat_replies w |})
    | _ =>
        (Returns (posted_comment text),
         {| repo := repo w; pr_files := pr_files w;
            file_texts := file_texts w; comment_api := tl (comment_api w);
            posted := posted w ++ [text]; chat_replies := chat_replies w |})
    end }.

#[export] Instance openai : OpenAIClient World := {
  chat_completions_create req w :=
    match chat_replies w with
    | [] => (Raises (JsError "APIConnectionError" "Connection error."), w)
    | reply :: rest =>
        (reply,
         {| repo := repo w; pr_files := pr_files w;
            file_texts := file_texts w; comment_api := comment_api w;
            posted := posted w; chat_replies := rest |})
    end }.

Definition on_repo {A} (f : Repo -> A * Repo) (w : World) : A * World :=
  let (a, r') := f (repo w) in
  (a, {| repo := r'; pr_files := pr_files w; file_texts := file_texts w;
         comment_api := comment_api w; posted := posted w;
         chat_replies := chat_replies w |}).

#[export] Instance working_copy : WorkingCopy World := {
  simpleGit p := on_repo (do_simpleGit p);
  git_clone url p := on_repo (do_clone url p);
  git_pull := on_repo do_pull;
  git_addConfig k v := on_repo (do_addConfig k v);
  git_checkout b := on_repo (do_checkout b);
  git_checkoutLocalBranch b := on_repo (do_checkoutLocalBranch b);
  git_add files := on_repo (do_add files);
  git_status := on_repo do_status;
  git_commit msg := on_repo (do_commit msg);
  git_push remote b := on_repo (do_push remote b);
  fs_existsSync p := on_repo (fun r => (exists_on_disk p r, r));
  fs_mkdirSync p := on_repo (do_mkdirSync p);
  fs_writeFileSync p data := on_repo (do_writeFileSync p data);
  Date_now_ms := on_repo (fun r => (clock r, r)) }.

Definition settings : Settings := {|
  config := {|
    github_token := "ghp_token"; github_webhookSecret := "secret";
    github_appId := ""; github_privateKey := "";
    openai_apiKey := "sk-key"; openai_model := "gpt-4";
    server_port := 3000;
    server_webhookUrl := "http://localhost:3000/webhook";
    git_userName := "AI Comment Fixer Bot";
    git_userEmail := "bot@example.com"; git_token := "ghp_token";
    repo_owner := "example"; repo_name := "repo" |};
  process_env := fun _ => None |}.

(** A reply that approves one change whose [lineNumber] is a text. *)
Definition reply_json : json :=
  JObject
    [ ("shouldApply", JBool true);
      ("confidence", JNumber (Finite 0.9%Q));
      ("reasoning", JString "Clear spelling fix");
      ("changes",
       JArray
         [ JObject
             [ ("filename", JString "src/api.ts");
               ("content", JString "receive");
               ("description", JString "Fix typo");
               ("lineNumber", JString "fifteen") ] ]) ].

Definition reply_object : string :=
  "{"
  +:+ dquote +:+ "shouldApply" +:+ dquote +:+ ": true, "
  +:+ dquote +:+ "confidence" +:+ dquote +:+ ": 0.9, "
  +:+ dquote +:+ "reasoning" +:+ dquote +:+ ": "
  +:+ dquote +:+ "Clear spelling fix" +:+ dquote +:+ ", "
  +:+ dquote +:+ "changes" +:+ dquote +:+ ": [{"
  +:+ dquote +:+ "filename" +:+ dquote +:+ ": "
  +:+ dquote +:+ "src/api.ts" +:+ dquote +:+ ", "
  +:+ dquote +:+ "content" +:+ dquote +:+ ": "
  +:+ dquote +:+ "receive" +:+ dquote +:+ ", "
  +:+ dquote +:+ "description" +:+ dquote +:+ ": "
  +:+ dquote +:+ "Fix typo" +:+ dquote +:+ ", "
  +:+ dquote +:+ "lineNumber" +:+ dquote +:+ ": "
  +:+ dquote +:+ "fifteen" +:+ dquote +:+ "}]}".

(** The model wraps the object in prose. *)
Definition reply_text : string := "Here is my analysis: " +:+ reply_object.

(** A reply that declines but still lists a change. *)
Definition decline_json : json :=
  JObject
    [ ("shouldApply", JBool false);
      ("confidence", JNumber (Finite 0.4%Q));
      ("reasoning", JString "Subjective naming suggestion");
      ("changes",
       JArray
         [ JObject
             [ ("filename", JString "src/api.ts");
               ("content", JString "renamed");
               ("description", JString "Rename variable") ] ]) ].

Definition decline_text : string :=
  "{" +:+ dquote +:+ "shouldApply" +:+ dquote +:+ ": false, "
  +:+ dquote +:+ "confidence" +:+ dquote +:+ ": 0.4, "
  +:+ dquote +:+ "reasoning" +:+ dquote +:+ ": "
  +:+ dquote +:+ "Subjective naming suggestion" +:+ dquote +:+ ", "
  +:+ dquote +:+ "changes" +:+ dquote +:+ ": [{"
  +:+ dquote +:+ "filename" +:+ dquote +:+ ": "
  +:+ dquote +:+ "src/api.ts" +:+ dquote +:+ ", "
  +:+ dquote +:+ "content" +:+ dquote +:+ ": "
  +:+ dquote +:+ "renamed" +:+ dquote +:+ ", "
  +:+ dquote +:+ "description" +:+ dquote +:+ ": "
  +:+ dquote +:+ "Rename variable" +:+ dquote +:+ "}]}".

(** [JSON.parse] on the two texts above; any other text is refused. *)
Definition parser : JsonParser := {|
  JSON_parse text :=
    if String.eqb text reply_object then Returns reply_json
    else if String.eqb text decline_text then Returns decline_json
    else Raises (JsError "SyntaxError" "Unexpected token in JSON") |}.

Definition chat_reply (text : string) : result ChatResponse :=
  Returns {| choices := [ {| message := Some (Some text) |} ] |}.

Definition main_tree : tree :=
  {[ ["src"; "api.ts"] := "recieve"; ["README.md"] := "docs" ]}.

Definition temp_dir : string := "/srv/bot/temp-repos".

(** A clone of the remote, as [git clone] leaves it, in which
    simple-git was started. *)
Definition clone : Repo := {|
  root := "/srv/bot/temp-repos/example-repo";
  cwd := ["srv"; "bot"];
  inside :=
    {[ [] := Dir; [".git"] := Dir; ["src"] := Dir;
       ["src"; "api.ts"] := File "recieve"; ["README.md"] := File "docs" ]};
  outside :=
    {[ ["srv"] := Dir; ["srv"; "bot"] := Dir;
       ["srv"; "bot"; "temp-repos"] := Dir ]};
  cloned := true;
  base_dir := Some ["srv"; "bot"; "temp-repos"; "example-repo"];
  index := main_tree;
  branches := {[ "main" := main_tree ]};
  HEAD := "main";
  upstream := {[ "main" := "main" ]};
  synced := {[ "main" := main_tree ]};
  fetched := {[ "main" := main_tree ]};
  origin := {[ "main" := main_tree ]};
  origin_HEAD := "main";
  commits := 0;
  clock := 1700000000000 |}.

Definition api_file : GitHubFile := {|
  file_filename := "src/api.ts"; file_status := "modified";
  additions := 1; deletions := 1; file_changes := 2;
  blob_url := ""; raw_url := ""; contents_url := ""; patch := None |}.

Definition readme_file : GitHubFile := {|
  file_filename := "README.md"; file_status := "modified";
  additions := 1; deletions := 0; file_changes := 1;
  blob_url := ""; raw_url := ""; contents_url := ""; patch := None |}.

Definition scripted (replies : list (result ChatResponse))
    (comment_outcomes : list bool) : World := {|
  repo := clone;
  pr_files := Returns [api_file; readme_file];
  file_texts := {[ "src/api.ts" := "recieve" ]};
  comment_api := comment_outcomes;
  posted := [];
  chat_replies := replies |}.


Definition reviewer_comment : GitHubComment := {|
  comment_id := 123456;
  comment_body := "Fix the typo: recieve should be receive";
  comment_user_login := "reviewer123";
  comment_created_at := "2024-01-01T00:00:00Z";
  comment_updated_at := "2024-01-01T00:00:00Z" |}.

Definition pr42 : GitHubPR := {|
  number_ := 42;
  title := "Add user authentication feature";
  body := "This PR adds user authentication with JWT tokens";
  head := {| ref := "feature/auth"; sha := "abc123def456";
             repo_full_name := "example/repo" |};
  base := {| ref := "main"; sha := "base123base456";
             repo_full_name := "example/repo" |};
  state_ := "open";
  mergeable := true |}.

Definition delivery : GitHubWebhookPayload := {|
  action := "created";
  comment := Some reviewer_comment;
  pull_request := Some pr42;
  repository := {| full_name := "example/repo"; name := "repo";
                   owner_login := "example" |};
  sender_login := "reviewer123" |}.

(** The same delivery for a comment that was edited, not created. *)
Definition edited_delivery : GitHubWebhookPayload := {|
  action := "edited";
  comment := Some reviewer_comment;
  pull_request := Some pr42;
  repository := {| full_name := "example/repo"; name := "repo";
                   owner_login := "example" |};
  sender_login := "reviewer123" |}.

(** Settings in which the committer is given another name than the
    usual one, and a delivery whose comment is signed with that name. *)
Definition renamed_settings : Settings := {|
  config := {|
    github_token := "ghp_token"; github_webhookSecret := "secret";
    github_appId := ""; github_privateKey := "";
    openai_apiKey := "sk-key"; openai_model := "gpt-4";
    server_port := 3000;
    server_webhookUrl := "http://localhost:3000/webhook";
    git_userName := "fixer-bot";
    git_userEmail := "bot@example.com"; git_token := "ghp_token";
    repo_owner := "example"; repo_name := "repo" |};
  process_env := fun _ => None |}.

Definition own_comment : GitHubComment := {|
  comment_id := 123457;
  comment_body := "Will not apply";
  comment_user_login := "fixer-bot";
  comment_created_at := "2024-01-01T00:00:00Z";
  comment_updated_at := "2024-01-01T00:00:00Z" |}.

Definition own_delivery : GitHubWebhookPayload := {|
  action := "created";
  comment := Some own_comment;
  pull_request := Some pr42;
  repository := {| full_name := "example/repo"; name := "repo";
                   owner_login := "example" |};
  sender_login := "fixer-bot" |}.

Definition typo_fix : CodeChange := {|
  filename := "src/api.ts"; content := "receive";
  lineNumber := Undefined; description := "Fix typo" |}.


End Bench.

(* ===================================================================== *)
(** * config/index.ts                                                     *)
(* ===================================================================== *)

Module ConfigLoader.

(** [parseInt(text, radix)]: a number, or [None] for NaN. *)
Class Globals := {
  parseInt : string -> Z -> option number }.

(** What [validateConfig] returns.  A field read with
    [process.env.X!] holds whatever the environment has under [X]. *)
Record Loaded := {
  loaded_github_token : option string;
  loaded_github_webhookSecret : option string;
  loaded_github_appId : string;
  loaded_github_privateKey : string;
  loaded_openai_apiKey : option string;
  loaded_openai_model : string;
  loaded_server_port : option number;
  loaded_server_webhookUrl : string;
  loaded_git_userName : option string;
  loaded_git_userEmail : option string;
  loaded_git_token : option string;
  loaded_repo_owner : option string;
  loaded_repo_name : option string }.

Section WithEnvironment.
Context {GL : Globals}.

(** [process.env] once [dotenv.config()] has run. *)
Variable env : string -> option string.

Definition requiredEnvVars : list string :=
  [ "GITHUB_TOKEN"; "GITHUB_WEBHOOK_SECRET"; "OPENAI_API_KEY";
    "GIT_USER_NAME"; "GIT_USER_EMAIL"; "REPO_OWNER"; "REPO_NAME" ].

(** [!process.env[varName]] *)
Definition unset (varName : string) : bool :=
  match env varName with
  | None | Some EmptyString => true
  | Some _ => false
  end.

Definition missingVars : list string := List.filter unset requiredEnvVars.

(** [process.env[varName] || fallback] *)
Definition or_else (varName fallback : string) : string :=
  match env varName with
  | None | Some EmptyString => fallback
  | Some v => v
  end.

Definition validateConfig : result Loaded :=
  match missingVars with
  | _ :: _ =>
      Raises (JsError "Error"
                ("Missing required environment variables: "
                 +:+ join ", " missingVars))
  | [] =>
      Returns
        {| loaded_github_token := env "GITHUB_TOKEN";
           loaded_github_webhookSecret := env "GITHUB_WEBHOOK_SECRET";
           loaded_github_appId := or_else "GITHUB_APP_ID" "";
           loaded_github_privateKey := or_else "GITHUB_PRIVATE_KEY" "";
           loaded_openai_apiKey := env "OPENAI_API_KEY";
           loaded_openai_model := or_else "OPENAI_MODEL" "gpt-4";
           loaded_server_port := parseInt (or_else "PORT" "3000") 10;
           loaded_server_webhookUrl :=
             or_else "WEBHOOK_URL" "http://localhost:3000/webhook";
           loaded_git_userName := env "GIT_USER_NAME";
           loaded_git_userEmail := env "GIT_USER_EMAIL";
           loaded_git_token := env "GITHUB_TOKEN";
           loaded_repo_owner := env "REPO_OWNER";
           loaded_repo_name := env "REPO_NAME" |}
  end.

End WithEnvironment.
End ConfigLoader.

(* ===================================================================== *)
(** * index.ts                                                            *)
(* ===================================================================== *)

Module Server.

(** What the handler reads of a request: two headers, the raw body kept
    by the body parser, and the parsed body. *)
Record Request := {
  x_hub_signature_256 : option string;
  x_github_event : option string;
  rawBody : option string;
  req_body : GitHubWebhookPayload }.

(** [res.status(code).json({ key: text })] *)
Record Response := {
  status_code : Z;
  json_key : string;
  json_text : string }.

Definition invalid_signature : Response :=
  {| status_code := 401; json_key := "error";
     json_text := "Invalid signature" |}.

Definition status_ok : Response :=
  {| status_code := 200; json_key := "status"; json_text := "ok" |}.

Definition internal_server_error : Response :=
  {| status_code := 500; json_key := "error";
     json_text := "Internal server error" |}.

Section WithWorld.
Context {ST : Settings} {JP : JsonParser} {PT : Paths} {W : Type}.
Context {AI : OpenAIClient W} {GH : GitHubClient W} {WC : WorkingCopy W}.

(** The field [tempDir] of [commentProcessor]. *)
Variable tempDir : string.

(** [githubService.verifyWebhookSignature], of whichever [GitHubService]
    is imported. *)
Variable verifyWebhookSignature : string -> string -> result bool.

(** The [switch] on the event header. *)
Definition dispatch (event : option string) (payload : GitHubWebhookPayload)
    : M W unit :=
  match event with
  | Some e =>
      if String.eqb e "pull_request_review_comment"
         || String.eqb e "issue_comment"
      then CommentProcessor.handleCommentEvent tempDir payload
      else ret tt
  | None => ret tt
  end.

(** The handler of [POST /webhook]. *)
Definition post_webhook (req : Request) : M W Response :=
  try_catch
    (match x_hub_signature_256 req, rawBody req with
     | Some (String c rest), Some raw =>
         await valid <- lift (verifyWebhookSignature raw (String c rest));
         if negb valid then ret invalid_signature
         else
           await_ dispatch (x_github_event req) (req_body req);
           ret status_ok
     | _, _ => ret invalid_signature
     end)
    (fun _ => ret internal_server_error).

(** The signature header is there and not empty, the raw body is there,
    and the verifier says [outcome]. *)
Definition checked (req : Request) (outcome : result bool) : Prop :=
  exists signature raw,
    x_hub_signature_256 req = Some signature /\ signature <> "" /\
    rawBody req = Some raw /\
    verifyWebhookSignature raw signature = outcome.

End WithWorld.
End Server.

(* ===================================================================== *)
(** * More observations on a log                                          *)
(* ===================================================================== *)

Definition write_of (c : call) : option (string * string) :=
  match c with
  | Fs_writeFileSync p data => Some (p, data)
  | _ => None
  end.

(** The files the bot tried to write, in order, with their content. *)
Definition attempted_writes (l : list event) : list (string * string) :=
  omap (fun e => write_of (ev_call e)) l.

Definition is_clone_call (c : call) : bool :=
  match c with
  | Git_clone _ _ => true
  | _ => false
  end.

(** The text has no opening brace. *)
Fixpoint no_open_brace (s : string) : bool :=
  match s with
  | EmptyString => true
  | String c r => negb (Ascii.eqb c "{") && no_open_brace r
  end.

(** The text has no closing brace. *)
Fixpoint no_close_brace (s : string) : bool :=
  match s with
  | EmptyString => true
  | String c r => negb (Ascii.eqb c "}") && no_close_brace r
  end.

(** Every character is a hexadecimal digit, and there are as many as
    make whole bytes. *)
Fixpoint hex_pairs (s : string) : bool :=
  match s with
  | EmptyString => true
  | String a (String b r) =>
      match Buffer.hex_digit a, Buffer.hex_digit b with
      | Some _, Some _ => hex_pairs r
      | _, _ => false
      end
  | String _ EmptyString => false
  end.

(** A digest function to run the verifiers with: sixty-four hexadecimal
    digits that depend on the key and the data only through their
    lengths. *)
Module Sample.

Definition pad (n : nat) (s : string) : string :=
  String.concat "" (List.repeat s n).

Definition digest (key data : string) : string :=
  pad 16 (if Nat.even (String.length key + String.length data)
          then "5e1f" else "a0c3").

Definition crypto : Crypto := {| hmac_sha256_hex := digest |}.

(** A delivery of the scripted comment with its headers. *)
Definition request (signature event : option string) : Server.Request := {|
  Server.x_hub_signature_256 := signature;
  Server.x_github_event := event;
  Server.rawBody := Some "{}";
  Server.req_body := Bench.delivery |}.

(** [parseInt] on a text made of decimal digits. *)
Definition globals : ConfigLoader.Globals := {|
  ConfigLoader.parseInt text radix :=
    match NilEmpty.uint_of_string text with
    | Some Decimal.Nil | None => None
    | Some digits => Some (Finite (inject_Z (Z.of_uint digits)))
    end |}.

Definition environment (vars : list (string * string)) (varName : string)
    : option string :=
  (list_to_map vars : gmap string string) !! varName.

Definition complete : list (string * string) :=
  [ ("GITHUB_TOKEN", "ghp_token"); ("GITHUB_WEBHOOK_SECRET", "secret");
    ("OPENAI_API_KEY", "sk-key"); ("GIT_USER_NAME", "fixer-bot");
    ("GIT_USER_EMAIL", "bot@example.com"); ("REPO_OWNER", "example");
    ("REPO_NAME", "repo"); ("PORT", "8080") ].

(** No token, and an OpenAI key that is set to the empty text. *)
Definition incomplete : list (string * string) :=
  [ ("GITHUB_WEBHOOK_SECRET", "secret"); ("OPENAI_API_KEY", "");
    ("GIT_USER_NAME", "fixer-bot");
    ("GIT_USER_EMAIL", "bot@example.com"); ("REPO_OWNER", "example");
    ("REPO_NAME", "repo") ].

Definition settings_of (vars : list (string * string)) : Settings := {|
  config := config (Settings := Bench.settings);
  process_env := environment vars |}.
(** A [changes] array whose second element has a number for a name. *)
Definition changes_array : list json :=
  [ JObject [ ("filename", JString "src/api.ts");
              ("content", JString "receive");
              ("description", JString "Fix typo") ];
    JObject [ ("filename", JNumber (Finite 7));
              ("content", JString "docs");
              ("description", JString "Update docs") ] ].

(** A reply without a choice. *)
Definition empty_reply : result ChatResponse := Returns {| choices := [] |}.

(** A verdict that approves the typo fix. *)
Definition approval : AIAnalysisResult := {|
  shouldApply := true; changes := [Bench.typo_fix];
  reasoning := "Clear spelling fix"; confidence := Finite 0.9%Q |}.

Definition signature_of (payload : string) : string :=
  "sha256=" +:+ digest GitHubService.fallback_secret payload.
End Sample.

(* ===================================================================== *)
(** * Reasoning about asynchronous code                                   *)
(* ===================================================================== *)

Module MonadFacts.
Section WithWorld.
Context {W : Type}.

Lemma bind_returns {A B} (m : M W A) (k : A -> M W B) s b s' :
  bind m k s = (Returns b, s') ->
  exists a s1, m s = (Returns a, s1) /\ k a s1 = (Returns b, s').
Proof.
  unfold bind. destruct (m s) as [[a | e] s1]; [eauto | discriminate].
Qed.


Lemma bind_step {A B} (m : M W A) (k : A -> M W B) s a s1 :
  m s = (Returns a, s1) -> bind m k s = k a s1.
Proof. unfold bind. now intros ->. Qed.


Lemma perform_returns {A} (c : call) (f : W -> result A * W) s a s' :
  perform c f s = (Returns a, s') ->
  exists w', f (world s) = (Returns a, w') /\
             s' = State w' (log s ++ [Event c true]).
Proof.
  unfold perform. destruct (f (world s)) as [[a0 | e] w'];
    intros [= <- <-]; eauto.
Qed.

Lemma perform_raises {A} (c : call) (f : W -> result A * W) s e s' :
  perform c f s = (Raises e, s') ->
  exists w', f (world s) = (Raises e, w') /\
             s' = State w' (log s ++ [Event c false]).
Proof.
  unfold perform. destruct (f (world s)) as [[a0 | e0] w'];
    intros [= <- <-]; eauto.
Qed.



Lemma observe_eq {A} (c : call) (f : W -> A * W) s :
  observe c f s =
    (Returns (fst (f (world s))),
     State (snd (f (world s))) (log s ++ [Event c true])).
Proof. unfold observe, perform. now destruct (f (world s)). Qed.

Lemma try_catch_cases {A} (m : M W A) (h : thrown -> M W A) s r s' :
  try_catch m h s = (r, s') ->
  (exists a, m s = (Returns a, s') /\ r = Returns a) \/
  (exists e s1, m s = (Raises e, s1) /\ h e s1 = (r, s')).
Proof.
  unfold try_catch. destruct (m s) as [[a | e] s1].
  - intros [= <- <-]. left. eauto.
  - intros H. right. eauto.
Qed.

Lemma try_catch_ok {A} (m : M W A) (h : thrown -> M W A) s a s1 :
  m s = (Returns a, s1) -> try_catch m h s = (Returns a, s1).
Proof. unfold try_catch. now intros ->. Qed.

Lemma try_catch_ko {A} (m : M W A) (h : thrown -> M W A) s e s1 :
  m s = (Raises e, s1) -> try_catch m h s = h e s1.
Proof. unfold try_catch. now intros ->. Qed.

(** [catch (error) { throw error }] changes nothing. *)
Lemma try_rethrow {A} (m : M W A) s :
  try_catch m (fun e => throw e) s = m s.
Proof. unfold try_catch, throw. now destruct (m s) as [[a | e] s1]. Qed.

(** ** What a computation adds to the log *)

(** [m] only appends to the log, and what it appends satisfies [P]
    together with the result. *)
Definition emits {A} (m : M W A) (P : result A -> list event -> Prop) : Prop :=
  forall s r s', m s = (r, s') -> exists evs, log s' = log s ++ evs /\ P r evs.

Lemma emits_weaken {A} (m : M W A) (P Q : result A -> list event -> Prop) :
  emits m P -> (forall r evs, P r evs -> Q r evs) -> emits m Q.
Proof.
  intros Hm HPQ s r s' Hrun.
  destruct (Hm s r s' Hrun) as (evs & Hlog & HP). eauto.
Qed.

Lemma emits_ret {A} (a : A) (P : result A -> list event -> Prop) :
  P (Returns a) [] -> emits (ret a) P.
Proof.
  intros HP s r s' [= <- <-]. exists []. now rewrite app_nil_r.
Qed.

Lemma emits_throw {A} (e : thrown) (P : result A -> list event -> Prop) :
  P (Raises e) [] -> emits (throw e) P.
Proof.
  intros HP s r s' [= <- <-]. exists []. now rewrite app_nil_r.
Qed.

Lemma emits_perform {A} (c : call) (f : W -> result A * W)
    (P : result A -> list event -> Prop) :
  (forall r, P r [Event c (is_ok r)]) -> emits (perform c f) P.
Proof.
  intros HP s r s'. unfold perform.
  destruct (f (world s)) as [r0 w']. intros [= <- <-]. simpl. eauto.
Qed.

Lemma emits_observe {A} (c : call) (f : W -> A * W)
    (P : result A -> list event -> Prop) :
  (forall a, P (Returns a) [Event c true]) -> emits (observe c f) P.
Proof.
  intros HP s r s'. rewrite observe_eq. intros [= <- <-]. simpl. eauto.
Qed.

Lemma emits_bind {A B} (m : M W A) (k : A -> M W B)
    (P : result A -> list event -> Prop)
    (Q : A -> result B -> list event -> Prop)
    (R : result B -> list event -> Prop) :
  emits m P ->
  (forall a, emits (k a) (Q a)) ->
  (forall e evs, P (Raises e) evs -> R (Raises e) evs) ->
  (forall a r e1 e2, P (Returns a) e1 -> Q a r e2 -> R r (e1 ++ e2)) ->
  emits (bind m k) R.
Proof.
  intros Hm Hk Hfail Hseq s r s'. unfold bind.
  destruct (m s) as [[a | e] s1] eqn:E.
  - intros Hrun.
    destruct (Hm _ _ _ E) as (e1 & L1 & HP).
    destruct (Hk a _ _ _ Hrun) as (e2 & L2 & HQ).
    exists (e1 ++ e2). rewrite L2, L1, app_assoc. eauto.
  - intros [= <- <-].
    destruct (Hm _ _ _ E) as (e1 & L1 & HP). eauto.
Qed.

Lemma emits_try_catch {A} (m : M W A) (h : thrown -> M W A)
    (P : result A -> list event -> Prop)
    (Q : thrown -> result A -> list event -> Prop)
    (R : result A -> list event -> Prop) :
  emits m P ->
  (forall e, emits (h e) (Q e)) ->
  (forall a evs, P (Returns a) evs -> R (Returns a) evs) ->
  (forall e r e1 e2, P (Raises e) e1 -> Q e r e2 -> R r (e1 ++ e2)) ->
  emits (try_catch m h) R.
Proof.
  intros Hm Hh Hok Hseq s r s'. unfold try_catch.
  destruct (m s) as [[a | e] s1] eqn:E.
  - intros [= <- <-].
    destruct (Hm _ _ _ E) as (e1 & L1 & HP). eauto.
  - intros Hrun.
    destruct (Hm _ _ _ E) as (e1 & L1 & HP).
    destruct (Hh e _ _ _ Hrun) as (e2 & L2 & HQ).
    exists (e1 ++ e2). rewrite L2, L1, app_assoc. eauto.
Qed.

End WithWorld.
End MonadFacts.

(* ===================================================================== *)
(** * Facts about rendered text                                           *)
(* ===================================================================== *)

Module TextFacts.








Lemma append_cons (x : ascii) (a b : string) :
  String x a +:+ b = String x (a +:+ b).
Proof. reflexivity. Qed.

Lemma append_assoc (a b c : string) : (a +:+ b) +:+ c = a +:+ (b +:+ c).
Proof.
  induction a as [| x a IH]; [reflexivity |].
  now rewrite !append_cons, IH.
Qed.

Lemma append_nil_r (a : string) : a +:+ "" = a.
Proof.
  induction a as [| x a IH]; [reflexivity |].
  now rewrite append_cons, IH.
Qed.

Lemma contains_refl (a : string) : contains a a.
Proof. exists "", "". simpl. now rewrite append_nil_r. Qed.

Lemma contains_app_l (n a b : string) : contains n a -> contains n (a +:+ b).
Proof.
  intros (x & y & ->). exists x, (y +:+ b).
  now rewrite !append_assoc.
Qed.

Lemma contains_app_r (n a b : string) : contains n b -> contains n (a +:+ b).
Proof.
  intros (x & y & ->). exists (a +:+ x), y.
  now rewrite !append_assoc.
Qed.

Lemma contains_join (sep x : string) (xs : list string) :
  In x xs -> contains x (join sep xs).
Proof.
  unfold join. induction xs as [| y ys IH]; [easy |].
  intros [-> | Hin].
  - destruct ys as [| z ys]; simpl.
    + apply contains_refl.
    + apply contains_app_l, contains_refl.
  - destruct ys as [| z ys]; [easy |].
    change (String.concat sep (y :: z :: ys))
      with (y +:+ sep +:+ String.concat sep (z :: ys)).
    apply contains_app_r, contains_app_r, IH, Hin.
Qed.

End TextFacts.

(* ===================================================================== *)
(** * Properties of the Fix-Decision Engine                               *)
(* ===================================================================== *)

Ltac case_result :=
  match goal with
  | H : context [match ?x with _ => _ end] |- _ =>
      let E := fresh "E" in destruct x eqn:E; simpl in H; try discriminate H
  end.

Module OpenAIFacts.
Import OpenAIService.
Section WithWorld.
Context {ST : Settings} {JP : JsonParser} {W : Type} {AI : OpenAIClient W}.

Lemma bound_check_sound (c : number) :
  num_ltb c num_zero || num_ltb num_one c = false ->
  num_leb num_zero c && num_leb c num_one = true.
Proof.
  intros H. apply orb_false_iff in H as [H0 H1].
  destruct c as [q | |]; simpl in *; try discriminate.
  unfold Qltb in *. apply negb_false_iff in H0, H1.
  now rewrite H0, H1.
Qed.

Lemma safe_default_in_bounds (why : string) :
  confidence_in_bounds (safe_default why) = true.
Proof. reflexivity. Qed.

(** A reply that gets through the [try] block had every checked field of
    the right type, and its confidence passed the bound check. *)
Lemma parseAIResponse_try_accepts (response : string) (a : AIAnalysisResult) :
  parseAIResponse_try response = Returns a ->
  exists jsonMatch parsed items,
    match_braces response = Some jsonMatch /\
    JSON_parse jsonMatch = Returns parsed /\
    get_prop parsed "shouldApply" = Returns (Value (JBool (shouldApply a))) /\
    get_prop parsed "confidence" = Returns (Value (JNumber (confidence a))) /\
    num_ltb (confidence a) num_zero || num_ltb num_one (confidence a) = false /\
    get_prop parsed "reasoning" = Returns (Value (JString (reasoning a))) /\
    get_prop parsed "changes" = Returns (Value (JArray items)) /\
    validate_changes 0 items = Returns (changes a).
Proof.
  unfold parseAIResponse_try, rbind. intros H.
  repeat case_result.
  injection H as <-. simpl.
  eexists _, _, _. repeat split; eauto.
Qed.

Lemma parseAIResponse_try_in_bounds (response : string) (a : AIAnalysisResult) :
  parseAIResponse_try response = Returns a -> confidence_in_bounds a = true.
Proof.
  intros H. apply parseAIResponse_try_accepts in H
    as (? & ? & ? & _ & _ & _ & _ & Hb & _).
  now apply bound_check_sound.
Qed.

Lemma parseAIResponse_in_bounds (response : string) :
  confidence_in_bounds (parseAIResponse response) = true.
Proof.
  unfold parseAIResponse.
  destruct (parseAIResponse_try response) eqn:E.
  - now apply parseAIResponse_try_in_bounds with response.
  - reflexivity.
Qed.

(** Whatever the [try] block throws becomes the safe default. *)
Lemma parseAIResponse_rejects (response : string) (e : thrown) :
  parseAIResponse_try response = Raises e ->
  parseAIResponse response =
    safe_default ("Failed to parse AI response: " +:+ error_message e).
Proof. unfold parseAIResponse. now intros ->. Qed.

(** [analyzeComment] performs exactly one call and always returns. *)
Lemma analyzeComment_returns (comment_ : GitHubComment) (pr : GitHubPR)
    (files : list GitHubFile) (fileContents : gmap string string)
    (s : state W) :
  exists a s' ok,
    analyzeComment comment_ pr files fileContents s = (Returns a, s') /\
    log s' = log s ++
      [Event (OpenAI_chat
                (analysis_request buildSystemPrompt
                   (buildUserPrompt comment_ pr files fileContents))) ok] /\
    confidence_in_bounds a = true.
Proof.
  unfold analyzeComment, try_catch, bind, perform.
  destruct (chat_completions_create _ (world s)) as [[response | e] w'] eqn:E.
  - destruct (first_content response) as [[| c text] |] eqn:F; simpl;
      eexists _, _, _; (split; [reflexivity | split; [reflexivity |]]);
      try reflexivity.
    apply parseAIResponse_in_bounds.
  - simpl. eexists _, _, _. split; [reflexivity | split; reflexivity].
Qed.

(** A transport or API failure becomes the safe default. *)
Lemma analyzeComment_api_failure (comment_ : GitHubComment) (pr : GitHubPR)
    (files : list GitHubFile) (fileContents : gmap string string)
    (s : state W) (e : thrown) (w' : W) :
  chat_completions_create
    (analysis_request buildSystemPrompt
       (buildUserPrompt comment_ pr files fileContents)) (world s)
    = (Raises e, w') ->
  fst (analyzeComment comment_ pr files fileContents s) =
    Returns (safe_default ("Error analyzing comment: " +:+ error_message e)).
Proof.
  intros H. unfold analyzeComment, try_catch, bind, perform.
  now rewrite H.
Qed.

(** A reply with text goes to [parseAIResponse]. *)
Lemma analyzeComment_reply (comment_ : GitHubComment) (pr : GitHubPR)
    (files : list GitHubFile) (fileContents : gmap string string)
    (s : state W) (response : ChatResponse) (w' : W) (text : string) :
  chat_completions_create
    (analysis_request buildSystemPrompt
       (buildUserPrompt comment_ pr files fileContents)) (world s)
    = (Returns response, w') ->
  first_content response = Some text ->
  text <> "" ->
  fst (analyzeComment comment_ pr files fileContents s) =
    Returns (parseAIResponse text).
Proof.
  intros Hchat Hfirst Hne.
  unfold analyzeComment, try_catch, bind, perform.
  rewrite Hchat, Hfirst. now destruct text.
Qed.



(** C1, at a reply that breaks it.  The reply approves one change whose
    [lineNumber] is a text where a number is declared.  The fields
    [filename], [content] and [description] of a change are checked,
    [lineNumber] is copied unchecked, so the reply is accepted and the
    verdict carries an ill-typed change instead of being the default. *)
Theorem lineNumber_of_wrong_type_is_accepted
    (comment_ : GitHubComment) (pr : GitHubPR)
    (files : list GitHubFile) (fileContents : gmap string string)
    (s : state W) (w' : W) :
  chat_completions_create
    (analysis_request buildSystemPrompt
       (buildUserPrompt comment_ pr files fileContents)) (world s)
    = (Bench.chat_reply Bench.reply_text, w') ->
  JSON_parse Bench.reply_object = Returns Bench.reply_json ->
  exists a,
    fst (analyzeComment comment_ pr files fileContents s) = Returns a /\
    shouldApply a = true /\
    changes a =
      [ {| filename := "src/api.ts"; content := "receive";
           lineNumber := Value (JString "fifteen");
           description := "Fix typo" |} ] /\
    forallb well_typed_change (changes a) = false.
Proof.
  intros Hchat Hparse.
  assert (Hm : match_braces Bench.reply_text = Some Bench.reply_object)
    by (vm_compute; reflexivity).
  rewrite (analyzeComment_reply _ _ _ _ _ _ _ Bench.reply_text Hchat)
    by (reflexivity || (vm_compute; discriminate)).
  unfold parseAIResponse, parseAIResponse_try.
  rewrite Hm, Hparse. simpl.
  eexists. split; [reflexivity |]. simpl. auto.
Qed.

End WithWorld.
End OpenAIFacts.

(* ===================================================================== *)
(** * Properties of the Signature Verifier                                *)
(* ===================================================================== *)

Module GitHubFacts.
Section WithRuntime.
Context {ST : Settings} {CR : Crypto}.

(** The verifier that compares inside [try] always returns a boolean. *)
Lemma guarded_verifier_returns (payload signature : string) :
  exists b : bool,
    GitHubService.verifyWebhookSignature payload signature = Returns b.
Proof.
  unfold GitHubService.verifyWebhookSignature.
  destruct (Buffer.timingSafeEqual _ _); eauto.
Qed.

(** With digests of different lengths it returns [false]. *)
Lemma guarded_verifier_length_mismatch (payload signature : string) :
  let signatureHex :=
    if startsWith signature "sha256=" then slice_from 7 signature
    else signature in
  List.length (Buffer.from_hex signatureHex) <>
    List.length
      (Buffer.from_hex
         (hmac_sha256_hex GitHubService.webhook_secret payload)) ->
  GitHubService.verifyWebhookSignature payload signature = Returns false.
Proof.
  intros signatureHex Hlen.
  unfold GitHubService.verifyWebhookSignature, Buffer.timingSafeEqual.
  fold signatureHex.
  destruct (Nat.eqb_spec (List.length (Buffer.from_hex signatureHex))
              (List.length
                 (Buffer.from_hex
                    (hmac_sha256_hex GitHubService.webhook_secret payload))));
    [contradiction | reflexivity].
Qed.

(** C2, at an input that breaks it.  The verifier that compares the
    texts outside any [try] is handed a signature shorter than the
    algorithm prefix: [crypto.timingSafeEqual] throws a RangeError and
    the verifier throws with it instead of returning [false]. *)
Theorem unguarded_verifier_raises_on_short_signature (payload : string) :
  GitHubServiceText.verifyWebhookSignature payload "bogus" =
    Raises (JsError "RangeError"
              "Input buffers must have the same byte length").
Proof.
  unfold GitHubServiceText.verifyWebhookSignature, Buffer.timingSafeEqual,
    Buffer.from_utf8.
  rewrite !TextFacts.append_cons. reflexivity.
Qed.

End WithRuntime.
End GitHubFacts.

(* ===================================================================== *)
(** * Properties of the Working-Copy Manager                              *)
(* ===================================================================== *)

Module GitFacts.
Import GitService WorkingCopyModel MonadFacts.

Section AnyWorld.
Context {ST : Settings} {PT : Paths} {W : Type} {WC : WorkingCopy W}.

Lemma ends_in_failure_app (e : thrown) (G1 G2 : list event) :
  ends_in_failure e G2 -> ends_in_failure e (G1 ++ G2).
Proof.
  intros (G' & ev & -> & H). exists (G1 ++ G'), ev.
  now rewrite app_assoc.
Qed.

Lemma git_outcome_perform {A} (c : call) (f : W -> result A * W) :
  is_working_copy_call c = true -> emits (perform c f) git_outcome.
Proof.
  intros Hc. apply emits_perform. intros r. split.
  - constructor; [exact Hc | constructor].
  - destruct r as [a | e]; [exact I |].
    exists [], (Event c false). simpl. auto.
Qed.

Lemma git_outcome_observe {A} (c : call) (f : W -> A * W) :
  is_working_copy_call c = true -> emits (observe c f) git_outcome.
Proof. intros Hc. now apply git_outcome_perform. Qed.

Lemma git_outcome_ret {A} (a : A) : emits (ret (W := W) a) git_outcome.
Proof. apply emits_ret. split; [constructor | exact I]. Qed.

Lemma git_outcome_bind {A B} (m : M W A) (k : A -> M W B) :
  emits m git_outcome -> (forall a, emits (k a) git_outcome) ->
  emits (bind m k) git_outcome.
Proof.
  intros Hm Hk.
  apply (emits_bind m k git_outcome (fun _ => git_outcome)); auto.
  intros a r e1 e2 [W1 _] [W2 H2]. split.
  - apply Forall_app. now split.
  - destruct r as [b | e]; [exact I | now apply ends_in_failure_app].
Qed.

Lemma git_outcome_try_catch {A} (m : M W A) (h : thrown -> M W A) :
  emits m git_outcome -> (forall e, emits (h e) git_outcome) ->
  emits (try_catch m h) git_outcome.
Proof.
  intros Hm Hh.
  apply (emits_try_catch m h git_outcome (fun _ => git_outcome)); auto.
  intros e r e1 e2 [W1 _] [W2 H2]. split.
  - apply Forall_app. now split.
  - destruct r as [b | e']; [exact I | now apply ends_in_failure_app].
Qed.

Lemma git_outcome_for_each {A} (xs : list A) (f : A -> M W unit) :
  (forall x, emits (f x) git_outcome) -> emits (for_each xs f) git_outcome.
Proof.
  intros Hf. induction xs as [| x xs IH]; simpl.
  - apply git_outcome_ret.
  - apply git_outcome_bind; auto.
Qed.

Lemma new_GitService_outcome (repoPath : string) :
  emits (new_GitService repoPath) git_outcome.
Proof. now apply git_outcome_perform. Qed.

Lemma setupRepository_outcome (repoPath owner repo branch : string) :
  emits (setupRepository repoPath owner repo branch) git_outcome.
Proof.
  unfold setupRepository.
  apply git_outcome_bind; [now apply git_outcome_observe |]. intros present.
  apply git_outcome_bind.
  { destruct (negb present); now apply git_outcome_perform. }
  intros _. apply git_outcome_bind; [now apply git_outcome_perform |].
  intros _. apply git_outcome_bind; [now apply git_outcome_perform |].
  intros _. apply git_outcome_try_catch; [now apply git_outcome_perform |].
  intros _. now apply git_outcome_perform.
Qed.

Lemma createFixBranch_outcome (baseBranch : string) (prNumber : Z) :
  emits (createFixBranch baseBranch prNumber) git_outcome.
Proof.
  unfold createFixBranch.
  apply git_outcome_bind; [now apply git_outcome_observe |]. intros now.
  apply git_outcome_bind; [now apply git_outcome_perform |]. intros _.
  apply git_outcome_bind; [now apply git_outcome_perform |]. intros _.
  apply git_outcome_bind; [now apply git_outcome_perform |]. intros _.
  apply git_outcome_ret.
Qed.

Lemma applyChanges_outcome (repoPath : string) (changes_ : list CodeChange) :
  emits (applyChanges repoPath changes_) git_outcome.
Proof.
  unfold applyChanges. apply git_outcome_for_each. intros change.
  unfold applyChange.
  apply git_outcome_bind; [now apply git_outcome_observe |]. intros present.
  apply git_outcome_bind.
  { destruct (negb present);
      [now apply git_outcome_perform | apply git_outcome_ret]. }
  intros _. now apply git_outcome_perform.
Qed.

(** The four ways [commitChanges] can go. *)
Lemma commitChanges_events (prNumber commentId : Z)
    (changes_ : list CodeChange) :
  emits (commitChanges prNumber commentId changes_)
    (fun r G =>
       let add := Git_add (List.map filename changes_) in
       (exists e, r = Raises e /\ G = [Event add false]) \/
       (exists e, r = Raises e /\
                  G = [Event add true; Event Git_status false]) \/
       (r = Raises no_changes_error /\
        G = [Event add true; Event Git_status true]) \/
       (G = [Event add true; Event Git_status true;
             Event (Git_commit (commit_message prNumber commentId changes_))
                   (is_ok r)])).
Proof.
  intros s r s'. unfold commitChanges, bind, perform, throw.
  destruct (git_add _ (world s)) as [[[] | e] w1]; simpl.
  - destruct (git_status w1) as [[st | e] w2]; simpl.
    + destruct (modified st), (created st); simpl;
        try (intros [= <- <-]; eexists; split;
               [rewrite <- app_assoc; reflexivity | simpl; eauto 7]);
        destruct (git_commit _ w2) as [r0 w3]; intros [= <- <-]; simpl;
        (eexists; split; [rewrite <- !app_assoc; reflexivity | simpl; eauto 7]).
    + intros [= <- <-]. simpl.
      eexists. split; [rewrite <- app_assoc; reflexivity | simpl; eauto 7].
  - intros [= <- <-]. simpl. eexists. split; [reflexivity | eauto 7].
Qed.

Lemma commitChanges_outcome (prNumber commentId : Z)
    (changes_ : list CodeChange) :
  emits (commitChanges prNumber commentId changes_) git_outcome.
Proof.
  eapply emits_weaken; [apply commitChanges_events |].
  intros r G [(e & -> & ->) | [(e & -> & ->) | [(-> & ->) | ->]]]; split;
    try (repeat constructor).
  - exists [], (Event (Git_add (List.map filename changes_)) false). auto.
  - exists [Event (Git_add (List.map filename changes_)) true],
      (Event Git_status false). auto.
  - exists [Event (Git_add (List.map filename changes_)) true],
      (Event Git_status true). auto.
  - destruct r as [sha | e]; [exact I |].
    exists [Event (Git_add (List.map filename changes_)) true;
            Event Git_status true],
      (Event (Git_commit (commit_message prNumber commentId changes_)) false).
    auto.
Qed.

Lemma pushChanges_outcome (branchName : string) :
  emits (pushChanges branchName) git_outcome.
Proof. now apply git_outcome_perform. Qed.

Lemma createFixBranch_events (baseBranch : string) (prNumber : Z)
    (s s' : state W) (b : string) :
  createFixBranch baseBranch prNumber s = (Returns b, s') ->
  log s' = log s ++ [Event Date_now true; Event (Git_checkout baseBranch) true;
                     Event Git_pull true;
                     Event (Git_checkoutLocalBranch b) true].
Proof.
  unfold createFixBranch. intros Hrun.
  rewrite (bind_step _ _ _ _ _ (observe_eq _ _ _)) in Hrun.
  apply bind_returns in Hrun as ([] & s1 & Hco & Hrun).
  apply bind_returns in Hrun as ([] & s2 & Hpull & Hrun).
  apply bind_returns in Hrun as ([] & s3 & Hnew & Hret).
  injection Hret as <- <-.
  apply perform_returns in Hco as (w1 & _ & ->).
  apply perform_returns in Hpull as (w2 & _ & ->).
  apply perform_returns in Hnew as (w3 & _ & ->).
  simpl. now rewrite <- !app_assoc.
Qed.

Lemma applyChanges_events (repoPath : string) (changes_ : list CodeChange)
    (s s' : state W) :
  applyChanges repoPath changes_ s = (Returns tt, s') ->
  exists G,
    log s' = log s ++ G /\
    Forall (fun c =>
              In (Event (Fs_writeFileSync (path_join repoPath (filename c))
                                          (content c)) true) G) changes_.
Proof.
  unfold applyChanges. revert s.
  induction changes_ as [| c cs IH]; simpl; intros s Hrun.
  - injection Hrun as <-. exists []. now rewrite app_nil_r.
  - apply bind_returns in Hrun as ([] & s1 & Hc & Hrest).
    destruct (IH _ Hrest) as (G2 & L2 & HF).
    unfold applyChange in Hc.
    rewrite (bind_step _ _ _ _ _ (observe_eq _ _ _)) in Hc.
    apply bind_returns in Hc as ([] & s0 & Hmk & Hwr).
    apply perform_returns in Hwr as (w1 & _ & ->). simpl in L2.
    assert (Hs0 : exists G0, log s0 = log s ++ G0).
    { destruct (negb _).
      - apply perform_returns in Hmk as (w0 & _ & ->). simpl.
        rewrite <- app_assoc. eauto.
      - injection Hmk as <-. simpl. eauto. }
    destruct Hs0 as (G0 & L0).
    eexists. split.
    + rewrite L2, L0, <- !app_assoc. reflexivity.
    + constructor.
      * apply in_or_app. right. apply in_or_app. left. now left.
      * eapply Forall_impl; [exact HF |]. intros c' Hin.
        apply in_or_app. right. apply in_or_app. now right.
Qed.

Lemma commitChanges_returns_events (prNumber commentId : Z)
    (changes_ : list CodeChange) (s s' : state W) (commitSha : string) :
  commitChanges prNumber commentId changes_ s = (Returns commitSha, s') ->
  log s' = log s ++
    [Event (Git_add (List.map filename changes_)) true;
     Event Git_status true;
     Event (Git_commit (commit_message prNumber commentId changes_)) true].
Proof.
  intros Hrun.
  destruct (commitChanges_events _ _ _ _ _ _ Hrun)
    as (G & -> & [(e & [=] & _) | [(e & [=] & _) | [([=] & _) | ->]]]).
  reflexivity.
Qed.

Lemma git_sequence_outcome (tempDir : string) (comment_ : GitHubComment)
    (pr : GitHubPR) (repository_ : Repository) (analysis : AIAnalysisResult) :
  emits (Phases.git_sequence tempDir comment_ pr repository_ analysis)
    git_outcome.
Proof.
  unfold Phases.git_sequence.
  apply git_outcome_bind; [apply new_GitService_outcome |]. intros _.
  apply git_outcome_bind; [apply setupRepository_outcome |]. intros _.
  apply git_outcome_bind; [apply createFixBranch_outcome |]. intros b.
  apply git_outcome_bind; [apply applyChanges_outcome |]. intros _.
  apply git_outcome_bind; [apply commitChanges_outcome |]. intros _.
  apply git_outcome_bind; [apply pushChanges_outcome |]. intros _.
  apply git_outcome_ret.
Qed.

(** When the sequence returns, every step of it has been carried out. *)
Lemma git_sequence_completed (tempDir : string) (comment_ : GitHubComment)
    (pr : GitHubPR) (repository_ : Repository) (analysis : AIAnalysisResult)
    (s s' : state W) (b : string) :
  Phases.git_sequence tempDir comment_ pr repository_ analysis s
    = (Returns b, s') ->
  exists G,
    log s' = log s ++ G /\
    completed_git_sequence
      (path_join tempDir
         (owner_login repository_ +:+ "-" +:+ name repository_))
      b (number_ pr) (comment_id comment_) (changes analysis) G.
Proof.
  unfold Phases.git_sequence. intros Hrun.
  apply bind_returns in Hrun as ([] & s1 & Hnew & Hrun).
  apply bind_returns in Hrun as ([] & s2 & Hsetup & Hrun).
  apply bind_returns in Hrun as (b' & s3 & Hbranch & Hrun).
  apply bind_returns in Hrun as ([] & s4 & Happly & Hrun).
  apply bind_returns in Hrun as (commitSha & s5 & Hcommit & Hrun).
  apply bind_returns in Hrun as ([] & s6 & Hpush & Hret).
  injection Hret as -> <-.
  destruct (new_GitService_outcome _ _ _ _ Hnew) as (G1 & L1 & _).
  destruct (setupRepository_outcome _ _ _ _ _ _ _ Hsetup) as (G2 & L2 & _).
  apply createFixBranch_events in Hbranch as L3.
  apply applyChanges_events in Happly as (G4 & L4 & Hwrites).
  apply commitChanges_returns_events in Hcommit as L5.
  apply perform_returns in Hpush as (w6 & _ & ->). simpl.
  exists ((G1 ++ G2 ++ [Event Date_now true;
                        Event (Git_checkout (ref (base pr))) true;
                        Event Git_pull true])
          ++ [Event (Git_checkoutLocalBranch b) true]
          ++ (G4 ++ [Event (Git_add (List.map filename (changes analysis))) true;
                     Event Git_status true])
          ++ [Event (Git_commit
                       (commit_message (number_ pr) (comment_id comment_)
                          (changes analysis))) true;
              Event (Git_push "origin" b) true]).
  split.
  - rewrite L5, L4, L3, L2, L1. rewrite <- !app_assoc. reflexivity.
  - eexists _, _. split; [reflexivity |].
    eapply Forall_impl; [exact Hwrites |]. intros c Hin.
    apply in_or_app. now left.
Qed.

End AnyWorld.

Section WithSettings.
Context {ST : Settings}.


(** What the reference working copy guarantees about branches. *)
End WithSettings.
End GitFacts.

(* ===================================================================== *)
(** * Properties of the Orchestrator                                      *)
(* ===================================================================== *)

Module ProcessorFacts.
Import CommentProcessor MonadFacts.
Section WithWorld.
Context {ST : Settings} {JP : JsonParser} {PT : Paths} {W : Type}.
Context {AI : OpenAIClient W} {GH : GitHubClient W} {WC : WorkingCopy W}.
Variable tempDir : string.

(** ** The fetch stage *)

(** The loop never throws: it asks for every file once, in order, and
    binds every file name. *)
Lemma fetch_contents_returns (repository_ : Repository) (pr : GitHubPR)
    (files : list GitHubFile) (m : gmap string string) (s : state W) :
  exists m' s' evs,
    fetch_contents repository_ pr files m s = (Returns m', s') /\
    log s' = log s ++ evs /\
    List.map ev_call evs = List.map (content_call repository_ pr) files /\
    (forall f, In f files -> is_Some (m' !! file_filename f)) /\
    (forall k, ~ In k (List.map file_filename files) -> m' !! k = m !! k).
Proof.
  revert m s. induction files as [| file rest IH]; intros m s; simpl.
  - exists m, s, []. rewrite app_nil_r. repeat split; auto. intros f [].
  - unfold bind, try_catch, GitHubService.getFileContent, perform.
    destruct (api_getFileContent _ _ _ _ (world s)) as [[text | e] w1]; simpl.
    + destruct (IH (<[file_filename file := text]> m)
                   (State w1 (log s ++ [Event (content_call repository_ pr file) true])))
        as (m' & s' & evs & Hrun & Hlog & Hcalls & Hdom & Hframe).
      exists m', s', (Event (content_call repository_ pr file) true :: evs).
      split; [exact Hrun |]. simpl in Hlog. rewrite Hlog, <- app_assoc.
      split; [reflexivity |]. split; [simpl; now rewrite Hcalls |].
      split.
      * intros f [<- | Hin]; [| now apply Hdom].
        destruct (in_dec string_dec (file_filename file)
                    (List.map file_filename rest)) as [Hr | Hr].
        -- apply in_map_iff in Hr as (f' & Hf' & Hin').
           rewrite <- Hf'. now apply Hdom.
        -- rewrite (Hframe _ Hr), lookup_insert_eq. eauto.
      * intros k Hk. rewrite Hframe by tauto.
        apply lookup_insert_ne. tauto.
    + unfold ret.
      destruct (IH (<[file_filename file := file_content_placeholder]> m)
                   (State w1 (log s ++ [Event (content_call repository_ pr file) false])))
        as (m' & s' & evs & Hrun & Hlog & Hcalls & Hdom & Hframe).
      exists m', s', (Event (content_call repository_ pr file) false :: evs).
      split; [exact Hrun |]. simpl in Hlog. rewrite Hlog, <- app_assoc.
      split; [reflexivity |]. split; [simpl; now rewrite Hcalls |].
      split.
      * intros f [<- | Hin]; [| now apply Hdom].
        destruct (in_dec string_dec (file_filename file)
                    (List.map file_filename rest)) as [Hr | Hr].
        -- apply in_map_iff in Hr as (f' & Hf' & Hin').
           rewrite <- Hf'. now apply Hdom.
        -- rewrite (Hframe _ Hr), lookup_insert_eq. eauto.
      * intros k Hk. rewrite Hframe by tauto.
        apply lookup_insert_ne. tauto.
Qed.


(** The analysis either stops at the file list, which GitHub refused,
    or returns a verdict after one fetch per file and one chat call. *)
Lemma analyzeComment_cases (comment_ : GitHubComment) (pr : GitHubPR)
    (repository_ : Repository) (s : state W) r s' :
  analyzeComment comment_ pr repository_ s = (r, s') ->
  (exists e w1,
     api_getPullRequestFiles (owner_login repository_) (name repository_)
       (number_ pr) (world s) = (Raises e, w1) /\
     r = Raises e /\
     log s' = log s ++ [Event (files_call repository_ pr) false]) \/
  (exists a files evs req ok,
     r = Returns a /\
     log s' = log s ++ [Event (files_call repository_ pr) true] ++ evs
                    ++ [Event (OpenAI_chat req) ok] /\
     List.map ev_call evs = List.map (content_call repository_ pr) files /\
     confidence_in_bounds a = true).
Proof.
  unfold analyzeComment, GitHubService.getPullRequestFiles. intros Hrun.
  unfold bind at 1 in Hrun. unfold perform in Hrun.
  destruct (api_getPullRequestFiles _ _ _ (world s)) as [[files | e] w1] eqn:E;
    simpl in Hrun.
  - right.
    destruct (fetch_contents_returns repository_ pr files ∅
                (State w1 (log s ++ [Event (files_call repository_ pr) true])))
      as (m' & s1 & evs & Hfetch & L1 & Hcalls & _).
    unfold files_call in *.
    rewrite (bind_step _ _ _ _ _ Hfetch) in Hrun.
    destruct (OpenAIFacts.analyzeComment_returns comment_ pr files m' s1)
      as (a & s2 & ok & Ha & L2 & Hb).
    rewrite Ha in Hrun. injection Hrun as <- <-.
    eexists a, files, evs, _, ok. split; [reflexivity |].
    split; [| split; assumption].
    rewrite L2, L1. simpl. rewrite <- !app_assoc. reflexivity.
  - left. injection Hrun as <- <-. exists e, w1. auto.
Qed.

(** ** Reporting *)



Lemma addSuccessComment_events (comment_ : GitHubComment) (pr : GitHubPR)
    (repository_ : Repository) (analysis : AIAnalysisResult)
    (fixBranch : string) :
  emits (addSuccessComment comment_ pr repository_ analysis fixBranch)
    (fun r G =>
       exists summary ok,
         G = [Event (OpenAI_chat
                       (OpenAIService.summary_request (changes analysis))) ok;
              Event (comment_call repository_ pr
                       (success_message summary fixBranch pr analysis))
                    (is_ok r)] /\
         answered repository_ pr
           (success_message summary fixBranch pr analysis) (is_ok r)).
Proof.
  intros s r s'. unfold addSuccessComment, OpenAIService.generateChangeSummary.
  unfold bind, try_catch, GitHubService.createComment, perform, ret.
  destruct (chat_completions_create _ (world s)) as [[response | e] w1]; simpl.
  - destruct (OpenAIService.first_content response) as [[| c text] |]; simpl;
      destruct (api_createComment _ _ _ _ w1) as [[posted | e'] w2] eqn:E;
      intros [= <- <-]; simpl; rewrite <- app_assoc;
      (eexists; split; [reflexivity |]); eexists _, _;
      (split; [reflexivity |]); exists w1; now rewrite E.
  - destruct (api_createComment _ _ _ _ w1) as [[posted | e'] w2] eqn:E;
      intros [= <- <-]; simpl; rewrite <- app_assoc;
      (eexists; split; [reflexivity |]); eexists _, _;
      (split; [reflexivity |]); exists w1; now rewrite E.
Qed.

(** ** The shape of the pipeline *)

Lemma applyChanges_eq (comment_ : GitHubComment) (pr : GitHubPR)
    (repository_ : Repository) (analysis : AIAnalysisResult) (s : state W) :
  applyChanges tempDir comment_ pr repository_ analysis s =
    match Phases.git_sequence tempDir comment_ pr repository_ analysis s with
    | (Returns fixBranch, s2) =>
        addSuccessComment comment_ pr repository_ analysis fixBranch s2
    | (Raises e, s2) => (Raises e, s2)
    end.
Proof.
  unfold applyChanges, Phases.git_sequence, repo_path, try_catch, throw, bind.
  set (repoPath := path_join tempDir _).
  destruct (GitService.new_GitService repoPath s) as [[[] | e] s1];
    cbv beta iota; [| reflexivity].
  destruct (GitService.setupRepository _ _ _ _ s1) as [[[] | e] s2];
    cbv beta iota; [| reflexivity].
  destruct (GitService.createFixBranch _ _ s2) as [[b | e] s3];
    cbv beta iota; [| reflexivity].
  destruct (GitService.applyChanges _ _ s3) as [[[] | e] s4];
    cbv beta iota; [| reflexivity].
  destruct (GitService.commitChanges _ _ _ s4) as [[commitSha | e] s5];
    cbv beta iota; [| reflexivity].
  destruct (GitService.pushChanges _ s5) as [[[] | e] s6];
    cbv beta iota; [| reflexivity].
  unfold ret.
  destruct (addSuccessComment _ _ _ _ _ s6) as [[[] | e] s7]; reflexivity.
Qed.

Lemma processComment_eq (payload : GitHubWebhookPayload)
    (comment_ : GitHubComment) (pr : GitHubPR) (s : state W) :
  comment payload = Some comment_ -> pull_request payload = Some pr ->
  comment_user_login comment_ <> bot_login ->
  processComment tempDir payload s =
    match analyzeComment comment_ pr (repository payload) s with
    | (Returns analysis, s1) =>
        try_catch
          (if negb (shouldApply analysis)
           then addAnalysisComment comment_ pr (repository payload) analysis
           else applyChanges tempDir comment_ pr (repository payload) analysis)
          (handleError payload) s1
    | (Raises e, s1) => handleError payload e s1
    end.
Proof.
  intros Hc Hp Hbot. unfold processComment. rewrite Hc, Hp.
  apply String.eqb_neq in Hbot. rewrite Hbot.
  unfold try_catch at 1. unfold bind.
  destruct (analyzeComment _ _ _ s) as [[analysis | e] s1]; reflexivity.
Qed.

(** ** What the comments say *)

Ltac find_inside :=
  repeat first
    [ apply TextFacts.contains_refl
    | apply TextFacts.contains_app_l, TextFacts.contains_refl
    | apply TextFacts.contains_app_r ].

Lemma success_message_names_branch (summary fixBranch : string)
    (pr : GitHubPR) (analysis : AIAnalysisResult) :
  contains fixBranch (success_message summary fixBranch pr analysis).
Proof. unfold success_message. find_inside. Qed.

Lemma error_comment_tells_message (e : thrown) :
  contains (error_message e) (error_comment e).
Proof. unfold error_comment. find_inside. Qed.

Lemma error_comment_tells_class (e : thrown) :
  contains (error_class e) (error_comment e).
Proof. unfold error_comment. find_inside. Qed.


(** ** Logs without comments, logs without repository calls *)

Lemma attempted_cons (ev : event) (l : list event) :
  attempted_comments (ev :: l) =
    match comment_body_of (ev_call ev) with
    | Some text => text :: attempted_comments l
    | None => attempted_comments l
    end.
Proof. reflexivity. Qed.

Lemma posted_cons (ev : event) (l : list event) :
  posted_comments (ev :: l) =
    match (if ev_ok ev then comment_body_of (ev_call ev) else None) with
    | Some text => text :: posted_comments l
    | None => posted_comments l
    end.
Proof. reflexivity. Qed.

Lemma content_calls_quiet (repository_ : Repository) (pr : GitHubPR)
    (files : list GitHubFile) (evs : list event) :
  List.map ev_call evs = List.map (content_call repository_ pr) files ->
  attempted_comments evs = [] /\ posted_comments evs = [] /\
  no_working_copy_call evs /\ no_engine_call evs.
Proof.
  revert files. induction evs as [| [c ok] evs IH]; intros files H.
  - repeat split; constructor.
  - destruct files as [| f files]; [discriminate |].
    injection H as Hc Hrest. simpl in Hc. subst c.
    destruct (IH _ Hrest) as (A & P & N & E).
    rewrite attempted_cons, posted_cons, A, P. simpl.
    destruct ok; repeat split; constructor; auto.
Qed.

Lemma working_copy_calls_quiet (G : list event) :
  only_working_copy_calls G ->
  attempted_comments G = [] /\ posted_comments G = [] /\ no_engine_call G.
Proof.
  induction 1 as [| [c ok] G Hc _ (A & P & E)].
  - repeat split; constructor.
  - rewrite attempted_cons, posted_cons, A, P. simpl in *.
    destruct c; try discriminate Hc; destruct ok; repeat split;
      constructor; auto.
Qed.

Lemma attempted_app (l1 l2 : list event) :
  attempted_comments (l1 ++ l2) = attempted_comments l1 ++ attempted_comments l2.
Proof. unfold attempted_comments. apply omap_app. Qed.

Lemma posted_app (l1 l2 : list event) :
  posted_comments (l1 ++ l2) = posted_comments l1 ++ posted_comments l2.
Proof. unfold posted_comments. apply omap_app. Qed.

(** ** The three ends of a delivery that is not skipped *)



Lemma analysis_log_quiet (comment_ : GitHubComment) (pr : GitHubPR)
    (repository_ : Repository) (w : W) r s1 :
  run (analyzeComment comment_ pr repository_) w = (r, s1) ->
  attempted_comments (log s1) = [] /\ posted_comments (log s1) = [] /\
  no_working_copy_call (log s1).
Proof.
  unfold run. intros Hrun.
  destruct (analyzeComment_cases _ _ _ _ _ _ Hrun)
    as [(e & w1 & _ & _ & L) | (a & files & evs & req & ok & _ & L & Hc & _)];
    simpl in L; rewrite L.
  - repeat split. repeat constructor.
  - destruct (content_calls_quiet _ _ _ _ Hc) as (A & P & N & _).
    rewrite attempted_cons, posted_cons, attempted_app, posted_app, A, P.
    simpl. split; [reflexivity |]. split; [now destruct ok |].
    constructor; [reflexivity |].
    apply Forall_app. split; [exact N | repeat constructor].
Qed.

(** ** The claims about the pipeline *)

(** A delivery whose action is not [created], or that carries no pull
    request, or whose comment was written by the login
    [AI Comment Fixer Bot], which is written into [processComment] and
    not read from the configuration, ends as a skip: no call leaves the
    process, so neither the Fix-Decision Engine nor the Working-Copy
    Manager is reached, and the world is as it was. *)
Lemma skipped_delivery_reaches_no_service
    (payload : GitHubWebhookPayload) (w : W) :
  action payload <> "created" \/
  pull_request payload = None \/
  (exists c, comment payload = Some c /\ comment_user_login c = bot_login) ->
  run (handleCommentEvent tempDir payload) w = (Returns tt, State w []).
Proof.
  intros Hskip. unfold run, handleCommentEvent.
  destruct (String.eqb_spec (action payload) "created") as [Hact | Hact];
    [| reflexivity].
  simpl. destruct Hskip as [Hne | [Hpr | (c & Hc & Hbot)]].
  - contradiction.
  - now rewrite Hpr.
  - destruct (pull_request payload) as [pr |] eqn:Hpr; [| reflexivity].
    unfold try_catch, processComment. rewrite Hc, Hpr.
    apply String.eqb_eq in Hbot. now rewrite Hbot.
Qed.



End WithWorld.
End ProcessorFacts.

(* ===================================================================== *)
(** * The outcome of a delivery                                           *)
(* ===================================================================== *)

Module OutcomeFacts.
Import CommentProcessor MonadFacts Posts.
Section WithWorld.
Context {ST : Settings} {JP : JsonParser} {PT : Paths} {W : Type}.
Context {AI : OpenAIClient W} {GH : GitHubClient W} {WC : WorkingCopy W}.
Variable tempDir : string.

(** ** What a post leaves in the log *)

Lemma handleError_run (payload : GitHubWebhookPayload)
    (comment_ : GitHubComment) (pr : GitHubPR) (e : thrown) (s : state W) :
  comment payload = Some comment_ -> pull_request payload = Some pr ->
  handleError payload e s =
    (Returns tt, post (repository payload) pr (error_comment e) s).
Proof.
  intros Hc Hp. unfold handleError. rewrite Hc, Hp.
  unfold try_catch, bind, GitHubService.createComment, perform, ret,
    post, post_result, comment_call.
  now destruct (api_createComment _ _ _ _ (world s)) as [[posted | e'] w1].
Qed.

Lemma createComment_run (repository_ : Repository) (pr : GitHubPR)
    (text : string) (s : state W) :
  bind (GitHubService.createComment (owner_login repository_)
          (name repository_) (number_ pr) text) (fun _ => ret tt) s =
    (match fst (post_result repository_ pr text (world s)) with
     | Returns _ => Returns tt
     | Raises e => Raises e
     end,
     post repository_ pr text s).
Proof.
  unfold bind, GitHubService.createComment, perform, ret, post, post_result,
    comment_call.
  now destruct (api_createComment _ _ _ _ (world s)) as [[posted | e'] w1].
Qed.

(** A post under the [catch] of [processComment]. *)
Lemma post_under_catch (payload : GitHubWebhookPayload)
    (comment_ : GitHubComment) (pr : GitHubPR) (text : string)
    (s : state W) :
  comment payload = Some comment_ -> pull_request payload = Some pr ->
  try_catch
    (bind (GitHubService.createComment (owner_login (repository payload))
             (name (repository payload)) (number_ pr) text)
          (fun _ => ret tt))
    (handleError payload) s
  = (Returns tt, report (repository payload) pr text s).
Proof.
  intros Hc Hp. unfold try_catch. rewrite createComment_run. unfold report.
  destruct (fst (post_result (repository payload) pr text (world s)))
    as [posted | e]; [reflexivity |].
  apply (handleError_run payload comment_ pr e _ Hc Hp).
Qed.

(** ** The comments a post leaves in a log that had none *)

Lemma post_comments (repository_ : Repository) (pr : GitHubPR)
    (text : string) (s : state W) :
  attempted_comments (log s) = [] -> posted_comments (log s) = [] ->
  error_comment_only repository_ pr text (world s)
    (log (post repository_ pr text s)).
Proof.
  intros HA HP. unfold error_comment_only, post. cbn [log].
  rewrite !ProcessorFacts.attempted_app, !ProcessorFacts.posted_app, HA, HP.
  split; [reflexivity |].
  now destruct (post_result repository_ pr text (world s)) as [[p | e'] w2].
Qed.

Lemma report_comments (repository_ : Repository) (pr : GitHubPR)
    (text : string) (s : state W) :
  attempted_comments (log s) = [] -> posted_comments (log s) = [] ->
  comment_or_its_error repository_ pr text (world s)
    (log (report repository_ pr text s)).
Proof.
  intros HA HP. unfold comment_or_its_error, report, post.
  destruct (post_result repository_ pr text (world s))
    as [[posted | e] w1] eqn:E; cbn [fst snd is_ok log world].
  - rewrite ProcessorFacts.attempted_app, ProcessorFacts.posted_app, HA, HP.
    split; reflexivity.
  - rewrite !ProcessorFacts.attempted_app, !ProcessorFacts.posted_app, HA, HP.
    split; [reflexivity |].
    now destruct (post_result repository_ pr (error_comment e) w1)
      as [[p | e'] w2].
Qed.

(** ** Counting *)

Lemma error_comment_only_counts (repository_ : Repository) (pr : GitHubPR)
    (text : string) (w : W) (l : list event) :
  error_comment_only repository_ pr text w l ->
  (1 <= List.length (attempted_comments l) <= 2)%nat /\
  (List.length (posted_comments l) <= 1)%nat /\
  (comment_api_accepts -> List.length (posted_comments l) = 1%nat).
Proof.
  intros [HA HP]. rewrite HA, HP. unfold post_result.
  split; [simpl; lia |]. split.
  - destruct (is_ok _); simpl; lia.
  - intros Hacc. now rewrite Hacc.
Qed.

Lemma comment_or_its_error_counts (repository_ : Repository) (pr : GitHubPR)
    (text : string) (w : W) (l : list event) :
  comment_or_its_error repository_ pr text w l ->
  (1 <= List.length (attempted_comments l) <= 2)%nat /\
  (List.length (posted_comments l) <= 1)%nat /\
  (comment_api_accepts -> List.length (posted_comments l) = 1%nat).
Proof.
  unfold comment_or_its_error, post_result.
  destruct (api_createComment _ _ _ text w) as [[posted | e] w1] eqn:E.
  - intros [-> ->]. simpl. repeat split; lia.
  - intros [-> ->]. split; [simpl; lia |]. split.
    + destruct (is_ok _); simpl; lia.
    + intros Hacc. now rewrite Hacc.
Qed.

Lemma generateChangeSummary_run (changes_ : list CodeChange) (s : state W) :
  exists summary s3 ok,
    OpenAIService.generateChangeSummary changes_ s = (Returns summary, s3) /\
    log s3 = log s ++
      [Event (OpenAI_chat (OpenAIService.summary_request changes_)) ok].
Proof.
  unfold OpenAIService.generateChangeSummary, try_catch, bind, perform, ret.
  destruct (chat_completions_create _ (world s)) as [[response | e] w1].
  - destruct (OpenAIService.first_content response) as [[| c t] |];
      eexists _, _, _; split; reflexivity.
  - eexists _, _, _; split; reflexivity.
Qed.

Lemma quiet_app (l1 l2 : list event) :
  attempted_comments l1 = [] -> posted_comments l1 = [] ->
  attempted_comments l2 = [] -> posted_comments l2 = [] ->
  attempted_comments (l1 ++ l2) = [] /\ posted_comments (l1 ++ l2) = [].
Proof.
  intros A1 P1 A2 P2.
  now rewrite ProcessorFacts.attempted_app, ProcessorFacts.posted_app,
    A1, P1, A2, P2.
Qed.

(** The repository steps either all returned or stopped at the first
    that threw. *)
Lemma git_sequence_cases (comment_ : GitHubComment) (pr : GitHubPR)
    (repository_ : Repository) (analysis : AIAnalysisResult)
    (s1 : state W) :
  match Phases.git_sequence tempDir comment_ pr repository_ analysis s1 with
  | (Returns fixBranch, s2) =>
      Steps.went_through (repo_path tempDir repository_) repository_ pr
        comment_ (changes analysis) s1 fixBranch s2
  | (Raises e, s2) =>
      Steps.failed_step (repo_path tempDir repository_) repository_ pr
        comment_ (changes analysis) s1 e s2
  end.
Proof.
  unfold Phases.git_sequence, Steps.went_through, Steps.failed_step, repo_path.
  unfold bind at 1.
  destruct (GitService.new_GitService _ s1) as [[[] | e] sa] eqn:E1;
    [| now left].
  unfold bind at 1.
  destruct (GitService.setupRepository _ _ _ _ sa) as [[[] | e] sb] eqn:E2;
    [| right; exists sa; split; [first [assumption | reflexivity] | now left]].
  unfold bind at 1.
  destruct (GitService.createFixBranch _ _ sb) as [[fixBranch | e] sc] eqn:E3;
    [| right; exists sa; split; [first [assumption | reflexivity] |];
       right; exists sb; split; [first [assumption | reflexivity] | now left]].
  unfold bind at 1.
  destruct (GitService.applyChanges _ _ sc) as [[[] | e] sd] eqn:E4;
    [| right; exists sa; split; [first [assumption | reflexivity] |];
       right; exists sb; split; [first [assumption | reflexivity] |];
       right; exists fixBranch, sc; split; [first [assumption | reflexivity] | now left]].
  unfold bind at 1.
  destruct (GitService.commitChanges _ _ _ sd) as [[commitSha | e] se] eqn:E5;
    [| right; exists sa; split; [first [assumption | reflexivity] |];
       right; exists sb; split; [first [assumption | reflexivity] |];
       right; exists fixBranch, sc; split; [first [assumption | reflexivity] |];
       right; exists sd; split; [first [assumption | reflexivity] | now left]].
  unfold bind at 1.
  destruct (GitService.pushChanges fixBranch se) as [[[] | e] s2] eqn:E6.
  - cbn [ret]. exists sa, sb, sc, sd, se, commitSha.
    repeat (split; [assumption || reflexivity |]).
    apply perform_returns in E6 as (w' & Hpush & ->). cbn [world log].
    split; [exact Hpush | reflexivity].
  - right; exists sa; split; [first [assumption | reflexivity] |].
    right; exists sb; split; [first [assumption | reflexivity] |].
    right; exists fixBranch, sc; split; [first [assumption | reflexivity] |].
    right; exists sd; split; [first [assumption | reflexivity] |].
    right; exists commitSha, se; split; [first [assumption | reflexivity] | exact E6].
Qed.

(** The end of a delivery whose verdict says to apply: the error
    comment of the step that threw, or the summary and then the success
    comment. *)
Lemma approved_end (payload : GitHubWebhookPayload)
    (comment_ : GitHubComment) (pr : GitHubPR) (analysis : AIAnalysisResult)
    (s1 : state W) :
  comment payload = Some comment_ -> pull_request payload = Some pr ->
  match Phases.git_sequence tempDir comment_ pr (repository payload)
          analysis s1 with
  | (Raises e, s2) =>
      try_catch
        (applyChanges tempDir comment_ pr (repository payload) analysis)
        (handleError payload) s1
      = (Returns tt, post (repository payload) pr (error_comment e) s2)
  | (Returns fixBranch, s2) =>
      exists summary s3,
        OpenAIService.generateChangeSummary (changes analysis) s2
          = (Returns summary, s3) /\
        try_catch
          (applyChanges tempDir comment_ pr (repository payload) analysis)
          (handleError payload) s1
        = (Returns tt,
           report (repository payload) pr
             (success_message summary fixBranch pr analysis) s3)
  end.
Proof.
  intros Hc Hp.
  unfold try_catch at 1 2. rewrite ProcessorFacts.applyChanges_eq.
  destruct (Phases.git_sequence tempDir comment_ pr (repository payload)
              analysis s1) as [[fixBranch | e] s2] eqn:Hgit.
  - destruct (generateChangeSummary_run (changes analysis) s2)
      as (summary & s3 & ok & Hsum & L3).
    exists summary, s3. split; [exact Hsum |].
    pose proof (post_under_catch payload comment_ pr
                  (success_message summary fixBranch pr analysis) s3 Hc Hp)
      as Hpost.
    unfold try_catch in Hpost. unfold addSuccessComment.
    unfold bind at 1. rewrite Hsum. exact Hpost.
  - apply (handleError_run payload comment_ pr e s2 Hc Hp).
Qed.

(** The log stays without comments through the repository steps and the
    summary. *)
Lemma git_sequence_quiet (comment_ : GitHubComment) (pr : GitHubPR)
    (repository_ : Repository) (analysis : AIAnalysisResult)
    (s1 : state W) r s2 :
  Phases.git_sequence tempDir comment_ pr repository_ analysis s1 = (r, s2) ->
  attempted_comments (log s1) = [] -> posted_comments (log s1) = [] ->
  attempted_comments (log s2) = [] /\ posted_comments (log s2) = [].
Proof.
  intros Hgit HA HP.
  destruct (GitFacts.git_sequence_outcome _ _ _ _ _ _ _ _ Hgit)
    as (G & LG & [Hwc _]).
  destruct (ProcessorFacts.working_copy_calls_quiet _ Hwc) as (GA & GP & _).
  rewrite LG. now apply quiet_app.
Qed.

Lemma summary_quiet (changes_ : list CodeChange) (s2 : state W) r s3 :
  OpenAIService.generateChangeSummary changes_ s2 = (r, s3) ->
  attempted_comments (log s2) = [] -> posted_comments (log s2) = [] ->
  attempted_comments (log s3) = [] /\ posted_comments (log s3) = [].
Proof.
  intros Hsum HA HP.
  destruct (generateChangeSummary_run changes_ s2)
    as (summary & s3' & ok & Hsum' & L3).
  rewrite Hsum in Hsum'. injection Hsum' as _ <-.
  rewrite L3. apply quiet_app; [exact HA | exact HP | |]; now destruct ok.
Qed.

(** C5, amended.  A delivery that is not skipped ends with the comment
    that goes with its outcome.  When the verdict says not to apply, the
    analysis comment of that verdict is posted; when the repository
    steps go through, the success comment with the branch they
    returned; when the analysis or a repository step throws, the error
    comment with the message and the class of what was thrown.  If
    GitHub accepts that post it is the one comment of the delivery.  If
    GitHub refuses an analysis or success comment, the error comment of
    that refusal is attempted, and is the one comment if it is accepted;
    if it is refused too, or if the refused post was an error comment,
    the delivery leaves no comment.  There are never two. *)
Theorem every_outcome_posts_its_comment
    (payload : GitHubWebhookPayload) (comment_ : GitHubComment)
    (pr : GitHubPR) (w : W) :
  comment payload = Some comment_ -> pull_request payload = Some pr ->
  comment_user_login comment_ <> "AI Comment Fixer Bot" ->
  exists s',
    run (processComment tempDir payload) w = (Returns tt, s') /\
    (1 <= List.length (attempted_comments (log s')) <= 2)%nat /\
    (List.length (posted_comments (log s')) <= 1)%nat /\
    (comment_api_accepts -> List.length (posted_comments (log s')) = 1%nat) /\
    match run (analyzeComment comment_ pr (repository payload)) w with
    | (Raises e, s1) =>
        error_comment_only (repository payload) pr (error_comment e)
          (world s1) (log s')
    | (Returns analysis, s1) =>
        if shouldApply analysis then
          match Phases.git_sequence tempDir comment_ pr (repository payload)
                  analysis s1 with
          | (Raises e, s2) =>
              error_comment_only (repository payload) pr (error_comment e)
                (world s2) (log s')
          | (Returns fixBranch, s2) =>
              exists summary s3,
                OpenAIService.generateChangeSummary (changes analysis) s2
                  = (Returns summary, s3) /\
                contains fixBranch
                  (success_message summary fixBranch pr analysis) /\
                comment_or_its_error (repository payload) pr
                  (success_message summary fixBranch pr analysis) (world s3)
                  (log s')
          end
        else
          comment_or_its_error (repository payload) pr
            (analysis_message analysis) (world s1) (log s')
    end /\
    (forall e : thrown,
       contains (error_message e) (error_comment e) /\
       contains (error_class e) (error_comment e)).
Proof.
  intros Hc Hp Hbot.
  destruct (run (analyzeComment comment_ pr (repository payload)) w)
    as [ra s1] eqn:Ha.
  destruct (ProcessorFacts.analysis_log_quiet _ _ _ _ _ _ Ha) as (HA & HP & _).
  unfold run in *.
  rewrite (ProcessorFacts.processComment_eq tempDir _ _ _ _ Hc Hp Hbot), Ha.
  assert (Htell : forall e : thrown,
            contains (error_message e) (error_comment e) /\
            contains (error_class e) (error_comment e))
    by (intros e; split;
        [apply ProcessorFacts.error_comment_tells_message
        | apply ProcessorFacts.error_comment_tells_class]).
  destruct ra as [analysis | e].
  - destruct (shouldApply analysis) eqn:Hyes; cbn [negb].
    + pose proof (approved_end payload comment_ pr analysis s1 Hc Hp) as Hend.
      destruct (Phases.git_sequence tempDir comment_ pr (repository payload)
                  analysis s1) as [[fixBranch | e] s2] eqn:Hgit.
      * destruct Hend as (summary & s3 & Hsum & Hrun).
        destruct (git_sequence_quiet _ _ _ _ _ _ _ Hgit HA HP) as [A2 P2].
        destruct (summary_quiet _ _ _ _ Hsum A2 P2) as [A3 P3].
        pose proof (report_comments (repository payload) pr
                      (success_message summary fixBranch pr analysis) s3 A3 P3)
          as Hpost.
        destruct (comment_or_its_error_counts _ _ _ _ _ Hpost)
          as (C1 & C2 & C3).
        eexists. split; [exact Hrun |].
        split; [exact C1 |]. split; [exact C2 |]. split; [exact C3 |].
        split; [| exact Htell].
        exists summary, s3. split; [exact Hsum |].
        split; [apply ProcessorFacts.success_message_names_branch | exact Hpost].
      * destruct (git_sequence_quiet _ _ _ _ _ _ _ Hgit HA HP) as [A2 P2].
        pose proof (post_comments (repository payload) pr (error_comment e)
                      s2 A2 P2) as Hpost.
        destruct (error_comment_only_counts _ _ _ _ _ Hpost) as (C1 & C2 & C3).
        eexists. split; [exact Hend |].
        split; [exact C1 |]. split; [exact C2 |]. split; [exact C3 |].
        split; [exact Hpost | exact Htell].
    + pose proof (report_comments (repository payload) pr
                    (analysis_message analysis) s1 HA HP) as Hpost.
      destruct (comment_or_its_error_counts _ _ _ _ _ Hpost) as (C1 & C2 & C3).
      eexists. split; [apply (post_under_catch payload comment_ pr _ _ Hc Hp) |].
      split; [exact C1 |]. split; [exact C2 |]. split; [exact C3 |].
      split; [exact Hpost | exact Htell].
  - pose proof (post_comments (repository payload) pr (error_comment e)
                  s1 HA HP) as Hpost.
    destruct (error_comment_only_counts _ _ _ _ _ Hpost) as (C1 & C2 & C3).
    eexists. split; [apply (handleError_run payload comment_ pr e _ Hc Hp) |].
    split; [exact C1 |]. split; [exact C2 |]. split; [exact C3 |].
    split; [exact Hpost | exact Htell].
Qed.

(** C7, amended.  In the apply phase nothing is posted while the
    repository steps run.  When they all returned — the branch was
    created, every change written, the commit made, and git accepted the
    push — the summary is asked for and then the success comment is
    posted; if GitHub refuses that post, the error comment of the
    refusal follows it, after a push that went through.  When a step
    threw, the steps after it are not run and the error comment of what
    it threw is the one post. *)
Theorem comment_waits_for_the_repository_steps
    (payload : GitHubWebhookPayload) (comment_ : GitHubComment)
    (pr : GitHubPR) (analysis : AIAnalysisResult) (w : W) (s1 : state W) :
  comment payload = Some comment_ -> pull_request payload = Some pr ->
  comment_user_login comment_ <> "AI Comment Fixer Bot" ->
  run (analyzeComment comment_ pr (repository payload)) w
    = (Returns analysis, s1) ->
  shouldApply analysis = true ->
  (exists fixBranch s2 G summary s3,
     Steps.went_through (repo_path tempDir (repository payload))
       (repository payload) pr comment_ (changes analysis) s1 fixBranch s2 /\
     log s2 = log s1 ++ G /\
     completed_git_sequence (repo_path tempDir (repository payload))
       fixBranch (number_ pr) (comment_id comment_) (changes analysis) G /\
     OpenAIService.generateChangeSummary (changes analysis) s2
       = (Returns summary, s3) /\
     attempted_comments (log s3) = [] /\
     run (processComment tempDir payload) w
       = (Returns tt,
          report (repository payload) pr
            (success_message summary fixBranch pr analysis) s3))
  \/
  (exists e s2 G,
     Steps.failed_step (repo_path tempDir (repository payload))
       (repository payload) pr comment_ (changes analysis) s1 e s2 /\
     log s2 = log s1 ++ G /\ ends_in_failure e G /\
     attempted_comments (log s2) = [] /\
     run (processComment tempDir payload) w
       = (Returns tt, post (repository payload) pr (error_comment e) s2)).
Proof.
  intros Hc Hp Hbot Ha Hyes.
  destruct (ProcessorFacts.analysis_log_quiet _ _ _ _ _ _ Ha) as (HA & HP & _).
  unfold run in *.
  rewrite (ProcessorFacts.processComment_eq tempDir _ _ _ _ Hc Hp Hbot), Ha,
    Hyes.
  cbn [negb].
  pose proof (approved_end payload comment_ pr analysis s1 Hc Hp) as Hend.
  pose proof (git_sequence_cases comment_ pr (repository payload) analysis s1)
    as Hsteps.
  destruct (Phases.git_sequence tempDir comment_ pr (repository payload)
              analysis s1) as [[fixBranch | e] s2] eqn:Hgit.
  - left. destruct Hend as (summary & s3 & Hsum & Hrun).
    destruct (git_sequence_quiet _ _ _ _ _ _ _ Hgit HA HP) as [A2 P2].
    destruct (summary_quiet _ _ _ _ Hsum A2 P2) as [A3 P3].
    destruct (GitFacts.git_sequence_completed _ _ _ _ _ _ _ _ Hgit)
      as (G & LG & Hdone).
    exists fixBranch, s2, G, summary, s3. auto 10.
  - right.
    destruct (git_sequence_quiet _ _ _ _ _ _ _ Hgit HA HP) as [A2 P2].
    destruct (GitFacts.git_sequence_outcome _ _ _ _ _ _ _ _ Hgit)
      as (G & LG & [_ Hfail]).
    exists e, s2, G. auto 10.
Qed.

(** ** The log of a delivery that is not skipped *)

Lemma post_log (repository_ : Repository) (pr : GitHubPR) (text : string)
    (s : state W) :
  exists rest, log (post repository_ pr text s) = log s ++ rest /\
               attempted_comments rest = [text].
Proof. unfold post. cbn [log]. eexists. split; [reflexivity |]. reflexivity. Qed.

Lemma report_log (repository_ : Repository) (pr : GitHubPR) (text : string)
    (s : state W) :
  exists rest, log (report repository_ pr text s) = log s ++ rest /\
               (1 <= List.length (attempted_comments rest))%nat.
Proof.
  unfold report, post.
  destruct (fst (post_result repository_ pr text (world s))); cbn [log world].
  - eexists. split; [reflexivity |]. simpl. lia.
  - rewrite <- app_assoc. eexists. split; [reflexivity |]. simpl. lia.
Qed.

(** A delivery that is not skipped runs the analysis first and posts at
    least once after it. *)
Lemma delivery_extends_analysis (payload : GitHubWebhookPayload)
    (comment_ : GitHubComment) (pr : GitHubPR) (w : W) ra s1 :
  comment payload = Some comment_ -> pull_request payload = Some pr ->
  comment_user_login comment_ <> "AI Comment Fixer Bot" ->
  run (analyzeComment comment_ pr (repository payload)) w = (ra, s1) ->
  exists s' rest,
    run (processComment tempDir payload) w = (Returns tt, s') /\
    log s' = log s1 ++ rest /\
    (1 <= List.length (attempted_comments rest))%nat.
Proof.
  intros Hc Hp Hbot Ha. unfold run in *.
  rewrite (ProcessorFacts.processComment_eq tempDir _ _ _ _ Hc Hp Hbot), Ha.
  destruct ra as [analysis | e].
  - destruct (shouldApply analysis) eqn:Hyes; cbn [negb].
    + pose proof (approved_end payload comment_ pr analysis s1 Hc Hp) as Hend.
      destruct (Phases.git_sequence tempDir comment_ pr (repository payload)
                  analysis s1) as [[fixBranch | e] s2] eqn:Hgit;
        destruct (GitFacts.git_sequence_outcome _ _ _ _ _ _ _ _ Hgit)
          as (G & LG & _).
      * destruct Hend as (summary & s3 & Hsum & Hrun).
        destruct (generateChangeSummary_run (changes analysis) s2)
          as (summary' & s3' & ok & Hsum' & L3).
        rewrite Hsum in Hsum'. injection Hsum' as _ <-.
        destruct (report_log (repository payload) pr
                    (success_message summary fixBranch pr analysis) s3)
          as (rest & L & Hn).
        eexists _, _. split; [exact Hrun |].
        rewrite L, L3, LG, <- !app_assoc. split; [reflexivity |].
        rewrite !ProcessorFacts.attempted_app, !length_app. lia.
      * destruct (post_log (repository payload) pr (error_comment e) s2)
          as (rest & L & Hn).
        eexists _, _. split; [exact Hend |].
        rewrite L, LG, <- !app_assoc. split; [reflexivity |].
        rewrite !ProcessorFacts.attempted_app, !length_app, Hn. simpl. lia.
    + destruct (report_log (repository payload) pr
                  (analysis_message analysis) s1) as (rest & L & Hn).
      eexists _, rest.
      split; [apply (post_under_catch payload comment_ pr _ _ Hc Hp) |].
      split; assumption.
  - destruct (post_log (repository payload) pr (error_comment e) s1)
      as (rest & L & Hn).
    eexists _, rest.
    split; [apply (handleError_run payload comment_ pr e _ Hc Hp) |].
    split; [exact L | rewrite Hn; simpl; lia].
Qed.

(** The analysis starts with the list of files; with the list in hand
    it fetches each file and calls the model. *)
Lemma analysis_follows_file_list (comment_ : GitHubComment) (pr : GitHubPR)
    (repository_ : Repository) (s : state W) r s' :
  analyzeComment comment_ pr repository_ s = (r, s') ->
  match api_getPullRequestFiles (owner_login repository_) (name repository_)
          (number_ pr) (world s) with
  | (Returns files, _) =>
      exists evs req ok,
        log s' = log s ++ [Event (files_call repository_ pr) true] ++ evs
                       ++ [Event (OpenAI_chat req) ok] /\
        List.map ev_call evs = List.map (content_call repository_ pr) files
  | (Raises e, _) =>
      log s' = log s ++ [Event (files_call repository_ pr) false]
  end.
Proof.
  unfold analyzeComment, GitHubService.getPullRequestFiles. intros Hrun.
  unfold bind at 1 in Hrun. unfold perform in Hrun.
  destruct (api_getPullRequestFiles _ _ _ (world s)) as [[files | e] w1] eqn:E;
    simpl in Hrun.
  - destruct (ProcessorFacts.fetch_contents_returns repository_ pr files ∅
                (State w1 (log s ++ [Event (files_call repository_ pr) true])))
      as (m' & s1 & evs & Hfetch & L1 & Hcalls & _).
    unfold files_call in *.
    rewrite (bind_step _ _ _ _ _ Hfetch) in Hrun.
    destruct (OpenAIFacts.analyzeComment_returns comment_ pr files m' s1)
      as (a & s2 & ok & Ha & L2 & Hb).
    rewrite Ha in Hrun. injection Hrun as <- <-.
    eexists evs, _, ok. split; [| exact Hcalls].
    rewrite L2, L1. simpl. rewrite <- !app_assoc. reflexivity.
  - now injection Hrun as <- <-.
Qed.

(** C3, as the code has it.  The author of a comment is compared with
    the text [AI Comment Fixer Bot] and not with the configured name of
    the bot: when the bot is configured under another name, a comment it
    wrote itself is not skipped.  The list of files is asked for, the
    model is called once GitHub has given the list, and the bot answers
    its own comment. *)
Theorem comment_by_the_configured_bot_is_analysed
    (payload : GitHubWebhookPayload) (comment_ : GitHubComment)
    (pr : GitHubPR) (w : W) :
  action payload = "created" ->
  comment payload = Some comment_ -> pull_request payload = Some pr ->
  comment_user_login comment_ = git_userName config ->
  git_userName config <> "AI Comment Fixer Bot" ->
  exists s',
    run (handleCommentEvent tempDir payload) w = (Returns tt, s') /\
    (1 <= List.length (attempted_comments (log s')))%nat /\
    match api_getPullRequestFiles (owner_login (repository payload))
            (name (repository payload)) (number_ pr) w with
    | (Returns files, _) =>
        exists evs req ok rest,
          log s' = Event (files_call (repository payload) pr) true
                     :: evs ++ Event (OpenAI_chat req) ok :: rest /\
          List.map ev_call evs
            = List.map (content_call (repository payload) pr) files
    | (Raises e, _) =>
        exists rest,
          log s' = Event (files_call (repository payload) pr) false :: rest
    end.
Proof.
  intros Hact Hc Hp Hown Hname.
  assert (Hbot : comment_user_login comment_ <> "AI Comment Fixer Bot")
    by now rewrite Hown.
  destruct (run (analyzeComment comment_ pr (repository payload)) w)
    as [ra s1] eqn:Ha.
  destruct (delivery_extends_analysis payload comment_ pr w ra s1
              Hc Hp Hbot Ha) as (s' & rest & Hrun & L & Hn).
  exists s'. split; [| split].
  - unfold run in *. unfold handleCommentEvent. rewrite Hact, Hp. cbn.
    unfold try_catch. now rewrite Hrun.
  - rewrite L, ProcessorFacts.attempted_app, length_app. lia.
  - unfold run in Ha.
    pose proof (analysis_follows_file_list _ _ _ _ _ _ Ha) as Hlog.
    cbn [world log] in Hlog.
    destruct (api_getPullRequestFiles _ _ _ w) as [[files | e] w1].
    + destruct Hlog as (evs & req & ok & L1 & Hcalls).
      exists evs, req, ok, rest. split; [| exact Hcalls].
      rewrite L, L1. cbn [app]. now rewrite <- !app_assoc.
    + exists rest. now rewrite L, Hlog.
Qed.

End WithWorld.
End OutcomeFacts.

(* ===================================================================== *)
(** * The fix branch                                                      *)
(* ===================================================================== *)

Module BranchFacts.
Import GitService MonadFacts.
Section WithWorld.
Context {W : Type} {WC : WorkingCopy W}.



End WithWorld.
End BranchFacts.

(* ===================================================================== *)
(** * Runs on the scripted world                                          *)
(* ===================================================================== *)

Module Runs.
Import WorkingCopyModel Bench.
#[local] Existing Instance settings.
#[local] Existing Instance parser.

Ltac differ :=
  let H := fresh in intros H; vm_compute in H; discriminate H.

(** The reply with a text for [lineNumber], on the scripted world. *)
Lemma approved_reply_keeps_text_lineNumber :
  exists a,
    fst (OpenAIService.analyzeComment reviewer_comment pr42
           [api_file] ∅ (State (scripted [chat_reply reply_text] []) []))
      = Returns a /\
    shouldApply a = true /\
    changes a =
      [ {| filename := "src/api.ts"; content := "receive";
           lineNumber := Value (JString "fifteen");
           description := "Fix typo" |} ] /\
    forallb well_typed_change (changes a) = false.
Proof.
  eapply (OpenAIFacts.lineNumber_of_wrong_type_is_accepted
            reviewer_comment pr42 [api_file] ∅
            (State (scripted [chat_reply reply_text] []) []));
    [reflexivity | reflexivity].
Defined.

(** An edited comment is skipped. *)
Lemma edited_comment_is_skipped :
  action edited_delivery <> "created" /\
  run (CommentProcessor.handleCommentEvent temp_dir edited_delivery)
      (scripted [chat_reply reply_text] [])
    = (Returns tt, State (scripted [chat_reply reply_text] []) []).
Proof.
  split; [differ |].
  apply (ProcessorFacts.skipped_delivery_reaches_no_service temp_dir
           edited_delivery (scripted [chat_reply reply_text] [])).
  left. differ.
Defined.

(** The committer is configured as [fixer-bot] and a comment signed
    [fixer-bot] arrives: it is not skipped, the model is asked. *)
Lemma comment_signed_with_configured_name_is_analysed :
  action own_delivery = "created" /\
  pull_request own_delivery = Some pr42 /\
  comment own_delivery = Some own_comment /\
  comment_user_login own_comment = git_userName (@config renamed_settings) /\
  List.map ev_ok
    (List.filter (fun e => is_engine_call (ev_call e))
       (log (snd (run (@CommentProcessor.handleCommentEvent renamed_settings
                         parser posix_paths World openai github working_copy
                         temp_dir own_delivery)
                    (scripted [chat_reply decline_text] [])))))
    = [true].
Proof. repeat split; vm_compute; reflexivity. Qed.


(** After that delivery the clone is as it was. *)
Lemma declined_delivery_keeps_the_clone :
  repo (world (snd (run (CommentProcessor.processComment temp_dir delivery)
                      (scripted [chat_reply decline_text] []))))
    = clone.
Proof. vm_compute. reflexivity. Qed.

(** GitHub refuses both posts: no comment reaches the pull request of a
    delivery that was not skipped. *)
Lemma refused_posts_leave_no_comment :
  comment delivery = Some reviewer_comment /\
  pull_request delivery = Some pr42 /\
  comment_user_login reviewer_comment <> CommentProcessor.bot_login /\
  attempted_comments
    (log (snd (run (CommentProcessor.processComment temp_dir delivery)
                 (scripted [chat_reply decline_text] [false; false]))))
    = [ CommentProcessor.analysis_message
          (OpenAIService.parseAIResponse decline_text);
        CommentProcessor.error_comment (http_error "502") ] /\
  posted_comments
    (log (snd (run (CommentProcessor.processComment temp_dir delivery)
                 (scripted [chat_reply decline_text] [false; false]))))
    = [] /\
  List.length
    (posted_comments
       (log (snd (run (CommentProcessor.processComment temp_dir delivery)
                    (scripted [chat_reply decline_text] [false; false])))))
    <> 1%nat.
Proof.
  split; [reflexivity |]. split; [reflexivity |]. split; [differ |].
  split; [vm_compute; reflexivity |]. split; [vm_compute; reflexivity |].
  differ.
Qed.



End Runs.

(* ===================================================================== *)
(** * More on the reply of the model                                      *)
(* ===================================================================== *)

Module ReplyFacts.
Import OpenAIService MonadFacts TextFacts.
Section WithWorld.
Context {ST : Settings} {JP : JsonParser} {W : Type} {AI : OpenAIClient W}.

Lemma upto_last_close_none (s : string) :
  upto_last_close s = None -> no_close_brace s = true.
Proof.
  induction s as [| c r IH]; simpl; [reflexivity |].
  destruct (upto_last_close r); [discriminate |].
  destruct (Ascii.eqb c "}"); [discriminate |].
  intros _. now rewrite IH.
Qed.

Lemma upto_last_close_some (s t : string) :
  upto_last_close s = Some t ->
  exists inner post,
    t = inner +:+ "}" /\ s = t +:+ post /\ no_close_brace post = true.
Proof.
  revert t. induction s as [| c r IH]; simpl; [discriminate |].
  intros t. destruct (upto_last_close r) as [t' |] eqn:E.
  - intros [= <-]. destruct (IH t' eq_refl) as (inner & post & -> & Hr & Hp).
    exists (String c inner), post. rewrite !append_cons.
    repeat split; [| exact Hp]. now rewrite Hr at 1.
  - destruct (Ascii.eqb_spec c "}") as [-> |]; [| discriminate].
    intros [= <-]. exists "", r. repeat split.
    now apply upto_last_close_none.
Qed.

Lemma no_close_brace_suffix (a b : string) :
  no_close_brace (a +:+ b) = true -> no_close_brace b = true.
Proof.
  induction a as [| c a IH]; [easy |].
  rewrite append_cons. simpl. intros [_ H]%andb_true_iff. now apply IH.
Qed.

(** X1. The text handed to [JSON.parse] is the stretch of the reply from
    its first opening brace to its last closing brace: nothing before it
    has an opening brace, nothing after it a closing one.  When nothing
    is found, no opening brace of the reply is followed by a closing
    one. *)
Theorem match_braces_takes_first_open_to_last_close (response : string) :
  match match_braces response with
  | Some jsonMatch =>
      exists before inner after,
        response = before +:+ jsonMatch +:+ after /\
        jsonMatch = "{" +:+ inner +:+ "}" /\
        no_open_brace before = true /\
        no_close_brace after = true
  | None =>
      forall before rest,
        response = before +:+ "{" +:+ rest -> no_close_brace rest = true
  end.
Proof.
  induction response as [| c r IH]; simpl.
  - intros [| x before] rest; discriminate.
  - destruct (Ascii.eqb_spec c "{") as [-> | Hc].
    + destruct (upto_last_close r) as [t |] eqn:E.
      * destruct (upto_last_close_some r t E) as (inner & post & -> & Hr & Hp).
        exists "", inner, post. repeat split; [| exact Hp].
        simpl. now rewrite Hr at 1.
      * intros before rest Heq.
        assert (Hall : no_close_brace r = true)
          by now apply upto_last_close_none.
        destruct before as [| x before].
        -- change ("" +:+ "{" +:+ rest) with (String "{" rest) in Heq.
           now injection Heq as <-.
        -- rewrite append_cons in Heq. injection Heq as _ ->.
           apply no_close_brace_suffix in Hall.
           change ("{" +:+ rest) with (String "{" rest) in Hall.
           simpl in Hall. exact Hall.
    + destruct (match_braces r) as [m |].
      * destruct IH as (before & inner & after & -> & Hm & Hb & Ha).
        exists (String c before), inner, after.
        repeat split; [exact Hm | | exact Ha].
        simpl. rewrite Hb. now destruct (Ascii.eqb_spec c "{").
      * intros [| x before] rest Heq.
        -- change ("" +:+ "{" +:+ rest) with (String "{" rest) in Heq.
           injection Heq as -> _. contradiction.
        -- rewrite append_cons in Heq. injection Heq as _ ->.
           now apply (IH before rest).
Qed.

(** What [validate_change] requires of an element of [changes]. *)
Lemma validate_change_returns (index : nat) (item : json) (c : CodeChange) :
  validate_change index item = Returns c <->
  get_prop item "filename" = Returns (Value (JString (filename c))) /\
  get_prop item "content" = Returns (Value (JString (content c))) /\
  get_prop item "description" = Returns (Value (JString (description c))) /\
  get_prop item "lineNumber" = Returns (lineNumber c).
Proof.
  unfold validate_change, rbind. split.
  - intros H. repeat case_result. injection H as <-. simpl. auto.
  - intros (-> & -> & -> & ->). now destruct c.
Qed.

(** X2. The changes of an accepted reply are the elements of its
    [changes] array, as many and in the same order, each with the three
    texts and the [lineNumber] the element carries; and an array whose
    elements all carry the three texts is accepted. *)
Theorem validate_changes_keeps_every_change_in_order
    (index : nat) (items : list json) (cs : list CodeChange) :
  validate_changes index items = Returns cs <->
  Forall2 (fun item c =>
             get_prop item "filename" = Returns (Value (JString (filename c))) /\
             get_prop item "content" = Returns (Value (JString (content c))) /\
             get_prop item "description"
               = Returns (Value (JString (description c))) /\
             get_prop item "lineNumber" = Returns (lineNumber c))
          items cs.
Proof.
  revert index cs. induction items as [| item rest IH]; intros index cs; simpl.
  - split.
    + intros [= <-]. constructor.
    + intros H. now inversion H.
  - unfold rbind. split.
    + intros H.
      destruct (validate_change index item) as [c |] eqn:Ec; [| discriminate].
      destruct (validate_changes (S index) rest) as [cs' |] eqn:Er;
        [| discriminate].
      injection H as <-. constructor.
      * now apply (validate_change_returns index).
      * now apply (IH (S index)).
    + intros H. inversion H as [| ? c ? cs' Hc Hr]; subst.
      apply (validate_change_returns index) in Hc. rewrite Hc.
      apply (IH (S index)) in Hr. now rewrite Hr.
Qed.

(** An element that is not [null] is refused with the name of the field
    and the position of the element. *)
Lemma validate_change_raises (index : nat) (item : json) (e : thrown) :
  validate_change index item = Raises e ->
  item = JNull \/
  exists field,
    In field ["filename"; "content"; "description"] /\
    e = JsError "Error"
          ("Invalid " +:+ field +:+ " in change " +:+ show_nat index).
Proof.
  intros H. destruct item as [| b | n | t | xs | ms]; [now left | right ..];
    unfold validate_change, rbind, get_prop in H;
    try (injection H as <-; exists "filename"; simpl; now auto).
  repeat match goal with
  | H : context [match assoc_last ?k ?m with _ => _ end] |- _ =>
      destruct (assoc_last k m) as [[] |]; simpl in H
  end;
  try discriminate H;
  injection H as <-;
  first [ exists "filename"; simpl; split; [auto | reflexivity]
        | exists "content"; simpl; split; [auto | reflexivity]
        | exists "description"; simpl; split; [auto 6 | reflexivity] ].
Qed.

(** X3. A refused [changes] array is refused for its first element that
    fails the check, with the error of that element: every element
    before it passes, and the message carries its position in the
    array. *)
Theorem validate_changes_reports_first_invalid_change
    (items : list json) (e : thrown) :
  validate_changes 0 items = Raises e ->
  exists (k : nat) (item : json) (accepted : list CodeChange),
    nth_error items k = Some item /\
    validate_changes 0 (firstn k items) = Returns accepted /\
    validate_change k item = Raises e /\
    (item <> JNull ->
     exists field,
       In field ["filename"; "content"; "description"] /\
       e = JsError "Error"
             ("Invalid " +:+ field +:+ " in change " +:+ show_nat k)).
Proof.
  assert (G : forall index,
    validate_changes index items = Raises e ->
    exists k item accepted,
      nth_error items k = Some item /\
      validate_changes index (firstn k items) = Returns accepted /\
      validate_change (index + k) item = Raises e).
  { induction items as [| item rest IH]; intros index; simpl; [discriminate |].
    unfold rbind.
    destruct (validate_change index item) as [c |] eqn:Ec.
    - destruct (validate_changes (S index) rest) as [cs' |] eqn:Er;
        [discriminate |].
      intros [= <-].
      destruct (IH (S index) Er) as (k & it & acc & Hn & Hp & Hk).
      exists (S k), it, (c :: acc). simpl. unfold rbind.
      rewrite Ec, Hp. repeat split; [exact Hn |].
      now replace (index + S k)%nat with (S index + k)%nat by lia.
    - intros [= <-]. exists 0%nat, item, []. simpl.
      now rewrite Nat.add_0_r. }
  intros H. destruct (G 0%nat H) as (k & item & acc & Hn & Hp & Hk).
  exists k, item, acc. repeat split; try assumption.
  intros Hnull.
  destruct (validate_change_raises _ _ _ Hk) as [-> | Hf]; [easy | exact Hf].
Qed.

(** X4. A reply is accepted exactly when the text between its outer
    braces parses to a value whose [shouldApply] is a boolean, whose
    [confidence] is a number that is neither below 0 nor above 1, whose
    [reasoning] is a text and whose [changes] is an array that passes the
    check of its elements; the verdict then carries these four values. *)
Theorem parseAIResponse_accepts_exactly
    (response : string) (a : AIAnalysisResult) :
  parseAIResponse_try response = Returns a <->
  exists jsonMatch parsed items,
    match_braces response = Some jsonMatch /\
    JSON_parse jsonMatch = Returns parsed /\
    get_prop parsed "shouldApply" = Returns (Value (JBool (shouldApply a))) /\
    get_prop parsed "confidence" = Returns (Value (JNumber (confidence a))) /\
    num_ltb (confidence a) num_zero || num_ltb num_one (confidence a) = false /\
    get_prop parsed "reasoning" = Returns (Value (JString (reasoning a))) /\
    get_prop parsed "changes" = Returns (Value (JArray items)) /\
    validate_changes 0 items = Returns (changes a).
Proof.
  split.
  - unfold parseAIResponse_try, rbind. intros H.
    repeat case_result.
    injection H as <-. simpl.
    eexists _, _, _. repeat split; eauto.
  - intros (jsonMatch & parsed & items & Hm & Hp & Hs & Hc & Hb & Hr & Hch & Hv).
    unfold parseAIResponse_try, rbind.
    rewrite Hm, Hp, Hs, Hc, Hb, Hr, Hch, Hv. now destruct a.
Qed.

(** X5. [generateChangeSummary] never throws and never returns the
    empty text: it makes one call to the model and returns the text of
    the first choice, or the fixed sentence when the call fails or the
    reply has no text. *)
Theorem generateChangeSummary_always_gives_a_sentence
    (changes_ : list CodeChange) (s : state W) :
  exists text s' ok,
    generateChangeSummary changes_ s = (Returns text, s') /\
    log s' = log s ++ [Event (OpenAI_chat (summary_request changes_)) ok] /\
    text <> "" /\
    (ok = false -> text = "Applied suggested changes") /\
    (forall response,
       fst (chat_completions_create (summary_request changes_) (world s))
         = Returns response ->
       text = match first_content response with
              | Some (String c t) => String c t
              | _ => "Applied suggested changes"
              end).
Proof.
  unfold generateChangeSummary, try_catch, bind, perform.
  destruct (chat_completions_create _ (world s)) as [[response | e] w'] eqn:E.
  - destruct (first_content response) as [[| c text] |] eqn:F; simpl;
      eexists _, _, _;
      (split; [reflexivity | split; [reflexivity | split; [easy |]]]);
      (split; [discriminate |]); intros ? [= <-]; now rewrite F.
  - simpl. eexists _, _, _.
    split; [reflexivity | split; [reflexivity | split; [easy |]]].
    split; [reflexivity | discriminate].
Qed.

(** X6. A reply without text is not parsed: when the first choice is
    missing, has no message, no content or an empty content, the verdict
    is the default that declines, with the reason
    [No response from OpenAI]. *)
Theorem analyzeComment_declines_on_reply_without_text
    (comment_ : GitHubComment) (pr : GitHubPR)
    (files : list GitHubFile) (fileContents : gmap string string)
    (s : state W) (response : ChatResponse) (w' : W) :
  chat_completions_create
    (analysis_request buildSystemPrompt
       (buildUserPrompt comment_ pr files fileContents)) (world s)
    = (Returns response, w') ->
  first_content response = None \/ first_content response = Some "" ->
  fst (analyzeComment comment_ pr files fileContents s) =
    Returns {| shouldApply := false; changes := [];
               reasoning := "Error analyzing comment: No response from OpenAI";
               confidence := Finite 0 |}.
Proof.
  intros Hchat Hfirst.
  unfold analyzeComment, try_catch, bind, perform. rewrite Hchat.
  now destruct Hfirst as [-> | ->].
Qed.

Lemma content_or_not_found_cases (fileContents : gmap string string)
    (name_ : string) :
  content_or_not_found fileContents name_ =
    match fileContents !! name_ with
    | Some (String c t) => String c t
    | _ => "File not found"
    end.
Proof.
  unfold content_or_not_found. now destruct (fileContents !! name_) as [[] |].
Qed.

(** X7. The prompt shows the model the comment, its author and, for
    every file of the pull request, a section with the name of the file
    and the text fetched for it; a file with no text in the map, or with
    the empty text, is shown as [File not found]. *)
Theorem buildUserPrompt_shows_comment_and_every_file
    (comment_ : GitHubComment) (pr : GitHubPR)
    (files : list GitHubFile) (fileContents : gmap string string)
    (file : GitHubFile) :
  In file files ->
  let prompt := buildUserPrompt comment_ pr files fileContents in
  contains ("COMMENT: " +:+ comment_body comment_ +:+ newline
            +:+ "COMMENT AUTHOR: " +:+ comment_user_login comment_) prompt /\
  contains
    (newline +:+ "--- " +:+ file_filename file +:+ " ---" +:+ newline
     +:+ match fileContents !! file_filename file with
         | Some (String c t) => String c t
         | _ => "File not found"
         end
     +:+ newline +:+ "---") prompt.
Proof.
  intros Hin prompt. subst prompt. unfold buildUserPrompt. split.
  - do 4 apply contains_app_r.
    exists (newline +:+ newline). eexists.
    rewrite !append_assoc. reflexivity.
  - do 9 apply contains_app_r. apply contains_app_l.
    apply contains_join. rewrite <- content_or_not_found_cases.
    apply in_map_iff. now exists file.
Qed.

End WithWorld.
End ReplyFacts.

(* ===================================================================== *)
(** * Properties of the configuration loader                              *)
(* ===================================================================== *)

Module ConfigFacts.
Import ConfigLoader.
Section WithEnvironment.
Context {GL : Globals}.
Variable env : string -> option string.

Lemma unset_iff (varName : string) :
  unset env varName = true <-> env varName = None \/ env varName = Some "".
Proof.
  unfold unset.
  destruct (env varName) as [[| c t] |];
    (split; [intros H | intros [H | H]]); auto; discriminate.
Qed.

Lemma set_iff (varName : string) :
  unset env varName = false <-> exists c t, env varName = Some (String c t).
Proof.
  unfold unset.
  destruct (env varName) as [[| c t] |];
    (split; [intros H | intros (c' & t' & H)]); eauto; discriminate.
Qed.

Lemma filter_sublist {A} (f : A -> bool) (l : list A) :
  sublist (List.filter f l) l.
Proof.
  induction l as [| x l IH]; simpl; [constructor |].
  destruct (f x); now constructor.
Qed.

Lemma missingVars_spec (varName : string) :
  In varName (missingVars env) <->
  In varName requiredEnvVars /\
  (env varName = None \/ env varName = Some "").
Proof. unfold missingVars. now rewrite filter_In, unset_iff. Qed.

(** X8. [validateConfig] throws exactly when one of the seven required
    variables is absent or empty; the message then lists the variables
    that are, each once, in the order in which they are required,
    separated by a comma and a space. *)
Theorem validateConfig_refuses_exactly_the_missing_variables :
  ((exists e, validateConfig env = Raises e) <->
   (exists varName,
      In varName requiredEnvVars /\
      (env varName = None \/ env varName = Some ""))) /\
  (forall e,
     validateConfig env = Raises e ->
     exists names,
       e = JsError "Error"
             ("Missing required environment variables: "
              +:+ join ", " names) /\
       sublist names requiredEnvVars /\
       forall varName,
         In varName names <->
         In varName requiredEnvVars /\
         (env varName = None \/ env varName = Some "")).
Proof.
  split; [split |].
  - intros [e H]. unfold validateConfig in H.
    destruct (missingVars env) as [| v rest] eqn:E; [discriminate |].
    exists v. apply missingVars_spec. rewrite E. now left.
  - intros (v & Hv). apply missingVars_spec in Hv. unfold validateConfig.
    destruct (missingVars env); [easy | eauto].
  - intros e H. unfold validateConfig in H.
    destruct (missingVars env) as [| v rest] eqn:E; [discriminate |].
    injection H as <-. exists (v :: rest). split; [reflexivity |].
    rewrite <- E. split; [| apply missingVars_spec].
    unfold missingVars. apply filter_sublist.
Qed.

Lemma required_variables_are_set (c : Loaded) :
  validateConfig env = Returns c ->
  forall varName,
    In varName requiredEnvVars -> exists a t, env varName = Some (String a t).
Proof.
  unfold validateConfig. intros H.
  destruct (missingVars env) as [| v rest] eqn:E; [| discriminate].
  intros v Hv. apply set_iff.
  destruct (unset env v) eqn:U; [| reflexivity].
  assert (Hin : In v (missingVars env)) by (apply filter_In; now split).
  rewrite E in Hin. destruct Hin.
Qed.

(** X9. When [validateConfig] returns, every field read from a required
    variable holds a text that is not empty, the token of the git
    client is the token of the GitHub client, and each optional field
    holds its variable, or its default when the variable is absent or
    empty. *)
Theorem validateConfig_returns_defined_fields (c : Loaded) :
  validateConfig env = Returns c ->
  (forall field,
     In field [ loaded_github_token c; loaded_github_webhookSecret c;
                loaded_openai_apiKey c; loaded_git_userName c;
                loaded_git_userEmail c; loaded_git_token c;
                loaded_repo_owner c; loaded_repo_name c ] ->
     exists a t, field = Some (String a t)) /\
  loaded_git_token c = loaded_github_token c /\
  loaded_openai_model c
    = match env "OPENAI_MODEL" with
      | Some (String a t) => String a t
      | _ => "gpt-4"
      end /\
  loaded_server_port c
    = parseInt match env "PORT" with
               | Some (String a t) => String a t
               | _ => "3000"
               end 10.
Proof.
  intros H. pose proof (required_variables_are_set c H) as Hset.
  unfold validateConfig in H.
  destruct (missingVars env) as [| v rest] eqn:E; [| discriminate].
  injection H as <-. simpl.
  split; [| split; [reflexivity | split]].
  - intros field Hf. simpl in Hset.
    repeat (destruct Hf as [<- | Hf]; [apply Hset; simpl; tauto |]).
    destruct Hf.
  - unfold or_else. now destruct (env "OPENAI_MODEL") as [[] |].
  - unfold or_else. now destruct (env "PORT") as [[] |].
Qed.

End WithEnvironment.
End ConfigFacts.

(* ===================================================================== *)
(** * More on the two signature verifiers                                 *)
(* ===================================================================== *)

Module SignatureFacts.
Import TextFacts.

Lemma buffer_eqb_spec (a b : Buffer.t) : Buffer.eqb a b = bool_decide (a = b).
Proof.
  unfold Buffer.eqb.
  destruct (String.eqb_spec (string_of_list_ascii a) (string_of_list_ascii b))
    as [H | H].
  - apply (f_equal list_ascii_of_string) in H.
    rewrite !list_ascii_of_string_of_list_ascii in H.
    now rewrite bool_decide_eq_true_2.
  - rewrite bool_decide_eq_false_2; [reflexivity |]. now intros ->.
Qed.

(** [crypto.timingSafeEqual] on buffers of one length is equality. *)
Lemma timingSafeEqual_same_length (a b : Buffer.t) :
  List.length a = List.length b ->
  Buffer.timingSafeEqual a b = Returns (bool_decide (a = b)).
Proof.
  intros H. unfold Buffer.timingSafeEqual.
  rewrite H, Nat.eqb_refl. now rewrite buffer_eqb_spec.
Qed.

Lemma timingSafeEqual_other_length (a b : Buffer.t) :
  List.length a <> List.length b ->
  Buffer.timingSafeEqual a b =
    Raises (JsError "RangeError"
              "Input buffers must have the same byte length").
Proof.
  intros H. unfold Buffer.timingSafeEqual.
  now destruct (Nat.eqb_spec (List.length a) (List.length b)).
Qed.

Lemma startsWith_app (p s : string) : startsWith (p +:+ s) p = true.
Proof.
  unfold startsWith. induction p as [| a p IH].
  - now destruct s.
  - rewrite append_cons. simpl. now destruct (ascii_dec a a).
Qed.

(** Decoding goes through whole pairs of hexadecimal digits and stops
    where what follows decodes to nothing. *)
Lemma from_hex_app (digest rest : string) :
  hex_pairs digest = true ->
  Buffer.from_hex (digest +:+ rest)
    = Buffer.from_hex digest ++ Buffer.from_hex rest.
Proof.
  revert rest.
  assert (G : forall n digest, (String.length digest <= n)%nat ->
              forall rest, hex_pairs digest = true ->
              Buffer.from_hex (digest +:+ rest)
                = Buffer.from_hex digest ++ Buffer.from_hex rest).
  { induction n as [| n IH]; intros [| a [| b r]] Hlen rest Hp;
      try reflexivity; try discriminate Hp; simpl in Hlen; try lia.
    rewrite !append_cons. simpl in Hp |- *.
    destruct (Buffer.hex_digit a), (Buffer.hex_digit b); try discriminate Hp.
    simpl. f_equal. apply IH; [| exact Hp].
    destruct n; simpl in *; lia. }
  intros rest Hp. now apply (G (String.length digest)).
Qed.

Section WithRuntime.
Context {ST : Settings} {CR : Crypto}.

Lemma verifier_decides (payload signature : string) :
  GitHubService.verifyWebhookSignature payload signature =
    Returns
      (bool_decide
         (Buffer.from_hex
            (if startsWith signature "sha256=" then slice_from 7 signature
             else signature)
          = Buffer.from_hex
              (hmac_sha256_hex GitHubService.webhook_secret payload))).
Proof.
  unfold GitHubService.verifyWebhookSignature.
  set (a := Buffer.from_hex _). set (b := Buffer.from_hex _).
  destruct (Nat.eq_dec (List.length a) (List.length b)) as [H | H].
  - now rewrite timingSafeEqual_same_length.
  - rewrite timingSafeEqual_other_length by exact H.
    rewrite bool_decide_eq_false_2; [reflexivity |].
    intros E. now rewrite E in H.
Qed.

(** X10. The verifier that compares inside [try] returns [true] exactly
    when the signature, without the algorithm prefix if it has it,
    decodes to the same bytes as the expected digest; whatever else it
    is handed, it returns [false]. *)
Theorem guarded_verifier_compares_decoded_bytes (payload signature : string) :
  GitHubService.verifyWebhookSignature payload signature =
    Returns
      (bool_decide
         (Buffer.from_hex
            (if startsWith signature "sha256=" then slice_from 7 signature
             else signature)
          = Buffer.from_hex
              (hmac_sha256_hex GitHubService.webhook_secret payload))).
Proof. apply verifier_decides. Qed.

(** X11. The signature GitHub sends for a delivery, the digest of the
    payload under the secret behind the algorithm prefix, is accepted by
    both verifiers. *)
Theorem genuine_signature_is_accepted (payload : string) :
  GitHubService.verifyWebhookSignature payload
    ("sha256=" +:+ hmac_sha256_hex GitHubService.webhook_secret payload)
    = Returns true /\
  GitHubServiceText.verifyWebhookSignature payload
    ("sha256=" +:+ hmac_sha256_hex (github_webhookSecret config) payload)
    = Returns true.
Proof.
  split.
  - rewrite verifier_decides.
    rewrite startsWith_app.
    change (slice_from 7 ("sha256=" +:+ ?d)) with d.
    now rewrite bool_decide_eq_true_2.
  - unfold GitHubServiceText.verifyWebhookSignature.
    rewrite timingSafeEqual_same_length by reflexivity.
    now rewrite bool_decide_eq_true_2.
Qed.

(** X12. The verifier that decodes the digests accepts more than the
    signature itself: text after the digest that does not start with two
    hexadecimal digits is dropped by the decoding, so the signature
    followed by such text is accepted too. *)
Theorem guarded_verifier_ignores_text_after_the_digest
    (payload trailer : string) :
  hex_pairs (hmac_sha256_hex GitHubService.webhook_secret payload) = true ->
  Buffer.from_hex trailer = [] ->
  GitHubService.verifyWebhookSignature payload
    ("sha256=" +:+ hmac_sha256_hex GitHubService.webhook_secret payload
     +:+ trailer)
    = Returns true.
Proof.
  intros Hhex Htrail.
  rewrite verifier_decides.
  rewrite bool_decide_eq_true_2; [reflexivity |].
  rewrite startsWith_app.
  change (slice_from 7 ("sha256=" +:+ ?d)) with d.
  now rewrite from_hex_app, Htrail, app_nil_r.
Qed.

Lemma verifier_compares_texts (payload signature : string) :
  let expected :=
    "sha256=" +:+ hmac_sha256_hex (github_webhookSecret config) payload in
  GitHubServiceText.verifyWebhookSignature payload signature =
    if Nat.eqb (String.length signature) (String.length expected)
    then Returns (bool_decide (signature = expected))
    else Raises (JsError "RangeError"
                   "Input buffers must have the same byte length").
Proof.
  intros expected.
  unfold GitHubServiceText.verifyWebhookSignature, Buffer.from_utf8.
  fold expected.
  assert (Hlen : forall t, List.length (list_ascii_of_string t)
                           = String.length t)
    by (induction t; simpl; congruence).
  destruct (Nat.eqb_spec (String.length signature) (String.length expected))
    as [H | H].
  - rewrite timingSafeEqual_same_length by now rewrite !Hlen.
    f_equal. apply bool_decide_ext. split; [| now intros ->].
    intros E. apply (f_equal string_of_list_ascii) in E.
    now rewrite !string_of_list_ascii_of_string in E.
  - now rewrite timingSafeEqual_other_length by now rewrite !Hlen.
Qed.

(** X13. The verifier that compares the texts returns [true] exactly on
    the prefixed digest, returns [false] on any other text of the same
    length, and throws on a text of any other length. *)
Theorem unguarded_verifier_compares_texts (payload signature : string) :
  let expected :=
    "sha256=" +:+ hmac_sha256_hex (github_webhookSecret config) payload in
  GitHubServiceText.verifyWebhookSignature payload signature =
    if Nat.eqb (String.length signature) (String.length expected)
    then Returns (bool_decide (signature = expected))
    else Raises (JsError "RangeError"
                   "Input buffers must have the same byte length").
Proof. apply verifier_compares_texts. Qed.

End WithRuntime.

Section WithLoader.
Context {ST : Settings} {GL : ConfigLoader.Globals}.

(** X14. Once [validateConfig] has accepted the environment, the key of
    the verifier that reads the environment is the configured secret:
    the key written in the source is not used. *)
Theorem validated_environment_overrides_the_built_in_secret
    (c : ConfigLoader.Loaded) :
  ConfigLoader.validateConfig process_env = Returns c ->
  ConfigLoader.loaded_github_webhookSecret c
    = Some GitHubService.webhook_secret /\
  GitHubService.webhook_secret <> "".
Proof.
  intros H.
  destruct (ConfigFacts.required_variables_are_set _ _ H
              "GITHUB_WEBHOOK_SECRET") as (a & t & Hs); [simpl; tauto |].
  unfold ConfigLoader.validateConfig in H.
  destruct (ConfigLoader.missingVars process_env); [| discriminate].
  injection H as <-. simpl.
  unfold GitHubService.webhook_secret. now rewrite Hs.
Qed.

End WithLoader.
End SignatureFacts.

(* ===================================================================== *)
(** * Properties of the webhook endpoint                                  *)
(* ===================================================================== *)

Module ServerFacts.
Import Server CommentProcessor MonadFacts.
Section WithWorld.
Context {ST : Settings} {JP : JsonParser} {PT : Paths} {W : Type}.
Context {AI : OpenAIClient W} {GH : GitHubClient W} {WC : WorkingCopy W}.
Variable tempDir : string.

Lemma handleError_returns (payload : GitHubWebhookPayload) (e : thrown)
    (s : state W) :
  exists s', handleError payload e s = (Returns tt, s').
Proof.
  unfold handleError.
  destruct (comment payload), (pull_request payload);
    try (eexists; reflexivity).
  unfold try_catch, bind, ret.
  destruct (GitHubService.createComment _ _ _ _ s) as [[? | ?] ?]; eauto.
Qed.

Lemma processComment_returns (payload : GitHubWebhookPayload) (s : state W) :
  exists s', processComment tempDir payload s = (Returns tt, s').
Proof.
  unfold processComment, try_catch.
  match goal with
  | |- context [match ?m s with _ => _ end] =>
      destruct (m s) as [[[] | e] s1]
  end.
  - eauto.
  - apply handleError_returns.
Qed.

Lemma handleCommentEvent_returns (payload : GitHubWebhookPayload)
    (s : state W) :
  exists s', handleCommentEvent tempDir payload s = (Returns tt, s').
Proof.
  unfold handleCommentEvent.
  destruct (negb (String.eqb (action payload) "created"));
    [eexists; reflexivity |].
  destruct (pull_request payload); [| eexists; reflexivity].
  destruct (processComment_returns payload s) as [s' H].
  exists s'. now rewrite (try_catch_ok _ _ _ _ _ H).
Qed.

Lemma dispatch_returns (event : option string)
    (payload : GitHubWebhookPayload) (s : state W) :
  exists s', dispatch tempDir event payload s = (Returns tt, s').
Proof.
  unfold dispatch. destruct event as [e |]; [| eexists; reflexivity].
  destruct (_ || _); [apply handleCommentEvent_returns | eexists; reflexivity].
Qed.

(** X15. Processing a comment never throws, whatever the delivery and
    whatever GitHub, the model and git answer: what the steps throw is
    caught and reported, and a failure to report is dropped.  The same
    holds of the event handler around it. *)
Theorem processing_a_comment_never_throws
    (payload : GitHubWebhookPayload) (s : state W) :
  (exists s', processComment tempDir payload s = (Returns tt, s')) /\
  (exists s', handleCommentEvent tempDir payload s = (Returns tt, s')).
Proof.
  split; [apply processComment_returns | apply handleCommentEvent_returns].
Qed.

Section WithVerifier.
Variable verifyWebhookSignature : string -> string -> result bool.

Lemma post_webhook_cases (req : Request) (s : state W) :
  (post_webhook tempDir verifyWebhookSignature req s
     = (Returns invalid_signature, s) /\
   (x_hub_signature_256 req = None \/ x_hub_signature_256 req = Some "" \/
    rawBody req = None \/ checked verifyWebhookSignature req (Returns false))) \/
  (post_webhook tempDir verifyWebhookSignature req s
     = (Returns internal_server_error, s) /\
   exists e, checked verifyWebhookSignature req (Raises e)) \/
  (exists s',
     dispatch tempDir (x_github_event req) (req_body req) s
       = (Returns tt, s') /\
     post_webhook tempDir verifyWebhookSignature req s
       = (Returns status_ok, s') /\
     checked verifyWebhookSignature req (Returns true)).
Proof.
  unfold post_webhook, checked.
  destruct (x_hub_signature_256 req) as [[| c rest] |] eqn:Hsig;
    [left; split; [reflexivity | tauto] | | left; split; [reflexivity | tauto]].
  destruct (rawBody req) as [raw |] eqn:Hraw;
      [| left; split; [reflexivity | tauto]].
  unfold try_catch, bind, lift.
  destruct (verifyWebhookSignature raw (String c rest)) as [[|] | e] eqn:Hv;
    simpl.
  - right. right.
    destruct (dispatch_returns (x_github_event req) (req_body req) s)
      as [s' Hd].
    exists s'. rewrite Hd. repeat split.
    exists (String c rest), raw. now repeat split.
  - left. split; [reflexivity |]. do 3 right.
    exists (String c rest), raw. now repeat split.
  - right. left. split; [reflexivity |]. exists e.
    exists (String c rest), raw. now repeat split.
Qed.

(** X16. The handler of [POST /webhook] always answers, with one of
    three responses.  It answers 401 or 500 only when it has called no
    service at all, and 200 only after a signature that the verifier
    accepted. *)
Theorem post_webhook_always_answers (req : Request) (s : state W) :
  exists response s',
    post_webhook tempDir verifyWebhookSignature req s
      = (Returns response, s') /\
    (response = invalid_signature /\ s' = s \/
     response = internal_server_error /\ s' = s \/
     response = status_ok /\
     exists signature raw,
       x_hub_signature_256 req = Some signature /\
       rawBody req = Some raw /\
       verifyWebhookSignature raw signature = Returns true).
Proof.
  destruct (post_webhook_cases req s)
    as [(H & _) | [(H & _) | (s' & _ & H & sg & raw & H1 & _ & H2 & H3)]].
  - exists invalid_signature, s. auto.
  - exists internal_server_error, s. auto.
  - exists status_ok, s'. split; [exact H |]. do 2 right.
    split; [reflexivity |]. now exists sg, raw.
Qed.

(** X17. A delivery with an accepted signature is answered 200 whatever
    its event.  Only the two comment events with the action [created]
    and a pull request in the body go further, to [processComment];
    every other delivery, a ping among them, leaves no trace. *)
Theorem accepted_delivery_is_routed_by_event_and_action
    (req : Request) (s : state W) (signature raw : string) :
  x_hub_signature_256 req = Some signature ->
  signature <> "" ->
  rawBody req = Some raw ->
  verifyWebhookSignature raw signature = Returns true ->
  let comment_event :=
    x_github_event req = Some "pull_request_review_comment" \/
    x_github_event req = Some "issue_comment" in
  let passed_on :=
    comment_event /\ action (req_body req) = "created" /\
    pull_request (req_body req) <> None in
  (passed_on ->
   post_webhook tempDir verifyWebhookSignature req s
     = (Returns status_ok, snd (processComment tempDir (req_body req) s))) /\
  (~ passed_on ->
   post_webhook tempDir verifyWebhookSignature req s
     = (Returns status_ok, s)).
Proof.
  intros Hsig Hne Hraw Hv comment_event passed_on.
  subst comment_event passed_on.
  unfold post_webhook. rewrite Hsig, Hraw.
  destruct signature as [| c rest]; [contradiction |].
  unfold try_catch, bind, lift. rewrite Hv. simpl.
  unfold dispatch, handleCommentEvent.
  split.
  - intros ([-> | ->] & -> & Hpr); simpl;
      (destruct (pull_request (req_body req)); [| contradiction]);
      destruct (processComment_returns (req_body req) s) as [s' H];
      rewrite (try_catch_ok _ _ _ _ _ H), H; reflexivity.
  - intros Hnot.
    destruct (x_github_event req) as [e |]; [| reflexivity].
    destruct (String.eqb_spec e "pull_request_review_comment") as [-> | H1];
      [| destruct (String.eqb_spec e "issue_comment") as [-> | H2]];
      simpl; try reflexivity;
      (destruct (String.eqb_spec (action (req_body req)) "created")
         as [Ha | Ha]; simpl; [| reflexivity]);
      (destruct (pull_request (req_body req)) eqn:Hpr; [| reflexivity]);
      exfalso; apply Hnot; repeat split; auto; discriminate.
Qed.

End WithVerifier.

Section WithCrypto.
Context {CR : Crypto}.

(** X18. With the verifier that compares inside [try], the endpoint
    never answers 500: a delivery is answered 200 when its signature
    decodes to the expected digest and 401 otherwise, a missing header
    or body included. *)
Theorem guarded_endpoint_answers_200_or_401 (req : Request) (s : state W) :
  exists response s',
    post_webhook tempDir GitHubService.verifyWebhookSignature req s
      = (Returns response, s') /\
    (response = status_ok \/ response = invalid_signature /\ s' = s) /\
    (response = status_ok <->
     exists signature raw,
       x_hub_signature_256 req = Some signature /\ signature <> "" /\
       rawBody req = Some raw /\
       Buffer.from_hex
         (if startsWith signature "sha256=" then slice_from 7 signature
          else signature)
       = Buffer.from_hex
           (hmac_sha256_hex GitHubService.webhook_secret raw)).
Proof.
  destruct (post_webhook_cases GitHubService.verifyWebhookSignature req s)
    as [(H & Hwhy) | [(H & e & sg & raw & _ & _ & _ & Hv)
                     | (s' & _ & H & sg & raw & H1 & Hne & H2 & Hv)]].
  - exists invalid_signature, s. split; [exact H |]. split; [auto |].
    split; [discriminate |].
    intros (sg & raw & H1 & Hne & H2 & Heq).
    destruct Hwhy as [Hw | [Hw | [Hw | (sg' & raw' & H1' & _ & H2' & Hv)]]];
      try congruence.
    rewrite SignatureFacts.verifier_decides in Hv.
    rewrite H1 in H1'. rewrite H2 in H2'.
    injection H1' as <-. injection H2' as <-.
    rewrite bool_decide_eq_true_2 in Hv by exact Heq. discriminate.
  - rewrite SignatureFacts.verifier_decides in Hv. discriminate.
  - exists status_ok, s'. split; [exact H |]. split; [auto |].
    split; [| reflexivity]. intros _. exists sg, raw.
    repeat split; try assumption.
    rewrite SignatureFacts.verifier_decides in Hv.
    injection Hv as Hv. now apply bool_decide_eq_true_1 in Hv.
Qed.

(** X19. With the verifier that compares the texts, a delivery whose
    signature header has another length than the prefixed digest is
    answered 500, not 401, and nothing is processed. *)
Theorem unguarded_endpoint_answers_500_on_other_length
    (req : Request) (s : state W) (signature raw : string) :
  x_hub_signature_256 req = Some signature ->
  signature <> "" ->
  rawBody req = Some raw ->
  String.length signature <>
    String.length
      ("sha256=" +:+ hmac_sha256_hex (github_webhookSecret config) raw) ->
  post_webhook tempDir GitHubServiceText.verifyWebhookSignature req s
    = (Returns internal_server_error, s).
Proof.
  intros Hsig Hne Hraw Hlen.
  unfold post_webhook. rewrite Hsig, Hraw.
  destruct signature as [| c rest]; [contradiction |].
  unfold try_catch, bind, lift.
  rewrite SignatureFacts.verifier_compares_texts.
  now destruct (Nat.eqb_spec (String.length (String c rest))
                  (String.length
                     ("sha256=" +:+
                      hmac_sha256_hex (github_webhookSecret config) raw))).
Qed.

End WithCrypto.
End WithWorld.
End ServerFacts.

(* ===================================================================== *)
(** * More on the Working-Copy Manager                                    *)
(* ===================================================================== *)

Module WorkingCopyFacts.
Import GitService MonadFacts TextFacts.

Section AnyWorld.
Context {ST : Settings} {PT : Paths} {W : Type} {WC : WorkingCopy W}.

(** X20. When [setupRepository] returns it has asked whether the
    repository path exists, cloned with the token in the URL if it does
    not and pulled if it does, set the committer name and e-mail, and
    checked the branch out, as a new local branch when the checkout
    failed; each of these calls succeeded, in this order, and no other
    call was made. *)
Theorem setupRepository_protocol (repoPath owner repo branch : string)
    (s s' : state W) :
  setupRepository repoPath owner repo branch s = (Returns tt, s') ->
  let present := fst (fs_existsSync repoPath (world s)) in
  let repoUrl :=
    "https://" +:+ git_token config +:+ "@github.com/" +:+ owner +:+ "/"
    +:+ repo +:+ ".git" in
  exists checkout,
    log s' = log s ++
      [ Event (Fs_existsSync repoPath) true;
        Event (if present then Git_pull else Git_clone repoUrl repoPath) true;
        Event (Git_addConfig "user.name" (git_userName config)) true;
        Event (Git_addConfig "user.email" (git_userEmail config)) true ]
      ++ checkout /\
    (checkout = [Event (Git_checkout branch) true] \/
     checkout = [Event (Git_checkout branch) false;
                 Event (Git_checkoutLocalBranch branch) true]).
Proof.
  intros Hrun present repoUrl. unfold setupRepository in Hrun.
  rewrite (bind_step _ _ _ _ _ (observe_eq _ _ _)) in Hrun.
  fold present in Hrun.
  apply bind_returns in Hrun as ([] & s1 & Hfetch & Hrun).
  apply bind_returns in Hrun as ([] & s2 & Hname & Hrun).
  apply bind_returns in Hrun as ([] & s3 & Hmail & Hrun).
  assert (L1 : log s1 = log s ++
                 [Event (Fs_existsSync repoPath) true;
                  Event (if present then Git_pull
                         else Git_clone repoUrl repoPath) true]).
  { destruct present; simpl in Hfetch;
      apply perform_returns in Hfetch as (w1 & _ & ->); simpl;
      now rewrite <- app_assoc. }
  apply perform_returns in Hname as (w2 & _ & ->).
  apply perform_returns in Hmail as (w3 & _ & ->).
  apply try_catch_cases in Hrun
    as [([] & Hco & _) | (e & s4 & Hco & Hnew)].
  - apply perform_returns in Hco as (w4 & _ & ->).
    exists [Event (Git_checkout branch) true]. split; [| now left].
    simpl. rewrite L1, <- !app_assoc. reflexivity.
  - apply perform_raises in Hco as (w4 & _ & ->).
    apply perform_returns in Hnew as (w5 & _ & ->).
    eexists. split; [| now right].
    simpl. rewrite L1, <- !app_assoc. reflexivity.
Qed.

Lemma attempted_writes_app (l1 l2 : list event) :
  attempted_writes (l1 ++ l2) = attempted_writes l1 ++ attempted_writes l2.
Proof. unfold attempted_writes. apply omap_app. Qed.

(** What one change adds to the log: nothing is written but its file. *)
Lemma applyChange_writes (repoPath : string) (c : CodeChange)
    (s : state W) (r : result unit) (s' : state W) :
  applyChange repoPath c s = (r, s') ->
  exists evs,
    log s' = log s ++ evs /\
    (attempted_writes evs = [(path_join repoPath (filename c), content c)] \/
     attempted_writes evs = [] /\ is_ok r = false) /\
    (is_ok r = true -> Forall (fun e => ev_ok e = true) evs).
Proof.
  unfold applyChange. intros Hrun.
  rewrite (bind_step _ _ _ _ _ (observe_eq _ _ _)) in Hrun.
  set (dir := path_dirname (path_join repoPath (filename c))) in *.
  destruct (negb (fst (fs_existsSync dir (world s)))).
  - unfold bind at 1 in Hrun.
    destruct (perform (Fs_mkdirSync dir) (fs_mkdirSync dir) _)
      as [[[] | e] s1] eqn:Hmk.
    + apply perform_returns in Hmk as (w1 & _ & ->).
      unfold perform in Hrun. simpl in Hrun.
      destruct (fs_writeFileSync _ _ w1) as [r0 w2].
      injection Hrun as <- <-. simpl. rewrite <- !app_assoc. simpl.
      eexists. split; [reflexivity |]. split; [now left |].
      intros ->. repeat constructor.
    + apply perform_raises in Hmk as (w1 & _ & ->).
      injection Hrun as <- <-. simpl. rewrite <- !app_assoc. simpl.
      eexists. split; [reflexivity |]. split; [now right | discriminate].
  - unfold bind, ret, perform in Hrun. simpl in Hrun.
    destruct (fs_writeFileSync _ _ _) as [r0 w2].
    injection Hrun as <- <-. simpl. rewrite <- !app_assoc. simpl.
    eexists. split; [reflexivity |]. split; [now left |].
    intros ->. repeat constructor.
Qed.

(** X21. [applyChanges] writes the files of the changes in the order of
    the list, each under the repository path and with the whole content
    of its change, and nothing else: when it returns, every change has
    been written and every call succeeded; when it throws, the writes
    made so far are those of the first changes of the list. *)
Theorem applyChanges_writes_the_changes_in_order
    (repoPath : string) (changes_ : list CodeChange)
    (s : state W) (r : result unit) (s' : state W) :
  applyChanges repoPath changes_ s = (r, s') ->
  exists evs done,
    log s' = log s ++ evs /\
    attempted_writes evs =
      List.map (fun c => (path_join repoPath (filename c), content c))
               (firstn done changes_) /\
    (done <= List.length changes_)%nat /\
    (is_ok r = true ->
     done = List.length changes_ /\ Forall (fun e => ev_ok e = true) evs).
Proof.
  unfold applyChanges. revert s.
  induction changes_ as [| c cs IH]; simpl; intros s Hrun.
  - injection Hrun as <- <-. exists [], 0%nat. rewrite app_nil_r.
    repeat split; auto.
  - unfold bind in Hrun.
    destruct (applyChange repoPath c s) as [[[] | e] s1] eqn:Hc.
    + destruct (applyChange_writes _ _ _ _ _ Hc)
        as (e1 & L1 & [Hw | [_ Hko]] & Hok); [| discriminate].
      destruct (IH _ Hrun) as (e2 & k & L2 & Hw2 & Hk & Hall).
      exists (e1 ++ e2), (S k). rewrite L2, L1, <- app_assoc.
      split; [reflexivity |]. rewrite attempted_writes_app, Hw, Hw2.
      split; [reflexivity |]. split; [lia |].
      intros Hr. destruct (Hall Hr) as [-> Hf]. split; [reflexivity |].
      apply Forall_app. split; [now apply Hok | exact Hf].
    + injection Hrun as <- <-.
      destruct (applyChange_writes _ _ _ _ _ Hc)
        as (e1 & L1 & [Hw | [Hw _]] & _).
      * exists e1, 1%nat. simpl.
        repeat split; auto; try lia; discriminate.
      * exists e1, 0%nat. simpl.
        repeat split; auto; try lia; discriminate.
Qed.


(** ** Calls that a computation never makes *)

(** No call that [m] makes satisfies [q]. *)
Definition never {A} (q : call -> bool) (m : M W A) : Prop :=
  emits m (fun _ evs => Forall (fun e => q (ev_call e) = false) evs).

Lemma never_ret {A} (q : call -> bool) (a : A) : never q (ret a).
Proof. apply emits_ret. constructor. Qed.

Lemma never_throw {A} (q : call -> bool) (e : thrown) :
  never q (throw (A := A) e).
Proof. apply emits_throw. constructor. Qed.

Lemma never_perform {A} (q : call -> bool) (c : call)
    (f : W -> result A * W) :
  q c = false -> never q (perform c f).
Proof. intros H. apply emits_perform. intros r. now repeat constructor. Qed.

Lemma never_observe {A} (q : call -> bool) (c : call) (f : W -> A * W) :
  q c = false -> never q (observe c f).
Proof. intros H. apply emits_observe. intros r. now repeat constructor. Qed.

Lemma never_bind {A B} (q : call -> bool) (m : M W A) (k : A -> M W B) :
  never q m -> (forall a, never q (k a)) -> never q (bind m k).
Proof.
  intros Hm Hk. eapply emits_bind; [exact Hm | exact Hk | auto |].
  intros a r e1 e2 H1 H2. apply Forall_app. now split.
Qed.

Lemma never_try_catch {A} (q : call -> bool) (m : M W A)
    (h : thrown -> M W A) :
  never q m -> (forall e, never q (h e)) -> never q (try_catch m h).
Proof.
  intros Hm Hh. eapply emits_try_catch; [exact Hm | exact Hh | auto |].
  intros e r e1 e2 H1 H2. apply Forall_app. now split.
Qed.

Lemma never_for_each {A} (q : call -> bool) (xs : list A)
    (f : A -> M W unit) :
  (forall x, never q (f x)) -> never q (for_each xs f).
Proof.
  intros Hf. induction xs as [| x xs IH]; simpl.
  - apply never_ret.
  - apply never_bind; auto.
Qed.

End AnyWorld.

Ltac never_step :=
  first [ apply never_ret | apply never_throw
        | apply never_perform; reflexivity
        | apply never_observe; reflexivity
        | apply never_bind; [| intros ?]
        | apply never_try_catch; [| intros ?]
        | apply never_for_each; intros ? ].

Section NoClone.
Context {ST : Settings} {PT : Paths} {W : Type} {WC : WorkingCopy W}.

Lemma createFixBranch_never_clones (baseBranch : string) (prNumber : Z) :
  never is_clone_call (createFixBranch baseBranch prNumber).
Proof. unfold createFixBranch. repeat never_step. Qed.

Lemma applyChanges_never_clones (repoPath : string)
    (changes_ : list CodeChange) :
  never is_clone_call (applyChanges repoPath changes_).
Proof.
  unfold applyChanges, applyChange. repeat never_step.
  destruct (negb _); never_step.
Qed.

Lemma commitChanges_never_clones (prNumber commentId : Z)
    (changes_ : list CodeChange) :
  never is_clone_call (commitChanges prNumber commentId changes_).
Proof.
  unfold commitChanges. repeat never_step.
  match goal with
  | |- context [modified ?st] => destruct (modified st), (created st)
  end; never_step.
Qed.

Lemma pushChanges_never_clones (branchName : string) :
  never is_clone_call (pushChanges branchName).
Proof. unfold pushChanges. never_step. Qed.

End NoClone.
End WorkingCopyFacts.

(* ===================================================================== *)
(** * The disk of the reference working copy                              *)
(* ===================================================================== *)

Module SameDisk.
Import WorkingCopyModel.

(** ** What the file system calls look at *)

(** The same disk: the place of the repository, the working directory
    of the process and the two halves of the tree. *)
Definition same_disk (r r' : Repo) : Prop :=
  root r' = root r /\ cwd r' = cwd r /\
  inside r' = inside r /\ outside r' = outside r.

Lemma lookup_node_same (r r' : Repo) (q : path) :
  same_disk r r' -> lookup_node r' q = lookup_node r q.
Proof.
  intros (H1 & H2 & H3 & H4). unfold lookup_node, root_path.
  now rewrite H1, H2, H3, H4.
Qed.

Lemma walk_dirs_same (r r' : Repo) (segs : list string) (cur : path) :
  same_disk r r' -> walk_dirs r' cur segs = walk_dirs r cur segs.
Proof.
  intros Hs. revert cur. induction segs as [| seg rest IH]; intros cur; simpl;
    [reflexivity |].
  rewrite !IH, (lookup_node_same r r' _ Hs). reflexivity.
Qed.

Lemma locate_same (r r' : Repo) (p : string) :
  same_disk r r' -> locate r' p = locate r p.
Proof.
  intros Hs. unfold locate. rewrite (walk_dirs_same r r' _ _ Hs).
  destruct Hs as (_ & -> & _). reflexivity.
Qed.

Lemma exists_on_disk_same (r r' : Repo) (p : string) :
  same_disk r r' -> exists_on_disk p r' = exists_on_disk p r.
Proof.
  intros Hs. unfold exists_on_disk. rewrite (locate_same r r' p Hs).
  destruct (locate r p) as [code | [q | q]]; try reflexivity.
  now rewrite (lookup_node_same r r' q Hs).
Qed.

End SameDisk.

(* ===================================================================== *)
(** * Paths of the reference working copy                                *)
(* ===================================================================== *)

Module PathFacts.
Import WorkingCopyModel TextFacts.

Lemma drop_prefix_Some (p l rel : path) :
  drop_prefix p l = Some rel <-> l = p ++ rel.
Proof.
  revert l. induction p as [| a p IH]; intros l; simpl.
  - split; [now intros [= ->] | now intros ->].
  - destruct l as [| b l]; [split; discriminate |].
    destruct (String.eqb_spec a b) as [-> | Hne].
    + rewrite IH. split; [now intros -> | now intros [= ->]].
    + split; [discriminate | intros [= -> _]; contradiction].
Qed.









(** ** Normalising *)
















(** ** Where a normalised path leads *)






End PathFacts.

(* ===================================================================== *)
(** * The disk under writes                                              *)
(* ===================================================================== *)

Module DiskFacts.
Import WorkingCopyModel TextFacts PathFacts.

(** ** Reading and writing the disk *)

(** Everything git keeps: the state that file system calls leave
    alone. *)
Definition git_state (r : Repo) :=
  (cloned r, base_dir r, index r, branches r, HEAD r, upstream r,
   synced r, fetched r, origin r, origin_HEAD r, commits r, clock r).

(** From [r] to [r'] the disk has only grown: the repository is where
    it was, git has not been touched, a directory is still a directory
    and a file is still a file. *)
Definition grows (r r' : Repo) : Prop :=
  root r' = root r /\ cwd r' = cwd r /\ git_state r' = git_state r /\
  (forall q, lookup_node r q = Some Dir -> lookup_node r' q = Some Dir) /\
  (forall q data, lookup_node r q = Some (File data) ->
     exists data', lookup_node r' q = Some (File data')).

Lemma grows_refl (r : Repo) : grows r r.
Proof. repeat split; eauto. Qed.

Lemma grows_trans (r1 r2 r3 : Repo) : grows r1 r2 -> grows r2 r3 -> grows r1 r3.
Proof.
  intros (A1 & A2 & A3 & A4 & A5) (B1 & B2 & B3 & B4 & B5).
  repeat split; try congruence; [auto |].
  intros q data H. destruct (A5 _ _ H) as (d' & H'). eauto.
Qed.

Lemma root_path_grows (r r' : Repo) : grows r r' -> root_path r' = root_path r.
Proof. intros (H1 & H2 & _). unfold root_path. now rewrite H1, H2. Qed.


Lemma lookup_put_node (r : Repo) (q q' : path) (n : node) :
  q <> [] ->
  lookup_node (put_node q n r) q' =
    if decide (q' = q) then Some n else lookup_node r q'.
Proof.
  intros Hq. unfold put_node, lookup_node.
  destruct q as [| a q0]; [contradiction |].
  destruct q' as [| b q0'].
  - destruct (drop_prefix (root_path r) (a :: q0));
      now destruct (decide _).
  - destruct (drop_prefix (root_path r) (a :: q0)) as [rel |] eqn:E;
      change (root_path (with_disk _ _ r)) with (root_path r);
      destruct (drop_prefix (root_path r) (b :: q0')) as [rel' |] eqn:E';
      cbn [inside outside with_disk].
    + apply drop_prefix_Some in E, E'.
      destruct (decide _) as [Heq | Hne].
      * rewrite Heq, E in E'. apply app_inv_head in E'. subst rel'.
        apply lookup_insert_eq.
      * apply lookup_insert_ne. intros ->. apply Hne. congruence.
    + destruct (decide _) as [Heq | Hne]; [| reflexivity].
      rewrite Heq in E'. congruence.
    + destruct (decide _) as [Heq | Hne]; [| reflexivity].
      rewrite Heq in E'. congruence.
    + destruct (decide _) as [Heq | Hne].
      * rewrite Heq. apply lookup_insert_eq.
      * apply lookup_insert_ne. congruence.
Qed.

Lemma put_node_place (r : Repo) (q : path) (n : node) :
  root (put_node q n r) = root r /\ cwd (put_node q n r) = cwd r /\
  git_state (put_node q n r) = git_state r.
Proof.
  unfold put_node. destruct q; [now repeat split |].
  destruct (drop_prefix _ _); now repeat split.
Qed.

(** A file written where no directory is. *)
Lemma put_file_grows (r : Repo) (q : path) (data : string) :
  q <> [] -> lookup_node r q <> Some Dir ->
  grows r (put_node q (File data) r).
Proof.
  intros Hq Hnd. destruct (put_node_place r q (File data)) as (H1 & H2 & H3).
  repeat split; try assumption.
  - intros q' Hd. rewrite (lookup_put_node r q q' _ Hq).
    destruct (decide _) as [-> | _]; [contradiction | exact Hd].
  - intros q' d Hf. rewrite (lookup_put_node r q q' _ Hq).
    destruct (decide _); eauto.
Qed.

(** A directory made where nothing was. *)
Lemma put_dir_grows (r : Repo) (q : path) :
  q <> [] -> lookup_node r q = None -> grows r (put_node q Dir r).
Proof.
  intros Hq Hnone. destruct (put_node_place r q Dir) as (H1 & H2 & H3).
  repeat split; try assumption.
  - intros q' Hd. rewrite (lookup_put_node r q q' _ Hq).
    destruct (decide _); [reflexivity | exact Hd].
  - intros q' d Hf. rewrite (lookup_put_node r q q' _ Hq).
    destruct (decide _) as [-> | _]; [congruence | eauto].
Qed.

Lemma walk_dirs_grows (r r' : Repo) (segs : list string) (cur c : path) :
  grows r r' -> walk_dirs r cur segs = inr c -> walk_dirs r' cur segs = inr c.
Proof.
  intros Hg. revert cur. induction segs as [| seg rest IH]; intros cur; simpl;
    [trivial |].
  destruct (is_dot seg); [apply IH |].
  destruct (is_dotdot seg); [apply IH |].
  destruct (lookup_node r (cur ++ [seg])) as [[data |] |] eqn:E;
    try discriminate.
  destruct Hg as (_ & _ & _ & Hd & _). rewrite (Hd _ E). apply IH.
Qed.

Lemma locate_grows (r r' : Repo) (p : string) (t : target) :
  grows r r' -> locate r p = inr t -> locate r' p = inr t.
Proof.
  intros Hg. unfold locate. destruct p as [| c p']; [discriminate |].
  destruct (last _) as [seg |]; [| trivial].
  destruct Hg as (H1 & H2 & H3). rewrite H2.
  destruct (walk_dirs r _ _) as [code | cur] eqn:E; [discriminate |].
  rewrite (walk_dirs_grows r r' _ _ _ (conj H1 (conj H2 H3)) E). trivial.
Qed.

Lemma exists_on_disk_grows (r r' : Repo) (p : string) :
  grows r r' -> exists_on_disk p r = true -> exists_on_disk p r' = true.
Proof.
  intros Hg. unfold exists_on_disk.
  destruct (locate r p) as [code | t] eqn:E; [discriminate |].
  rewrite (locate_grows r r' p t Hg E).
  destruct t as [q | q]; [trivial |].
  destruct Hg as (_ & _ & _ & Hd & Hf).
  destruct (lookup_node r q) as [[data |] |] eqn:El; [| | discriminate].
  - destruct (Hf _ _ El) as (d' & ->). trivial.
  - now rewrite (Hd _ El).
Qed.

(** ** What the calls do *)

Lemma do_writeFileSync_returns (p data : string) (r r' : Repo) :
  do_writeFileSync p data r = (Returns tt, r') ->
  exists q,
    locate r p = inr (Entry q) /\ ends_with_slash p = false /\
    lookup_node r q <> Some Dir /\ q <> [] /\
    r' = put_node q (File data) r.
Proof.
  unfold do_writeFileSync.
  destruct (locate r p) as [code | [q | q]] eqn:E; try discriminate.
  destruct (ends_with_slash p); [discriminate |].
  assert (Hq : q <> []).
  { intros ->. unfold locate in E. destruct p; [discriminate |].
    destruct (last _); [| discriminate].
    destruct (walk_dirs _ _ _) as [code | cur]; [discriminate |].
    destruct (is_dot _); [discriminate |].
    destruct (is_dotdot _); [discriminate |].
    injection E as E. now destruct cur. }
  destruct (lookup_node r q) as [[d |] |] eqn:El; try discriminate;
    intros [= <-]; exists q; repeat split; congruence.
Qed.


Lemma make_dirs_grows (segs : list string) (r r' : Repo) (cur : path) :
  make_dirs r cur segs = inr r' -> grows r r'.
Proof.
  revert r cur. induction segs as [| seg rest IH]; intros r cur; simpl.
  - intros [= <-]. apply grows_refl.
  - destruct (is_dot seg); [apply IH |].
    destruct (is_dotdot seg); [apply IH |].
    destruct (lookup_node r (cur ++ [seg])) as [[data |] |] eqn:E.
    + discriminate.
    + apply IH.
    + intros H. eapply grows_trans; [| eapply IH, H].
      apply put_dir_grows; [now destruct cur | exact E].
Qed.

Lemma do_mkdirSync_returns (p : string) (r r' : Repo) :
  do_mkdirSync p r = (Returns tt, r') -> grows r r'.
Proof.
  unfold do_mkdirSync. destruct p as [| c p']; [discriminate |].
  destruct (make_dirs r _ _) as [code | r1] eqn:E; [discriminate |].
  intros [= <-]. eapply make_dirs_grows, E.
Qed.


(** ** A directory that was made is there *)

Lemma walk_dirs_app (r : Repo) (l1 l2 : list string) (cur : path) :
  walk_dirs r cur (l1 ++ l2) =
    match walk_dirs r cur l1 with
    | inl code => inl code
    | inr c1 => walk_dirs r c1 l2
    end.
Proof.
  revert cur. induction l1 as [| seg rest IH]; intros cur; simpl;
    [reflexivity |].
  destruct (is_dot seg); [apply IH |].
  destruct (is_dotdot seg); [apply IH |].
  destruct (lookup_node r (cur ++ [seg])) as [[data |] |]; try reflexivity.
  apply IH.
Qed.

Lemma make_dirs_walk (segs : list string) (r r' : Repo) (cur : path) :
  make_dirs r cur segs = inr r' -> exists c, walk_dirs r' cur segs = inr c.
Proof.
  revert r cur. induction segs as [| seg rest IH]; intros r cur; simpl.
  - eauto.
  - destruct (is_dot seg); [apply IH |].
    destruct (is_dotdot seg); [apply IH |].
    destruct (lookup_node r (cur ++ [seg])) as [[data |] |] eqn:E.
    + discriminate.
    + intros H. destruct (make_dirs_grows _ _ _ _ H) as (_ & _ & _ & Hd & _).
      rewrite (Hd _ E). eapply IH, H.
    + intros H.
      destruct (make_dirs_grows _ _ _ _ H) as (_ & _ & _ & Hd & _).
      rewrite (Hd (cur ++ [seg])); [eapply IH, H |].
      rewrite lookup_put_node by now destruct cur.
      now destruct (decide _).
Qed.

Lemma skip_while_split {A} (f : A -> bool) (l : list A) :
  exists skipped, l = skipped ++ skip_while f l /\ Forall (fun x => f x = true) skipped.
Proof.
  induction l as [| x rest (sk & E & HF)]; simpl.
  - exists []. split; [reflexivity | constructor].
  - destruct (f x) eqn:Hx.
    + exists (x :: sk). split; [simpl; congruence | now constructor].
    + exists []. split; [reflexivity | constructor].
Qed.

Lemma without_trailing_split (segs : list string) :
  exists empties,
    segs = without_trailing segs ++ empties /\
    Forall (fun s => is_empty s = true) empties.
Proof.
  unfold without_trailing.
  destruct (skip_while_split is_empty (rev segs)) as (sk & E & HF).
  exists (rev sk). split; [| now apply Forall_rev].
  rewrite <- rev_app_distr, <- E. now rewrite rev_involutive.
Qed.

Lemma walk_dirs_empties (r : Repo) (empties : list string) (cur : path) :
  Forall (fun s => is_empty s = true) empties ->
  walk_dirs r cur empties = inr cur.
Proof.
  induction 1 as [| seg rest Hs _ IH]; simpl; [reflexivity |].
  unfold is_dot. unfold is_empty in Hs. now rewrite Hs.
Qed.

(** A path whose every segment leads through a directory is on disk. *)
Lemma walked_path_exists (r : Repo) (p : string) (c : path) :
  p <> "" ->
  walk_dirs r (if is_absolute p then [] else cwd r) (split_path p) = inr c ->
  exists_on_disk p r = true.
Proof.
  intros Hp Hw. unfold exists_on_disk, locate.
  destruct p as [| c0 p']; [contradiction |].
  destruct (without_trailing_split (split_path (String c0 p')))
    as (empties & E & HF).
  rewrite E, walk_dirs_app in Hw.
  destruct (without_trailing (split_path (String c0 p')))
    as [| x init _] using rev_ind; [reflexivity |].
  rewrite last_snoc, removelast_last. rewrite walk_dirs_app in Hw.
  destruct (walk_dirs r _ init) as [code | cur]; [discriminate |].
  simpl in Hw.
  destruct (is_dot x); [reflexivity |].
  destruct (is_dotdot x); [reflexivity |].
  destruct (lookup_node r (cur ++ [x])) as [[data |] |]; try discriminate.
  reflexivity.
Qed.

Lemma do_mkdirSync_exists (p : string) (r r' : Repo) :
  do_mkdirSync p r = (Returns tt, r') -> exists_on_disk p r' = true.
Proof.
  intros H. pose proof (do_mkdirSync_returns p r r' H) as Hg.
  unfold do_mkdirSync in H. destruct p as [| c0 p']; [discriminate |].
  destruct (make_dirs r _ _) as [code | r1] eqn:E; [discriminate |].
  injection H as <-.
  destruct (make_dirs_walk _ _ _ _ E) as (c & Hw).
  apply (walked_path_exists r1 (String c0 p') c); [discriminate |].
  destruct Hg as (_ & -> & _). exact Hw.
Qed.

End DiskFacts.

(* ===================================================================== *)
(** * The work tree under writes                                         *)
(* ===================================================================== *)

Module WorkTreeFacts.
Import GitService WorkingCopyModel MonadFacts TextFacts PathFacts DiskFacts.

(** ** The work tree *)

Lemma worktree_lookup (r : Repo) (f : path) :
  worktree r !! f =
    if under_git f then None else inside r !! f ≫= file_data.
Proof.
  unfold worktree. rewrite lookup_omap, map_lookup_filter.
  destruct (inside r !! f) as [n |]; simpl.
  - destruct (under_git f) eqn:E.
    + rewrite option_guard_False by (simpl; congruence). reflexivity.
    + rewrite option_guard_True by (simpl; congruence). reflexivity.
  - now destruct (under_git f).
Qed.

Lemma worktree_put_file (r : Repo) (q : path) (data : string) :
  q <> [] ->
  worktree (put_node q (File data) r) =
    match drop_prefix (root_path r) q with
    | Some rel => if under_git rel then worktree r else <[rel := data]> (worktree r)
    | None => worktree r
    end.
Proof.
  intros Hq. apply map_eq. intros f. rewrite worktree_lookup.
  unfold put_node. destruct q as [| a q0]; [contradiction |].
  destruct (drop_prefix (root_path r) (a :: q0)) as [rel |];
    cbn [inside with_disk].
  - destruct (under_git rel) eqn:Hg.
    + rewrite worktree_lookup. destruct (under_git f) eqn:Hf; [reflexivity |].
      rewrite lookup_insert_ne; [reflexivity | congruence].
    + destruct (decide (f = rel)) as [-> | Hne].
      * rewrite Hg, !lookup_insert_eq. reflexivity.
      * rewrite !lookup_insert_ne by congruence. now rewrite worktree_lookup.
  - now rewrite worktree_lookup.
Qed.

Lemma worktree_put_dir (r : Repo) (q : path) :
  lookup_node r q = None -> worktree (put_node q Dir r) = worktree r.
Proof.
  intros Hnone. apply map_eq. intros f. rewrite !worktree_lookup.
  unfold put_node, lookup_node in *. destruct q as [| a q0]; [reflexivity |].
  destruct (drop_prefix (root_path r) (a :: q0)) as [rel |];
    cbn [inside with_disk]; [| reflexivity].
  destruct (under_git f); [reflexivity |].
  destruct (decide (f = rel)) as [-> | Hne].
  - now rewrite lookup_insert_eq, Hnone.
  - now rewrite lookup_insert_ne by congruence.
Qed.

Lemma make_dirs_worktree (segs : list string) (r r' : Repo) (cur : path) :
  make_dirs r cur segs = inr r' -> worktree r' = worktree r.
Proof.
  revert r cur. induction segs as [| seg rest IH]; intros r cur; simpl.
  - now intros [= <-].
  - destruct (is_dot seg); [apply IH |].
    destruct (is_dotdot seg); [apply IH |].
    destruct (lookup_node r (cur ++ [seg])) as [[data |] |] eqn:E.
    + discriminate.
    + apply IH.
    + intros H. rewrite (IH _ _ H). now apply worktree_put_dir.
Qed.

Lemma do_mkdirSync_worktree (p : string) (r r' : Repo) :
  do_mkdirSync p r = (Returns tt, r') -> worktree r' = worktree r.
Proof.
  unfold do_mkdirSync. destruct p as [| c p']; [discriminate |].
  destruct (make_dirs r _ _) as [code | r1] eqn:E; [discriminate |].
  intros [= <-]. eapply make_dirs_worktree, E.
Qed.

(** ** What a list of writes leaves *)

Lemma put_all_lookup (writes : list (option path * string)) (t : tree)
    (f : path) :
  put_all writes t !! f =
    match written f writes with
    | Some v => Some v
    | None => t !! f
    end.
Proof.
  unfold put_all. revert t.
  induction writes as [| [k data] rest IH]; intros t; simpl; [reflexivity |].
  rewrite IH. destruct (written f rest) as [v |]; [reflexivity |].
  destruct k as [g |]; simpl.
  - destruct (decide (Some g = Some f)) as [[= ->] | Hne].
    + apply lookup_insert_eq.
    + apply lookup_insert_ne. congruence.
  - destruct (decide (None = Some f)) as [[=] | _]. reflexivity.
Qed.


Lemma put_all_app (w1 w2 : list (option path * string)) (t : tree) :
  put_all (w1 ++ w2) t = put_all w2 (put_all w1 t).
Proof. unfold put_all. apply fold_left_app. Qed.


Lemma written_None (f : path) (writes : list (option path * string)) :
  written f writes = None -> forall v, ~ In (Some f, v) writes.
Proof.
  induction writes as [| [k data] rest IH]; simpl; [tauto |].
  destruct (written f rest) as [v' |]; [discriminate |].
  destruct (decide (k = Some f)) as [-> | Hne]; [discriminate |].
  intros _ v [[= -> _] | Hin]; [contradiction | now apply (IH eq_refl v)].
Qed.


End WorkTreeFacts.

(* ===================================================================== *)
(** * applyChanges on the reference working copy                         *)
(* ===================================================================== *)

Module ApplyFacts.
Import GitService WorkingCopyModel MonadFacts TextFacts.
Import SameDisk PathFacts DiskFacts WorkTreeFacts.

Section WithSettings.
Context {ST : Settings}.

(** ** Writing a set of changes *)

(** Every change of the set can be written as things are: the
    directory of its file is there and the file itself is a file. *)
Definition replayable (r : Repo) (repoPath : string)
    (changes_ : list CodeChange) : Prop :=
  Forall
    (fun c =>
       exists_on_disk (path_dirname (path_join repoPath (filename c))) r = true /\
       ends_with_slash (path_join repoPath (filename c)) = false /\
       exists q old,
         locate r (path_join repoPath (filename c)) = inr (Entry q) /\
         lookup_node r q = Some (File old))
    changes_.

Lemma write_key_grows (r r' : Repo) (p : string) (t : target) :
  grows r r' -> locate r p = inr t -> write_key r' p = write_key r p.
Proof.
  intros Hg E. unfold write_key.
  now rewrite (locate_grows r r' p t Hg E), E, (root_path_grows r r' Hg).
Qed.

Lemma replayable_grows (r r' : Repo) (repoPath : string)
    (changes_ : list CodeChange) :
  grows r r' -> replayable r repoPath changes_ ->
  replayable r' repoPath changes_.
Proof.
  intros Hg HR. unfold replayable in *. eapply Forall_impl; [exact HR |].
  intros c (Hdir & Hslash & q & old & Hloc & Hfile).
  split; [now apply (exists_on_disk_grows r r') |]. split; [exact Hslash |].
  destruct Hg as (G1 & G2 & G3 & G4 & G5).
  destruct (G5 _ _ Hfile) as (old' & Hfile').
  exists q, old'. split; [| exact Hfile'].
  now apply (locate_grows r r' _ _ (conj G1 (conj G2 (conj G3 (conj G4 G5))))).
Qed.


Lemma writes_of_cons (r : Repo) (repoPath : string) (c : CodeChange)
    (rest : list CodeChange) :
  writes_of r repoPath (c :: rest) =
    (write_key r (path_join repoPath (filename c)), content c)
    :: writes_of r repoPath rest.
Proof. reflexivity. Qed.

Lemma put_all_cons (w : option path * string)
    (ws : list (option path * string)) (t : tree) :
  put_all (w :: ws) t = put_all ws (put_all [w] t).
Proof. reflexivity. Qed.

(** One change: the directory is made if it is missing, then the file
    is written. *)
Lemma applyChange_model (repoPath : string) (c : CodeChange) (r : Repo)
    (l : list event) (s' : state Repo) :
  applyChange repoPath c (State r l) = (Returns tt, s') ->
  grows r (world s') /\
  worktree (world s') =
    put_all [(write_key (world s') (path_join repoPath (filename c)),
              content c)] (worktree r) /\
  replayable (world s') repoPath [c].
Proof.
  unfold applyChange. intros Hrun.
  rewrite (bind_step _ _ _ _ _ (observe_eq _ _ _)) in Hrun.
  cbn [world log fst snd fs_existsSync repo_working_copy] in Hrun.
  apply bind_returns in Hrun as ([] & s0 & Hmk & Hwr).
  apply perform_returns in Hwr as (r' & Hwr & ->). cbn [world].
  change (fs_writeFileSync ?p ?d ?x) with (do_writeFileSync p d x) in Hwr.
  set (p := path_join repoPath (filename c)) in *.
  assert (Hmid : grows r (world s0) /\ worktree (world s0) = worktree r /\
                 exists_on_disk (path_dirname p) (world s0) = true).
  { destruct (exists_on_disk (path_dirname p) r) eqn:Hex; cbn [negb] in Hmk.
    - injection Hmk as <-. cbn [world]. split; [apply grows_refl | auto].
    - apply perform_returns in Hmk as (r0 & Hmk & ->). cbn [world] in *.
      change (fs_mkdirSync ?p ?x) with (do_mkdirSync p x) in Hmk.
      split; [now apply (do_mkdirSync_returns _ _ _ Hmk) |].
      split; [now apply (do_mkdirSync_worktree _ _ _ Hmk) |].
      now apply (do_mkdirSync_exists _ _ _ Hmk). }
  destruct Hmid as (Hg0 & Hwt0 & Hdir).
  apply do_writeFileSync_returns in Hwr
    as (q & Hloc & Hslash & Hnd & Hq & ->).
  pose proof (put_file_grows (world s0) q (content c) Hq Hnd) as Hg1.
  split; [eapply grows_trans; eassumption |].
  split.
  - rewrite (worktree_put_file _ q _ Hq), Hwt0.
    rewrite (write_key_grows _ _ p _ Hg1 Hloc). unfold write_key.
    rewrite Hloc. unfold put_all. simpl.
    destruct (drop_prefix (root_path (world s0)) q) as [rel |]; [| reflexivity].
    now destruct (under_git rel).
  - constructor; [| constructor]. fold p.
    split; [now apply (exists_on_disk_grows _ _ _ Hg1) |].
    split; [exact Hslash |].
    exists q, (content c). split; [now apply (locate_grows _ _ _ _ Hg1) |].
    rewrite lookup_put_node by exact Hq. now destruct (decide _).
Qed.

(** The changes one after the other: the disk grows, git is left
    alone, the files of the work tree hold what was written last, and
    every change can be written again. *)
Lemma applyChanges_model (repoPath : string) (changes_ : list CodeChange)
    (r : Repo) (l : list event) (s' : state Repo) :
  applyChanges repoPath changes_ (State r l) = (Returns tt, s') ->
  grows r (world s') /\
  worktree (world s') =
    put_all (writes_of (world s') repoPath changes_) (worktree r) /\
  replayable (world s') repoPath changes_.
Proof.
  unfold applyChanges. revert r l.
  induction changes_ as [| c rest IH]; intros r l Hrun; cbn [for_each] in Hrun.
  - injection Hrun as <-. split; [apply grows_refl |].
    split; [reflexivity | constructor].
  - apply bind_returns in Hrun as ([] & [r1 l1] & Hc & Hrest).
    destruct (applyChange_model _ _ _ _ _ Hc) as (G1 & W1 & R1).
    destruct (IH _ _ Hrest) as (G2 & W2 & R2). cbn [world] in *.
    split; [eapply grows_trans; eassumption |].
    pose proof (replayable_grows _ _ _ _ G2 R1) as R1'.
    split.
    + rewrite W2, W1.
      rewrite writes_of_cons, put_all_cons.
      inversion R1 as [| ? ? (_ & _ & q & old & Hloc & _) _]; subst.
      rewrite (write_key_grows _ _ _ _ G2 Hloc). reflexivity.
    + inversion R1' as [| ? ? H1 _]; subst. now constructor.
Qed.


End WithSettings.
End ApplyFacts.

(* ===================================================================== *)
(** * Staging and status                                                 *)
(* ===================================================================== *)

Module CommitFacts.
Import GitService WorkingCopyModel MonadFacts TextFacts.
Import SameDisk PathFacts DiskFacts WorkTreeFacts ApplyFacts.

Section WithSettings.
Context {ST : Settings}.

(** ** Staging *)







(** ** The status *)





End WithSettings.
End CommitFacts.

(* ===================================================================== *)
(** * A change set applied twice                                         *)
(* ===================================================================== *)

Module ReplayFacts.
Import GitService WorkingCopyModel MonadFacts TextFacts.
Import SameDisk PathFacts DiskFacts WorkTreeFacts ApplyFacts CommitFacts.

Section WithSettings.
Context {ST : Settings}.

(** ** Git calls leave the disk alone *)









(** ** What a failed write throws *)





(** ** Staging and committing on the reference working copy *)

Lemma git_prefix_with_index (i : gmap path string) (r : Repo) :
  git_prefix (with_index i r) = git_prefix r.
Proof. reflexivity. Qed.



(** ** A working copy in which a set of changes has been applied *)







(** ** Applying a set of changes twice *)



(** X23. On the reference working copy, when [applyChanges] returns,
    every file of the work tree that a change reached holds what the
    last change that reached it wrote, and every other file of the work
    tree is as it was. *)
Theorem applyChanges_last_change_to_a_file_wins
    (repoPath : string) (changes_ : list CodeChange) (r : Repo)
    (l : list event) (s' : state Repo) :
  applyChanges repoPath changes_ (State r l) = (Returns tt, s') ->
  forall f,
    worktree (world s') !! f =
      match written f (writes_of (world s') repoPath changes_) with
      | Some data => Some data
      | None => worktree r !! f
      end.
Proof.
  intros Hrun f.
  destruct (applyChanges_model _ _ _ _ _ Hrun) as (_ & W & _).
  now rewrite W, put_all_lookup.
Qed.

End WithSettings.
End ReplayFacts.

(* ===================================================================== *)
(** * Branches of the reference working copy                             *)
(* ===================================================================== *)

Module BranchModel.
Import WorkingCopyModel.

(** ** Branches on the reference working copy *)





End BranchModel.

(* ===================================================================== *)
(** * The processor on the reference working copy                         *)
(* ===================================================================== *)

Module ModelFacts.
Import GitService WorkingCopyModel MonadFacts TextFacts SameDisk.

Section WithSettings.
Context {ST : Settings}.

(** simple-git refuses a base directory that is not on disk, and leaves
    the disk as it is. *)
Lemma do_simpleGit_cases (p : string) (r : Repo) :
  (exists_on_disk p r = false ->
   do_simpleGit p r
   = (Raises (JsError "GitConstructError"
                "Cannot use simple-git on a directory that does not exist"), r)) /\
  (forall res r', do_simpleGit p r = (res, r') -> same_disk r r').
Proof.
  unfold do_simpleGit, exists_on_disk. split.
  - destruct (locate r p) as [code | [q | q]]; [reflexivity | discriminate |].
    destruct (lookup_node r q) as [[data |] |]; try discriminate; reflexivity.
  - intros res r'.
    destruct (locate r p) as [code | [q | q]].
    + intros [= _ <-]. now repeat split.
    + intros [= _ <-]. now repeat split.
    + destruct (lookup_node r q) as [[data |] |]; intros [= _ <-];
        now repeat split.
Qed.

Lemma bind_cases {W A B} (m : M W A) (k : A -> M W B) s r s' :
  bind m k s = (r, s') ->
  (exists e, m s = (Raises e, s') /\ r = Raises e) \/
  (exists a s1, m s = (Returns a, s1) /\ k a s1 = (r, s')).
Proof.
  unfold bind. destruct (m s) as [[a | e] s1].
  - intros H. right. eauto.
  - intros [= <- <-]. left. eauto.
Qed.

Lemma setupRepository_pulls_what_is_there
    (repoPath owner repo branch : string) (s : state Repo)
    (res : result unit) (s' : state Repo) :
  exists_on_disk repoPath (world s) = true ->
  setupRepository repoPath owner repo branch s = (res, s') ->
  exists evs,
    log s' = log s ++ evs /\
    Forall (fun e => is_clone_call (ev_call e) = false) evs.
Proof.
  intros Hex Hrun. unfold setupRepository in Hrun.
  rewrite (bind_step _ _ _ _ _ (observe_eq _ _ _)) in Hrun.
  change (fst (fs_existsSync repoPath (world s)))
    with (exists_on_disk repoPath (world s)) in Hrun.
  rewrite Hex in Hrun. cbn [negb] in Hrun.
  match type of Hrun with
  | ?m ?s0 = _ =>
      assert (Hq : WorkingCopyFacts.never is_clone_call m)
        by (repeat WorkingCopyFacts.never_step)
  end.
  destruct (Hq _ _ _ Hrun) as (evs & L & HF).
  cbn [log] in L. exists (Event (Fs_existsSync repoPath) true :: evs).
  split; [now rewrite L, <- app_assoc |].
  now constructor.
Qed.

(** X25. On the reference working copy, where simple-git refuses a
    base directory that does not exist, the steps of the processor never
    clone: when the repository path is missing, the constructor of
    [GitService] throws and nothing else is called; when it is there,
    [setupRepository] pulls. *)
Theorem processor_never_clones_on_the_reference_working_copy
    (tempDir : string) (comment_ : GitHubComment) (pr : GitHubPR)
    (repository_ : Repository) (analysis : AIAnalysisResult)
    (r : Repo) (l : list event) (res : result string) (s' : state Repo) :
  Phases.git_sequence tempDir comment_ pr repository_ analysis (State r l)
    = (res, s') ->
  let repoPath :=
    path_join tempDir (owner_login repository_ +:+ "-" +:+ name repository_) in
  (exists evs,
     log s' = l ++ evs /\
     Forall (fun e => is_clone_call (ev_call e) = false) evs) /\
  (exists_on_disk repoPath r = false ->
   res = Raises (JsError "GitConstructError"
                   "Cannot use simple-git on a directory that does not exist")
   /\ s' = State r (l ++ [Event (Git_simpleGit repoPath) false])).
Proof.
  intros Hrun repoPath. unfold Phases.git_sequence in Hrun.
  fold repoPath in Hrun.
  apply bind_cases in Hrun as [(e & Hnew & ->) | ([] & s1 & Hnew & Hrun)].
  - apply perform_raises in Hnew as (r1 & Hsg & ->). cbn [world log] in Hsg.
    change (simpleGit repoPath r) with (do_simpleGit repoPath r) in Hsg.
    split.
    + eexists. split; [reflexivity |]. now repeat constructor.
    + intros Hex.
      rewrite (proj1 (do_simpleGit_cases repoPath r) Hex) in Hsg.
      now injection Hsg as <- <-.
  - apply perform_returns in Hnew as (r1 & Hsg & ->). cbn [world log] in Hsg.
    change (simpleGit repoPath r) with (do_simpleGit repoPath r) in Hsg.
    destruct (exists_on_disk repoPath r) eqn:Hex;
      [| rewrite (proj1 (do_simpleGit_cases repoPath r) Hex) in Hsg;
         discriminate Hsg].
    split; [| discriminate].
    assert (Hex1 : exists_on_disk repoPath r1 = true).
    { rewrite (exists_on_disk_same r r1 repoPath); [exact Hex |].
      exact (proj2 (do_simpleGit_cases repoPath r) _ _ Hsg). }
    apply bind_cases in Hrun
      as [(e & Hset & ->) | ([] & s2 & Hset & Hrun)].
    + destruct (setupRepository_pulls_what_is_there
                  repoPath _ _ _ (State r1 _) _ _ Hex1 Hset)
        as (evs & L & HF).
      cbn [log] in L. exists (Event (Git_simpleGit repoPath) true :: evs).
      split; [now rewrite L, <- app_assoc |]. now constructor.
    + destruct (setupRepository_pulls_what_is_there
                  repoPath _ _ _ (State r1 _) _ _ Hex1 Hset)
        as (evs & L & HF).
      cbn [log] in L.
      match type of Hrun with
      | ?m s2 = _ =>
          assert (Hq : WorkingCopyFacts.never is_clone_call m)
      end.
      { apply WorkingCopyFacts.never_bind;
          [apply WorkingCopyFacts.createFixBranch_never_clones | intros b].
        apply WorkingCopyFacts.never_bind;
          [apply WorkingCopyFacts.applyChanges_never_clones | intros _].
        apply WorkingCopyFacts.never_bind;
          [apply WorkingCopyFacts.commitChanges_never_clones | intros _].
        apply WorkingCopyFacts.never_bind;
          [apply WorkingCopyFacts.pushChanges_never_clones | intros _].
        apply WorkingCopyFacts.never_ret. }
      destruct (Hq _ _ _ Hrun) as (evs2 & L2 & HF2).
      exists (Event (Git_simpleGit repoPath) true :: evs ++ evs2).
      split.
      * rewrite L2, L, <- !app_assoc. reflexivity.
      * constructor; [reflexivity |]. apply Forall_app. now split.
Qed.

End WithSettings.
End ModelFacts.

(* ===================================================================== *)
(** * The percentage a comment shows                                      *)
(* ===================================================================== *)

Module NumberFacts.











End NumberFacts.

(* ===================================================================== *)
(** * More on the comments of the bot                                     *)
(* ===================================================================== *)

Module CommentFacts.
Import CommentProcessor MonadFacts.
Section WithWorld.
Context {ST : Settings} {JP : JsonParser} {PT : Paths} {W : Type}.
Context {AI : OpenAIClient W} {GH : GitHubClient W} {WC : WorkingCopy W}.

(** X27. A summary that cannot be had does not keep the success
    comment back: when the call for the summary fails, the comment is
    posted all the same, with the fixed sentence for a summary, and the
    outcome of [addSuccessComment] is the outcome of that post. *)
Theorem success_comment_survives_a_failed_summary
    (comment_ : GitHubComment) (pr : GitHubPR) (repository_ : Repository)
    (analysis : AIAnalysisResult) (fixBranch : string)
    (s : state W) (e : thrown) (w1 : W) :
  chat_completions_create
    (OpenAIService.summary_request (changes analysis)) (world s)
    = (Raises e, w1) ->
  let text :=
    success_message "Applied suggested changes" fixBranch pr analysis in
  let post :=
    api_createComment (owner_login repository_) (name repository_)
      (number_ pr) text w1 in
  addSuccessComment comment_ pr repository_ analysis fixBranch s =
    (match fst post with
     | Returns _ => Returns tt
     | Raises e' => Raises e'
     end,
     State (snd post)
       (log s ++
        [Event (OpenAI_chat
                  (OpenAIService.summary_request (changes analysis))) false;
         Event (comment_call repository_ pr text) (is_ok (fst post))])).
Proof.
  intros Hchat text post. subst text post.
  unfold addSuccessComment, OpenAIService.generateChangeSummary.
  unfold bind, try_catch, GitHubService.createComment, perform, ret.
  rewrite Hchat. cbn [world log is_ok].
  destruct (api_createComment _ _ _ _ w1) as [[posted | e'] w2]; simpl;
    now rewrite <- app_assoc.
Qed.


End WithWorld.
End CommentFacts.

(* ===================================================================== *)
(** * More runs on the scripted world                                     *)
(* ===================================================================== *)

Module MoreRuns.
Import WorkingCopyModel Bench Sample.
#[local] Existing Instance settings.
#[local] Existing Instance parser.
#[local] Existing Instance crypto.
#[local] Existing Instance globals.

Lemma run_as_pair {W A} (m : M W A) (w : W) (r : result A) :
  fst (run m w) = r -> m (State w []) = (r, snd (run m w)).
Proof. intros <-. apply surjective_pairing. Qed.

Lemma second_change_is_reported :
  exists k item accepted,
    nth_error changes_array k = Some item /\
    OpenAIService.validate_changes 0 (firstn k changes_array)
      = Returns accepted /\
    OpenAIService.validate_change k item
      = Raises (JsError "Error" "Invalid filename in change 1").
Proof.
  destruct (ReplyFacts.validate_changes_reports_first_invalid_change
              changes_array (JsError "Error" "Invalid filename in change 1"))
    as (k & item & accepted & H1 & H2 & H3 & _); [reflexivity |].
  exists k, item, accepted. auto.
Defined.

Lemma reply_without_choice_is_declined :
  fst (OpenAIService.analyzeComment reviewer_comment pr42 [api_file] ∅
         (State (scripted [empty_reply] []) []))
    = Returns {| shouldApply := false; changes := [];
                 reasoning := "Error analyzing comment: No response from OpenAI";
                 confidence := Finite 0 |}.
Proof.
  eapply (ReplyFacts.analyzeComment_declines_on_reply_without_text
            reviewer_comment pr42 [api_file] ∅
            (State (scripted [empty_reply] []) []));
    [reflexivity | left; reflexivity].
Defined.

Lemma prompt_shows_the_file_that_was_not_fetched :
  contains
    (newline +:+ "--- README.md ---" +:+ newline +:+ "File not found"
     +:+ newline +:+ "---")
    (OpenAIService.buildUserPrompt reviewer_comment pr42
       [api_file; readme_file] {[ "src/api.ts" := "recieve" ]}).
Proof.
  destruct (ReplyFacts.buildUserPrompt_shows_comment_and_every_file
              reviewer_comment pr42 [api_file; readme_file]
              {[ "src/api.ts" := "recieve" ]} readme_file)
    as [_ H]; [simpl; auto |].
  exact H.
Defined.
Lemma complete_environment_is_loaded :
  exists c,
    ConfigLoader.validateConfig (environment complete) = Returns c /\
    ConfigLoader.loaded_git_token c = ConfigLoader.loaded_github_token c /\
    ConfigLoader.loaded_openai_model c = "gpt-4" /\
    ConfigLoader.loaded_server_port c = Some (Finite (inject_Z 8080)).
Proof.
  destruct (ConfigLoader.validateConfig (environment complete))
    as [c |] eqn:E; [| vm_compute in E; discriminate E].
  destruct (ConfigFacts.validateConfig_returns_defined_fields
              (environment complete) c E) as (_ & Htoken & Hmodel & Hport).
  exists c. split; [reflexivity |]. split; [exact Htoken |].
  split; [exact Hmodel | exact Hport].
Defined.

Lemma signature_with_a_trailer_is_accepted :
  GitHubService.verifyWebhookSignature "{}"
    ("sha256=" +:+ hmac_sha256_hex GitHubService.webhook_secret "{}" +:+ "!")
    = Returns true.
Proof.
  apply (SignatureFacts.guarded_verifier_ignores_text_after_the_digest
           "{}" "!"); reflexivity.
Defined.

Lemma secret_of_the_complete_environment :
  exists c,
    ConfigLoader.validateConfig (environment complete) = Returns c /\
    ConfigLoader.loaded_github_webhookSecret c = Some "secret" /\
    GitHubService.webhook_secret (ST := settings_of complete) = "secret".
Proof.
  destruct (ConfigLoader.validateConfig (environment complete))
    as [c |] eqn:E; [| vm_compute in E; discriminate E].
  destruct (SignatureFacts.validated_environment_overrides_the_built_in_secret
              (ST := settings_of complete) c E) as (Hsecret & _).
  exists c. split; [reflexivity |]. split; [exact Hsecret | reflexivity].
Defined.

Lemma ping_is_answered_without_a_call :
  Server.post_webhook temp_dir GitHubService.verifyWebhookSignature
    (request (Some (signature_of "{}")) (Some "ping"))
    (State (scripted [chat_reply reply_text] []) [])
  = (Returns Server.status_ok,
     State (scripted [chat_reply reply_text] []) []).
Proof.
  apply (ServerFacts.accepted_delivery_is_routed_by_event_and_action
           temp_dir GitHubService.verifyWebhookSignature
           (request (Some (signature_of "{}")) (Some "ping"))
           (State (scripted [chat_reply reply_text] []) [])
           (signature_of "{}") "{}");
    [reflexivity | discriminate | reflexivity | vm_compute; reflexivity |].
  intros ([H | H] & _); discriminate H.
Defined.

Lemma short_signature_is_answered_500 :
  Server.post_webhook temp_dir GitHubServiceText.verifyWebhookSignature
    (request (Some "bogus") (Some "issue_comment"))
    (State (scripted [chat_reply reply_text] []) [])
  = (Returns Server.internal_server_error,
     State (scripted [chat_reply reply_text] []) []).
Proof.
  apply (ServerFacts.unguarded_endpoint_answers_500_on_other_length
           temp_dir (request (Some "bogus") (Some "issue_comment"))
           (State (scripted [chat_reply reply_text] []) []) "bogus" "{}");
    [reflexivity | discriminate | reflexivity | vm_compute; lia].
Defined.

Lemma setupRepository_on_clone :
  exists checkout,
    log (snd (run (GitService.setupRepository (root clone) "example" "repo"
                     "main") clone)) =
      [ Event (Fs_existsSync (root clone)) true;
        Event Git_pull true;
        Event (Git_addConfig "user.name" "AI Comment Fixer Bot") true;
        Event (Git_addConfig "user.email" "bot@example.com") true ]
      ++ checkout /\
    (checkout = [Event (Git_checkout "main") true] \/
     checkout = [Event (Git_checkout "main") false;
                 Event (Git_checkoutLocalBranch "main") true]).
Proof.
  assert (H : GitService.setupRepository (root clone) "example" "repo" "main"
                (State clone [])
              = (Returns tt,
                 snd (run (GitService.setupRepository (root clone) "example"
                             "repo" "main") clone)))
    by (apply run_as_pair; vm_compute; reflexivity).
  exact (WorkingCopyFacts.setupRepository_protocol (root clone) "example"
           "repo" "main" (State clone []) _ H).
Defined.

Lemma typo_fix_is_the_only_write :
  attempted_writes
    (log (snd (run (GitService.applyChanges (root clone) [typo_fix]) clone)))
    = [("/srv/bot/temp-repos/example-repo/src/api.ts", "receive")].
Proof.
  assert (Hrun :
    GitService.applyChanges (root clone) [typo_fix] (State clone [])
    = (Returns tt,
       snd (run (GitService.applyChanges (root clone) [typo_fix]) clone)))
    by (apply run_as_pair; vm_compute; reflexivity).
  destruct (WorkingCopyFacts.applyChanges_writes_the_changes_in_order
              (root clone) [typo_fix] (State clone []) _ _ Hrun)
    as (evs & done & Hlog & Hw & _ & Hall).
  destruct (Hall eq_refl) as [-> _].
  rewrite Hlog. cbn [log app]. rewrite Hw. vm_compute. reflexivity.
Defined.

(** An environment without a token and with an empty key is refused,
    and both variables are named. *)
Lemma incomplete_environment_is_refused :
  ConfigLoader.validateConfig (environment incomplete)
    = Raises (JsError "Error"
                "Missing required environment variables: GITHUB_TOKEN, OPENAI_API_KEY").
Proof. vm_compute. reflexivity. Qed.


Lemma missing_repository_path_stops_at_the_constructor :
  run (Phases.git_sequence "/srv/bot/other" reviewer_comment pr42
         (repository delivery) approval) clone
    = (Raises (JsError "GitConstructError"
                 "Cannot use simple-git on a directory that does not exist"),
       State clone
         [Event (Git_simpleGit "/srv/bot/other/example-repo") false]).
Proof.
  destruct (ModelFacts.processor_never_clones_on_the_reference_working_copy
              "/srv/bot/other" reviewer_comment pr42 (repository delivery)
              approval clone []
              (fst (run (Phases.git_sequence "/srv/bot/other" reviewer_comment
                           pr42 (repository delivery) approval) clone))
              (snd (run (Phases.git_sequence "/srv/bot/other" reviewer_comment
                           pr42 (repository delivery) approval) clone)))
    as (_ & Hmissing); [apply surjective_pairing |].
  destruct Hmissing as (Hres & Hstate); [vm_compute; reflexivity |].
  apply injective_projections; [exact Hres | exact Hstate].
Defined.

Lemma success_comment_without_summary :
  attempted_comments
    (log (snd (run (CommentProcessor.addSuccessComment reviewer_comment pr42
                      (repository delivery) approval "fix/pr-42-1")
                 (scripted [] []))))
    = [ CommentProcessor.success_message "Applied suggested changes"
          "fix/pr-42-1" pr42 approval ].
Proof.
  assert (Hchat :
    chat_completions_create
      (OpenAIService.summary_request (changes approval))
      (world (State (scripted [] []) []))
    = (Raises (JsError "APIConnectionError" "Connection error."),
       scripted [] []))
    by reflexivity.
  unfold run.
  rewrite (CommentFacts.success_comment_survives_a_failed_summary
             reviewer_comment pr42 (repository delivery) approval
             "fix/pr-42-1" (State (scripted [] []) []) _ _ Hchat).
  reflexivity.
Defined.


(** The product is rounded before [Math.round] sees it: [0.285 * 100]
    is [28.499999999999996], and [1.005 * 100] is [100.49999999999999]. *)
Lemma percentages_are_rounded_as_numbers :
  show_percent (Finite 0.285%Q) = "28" /\
  show_percent (Finite 1.005%Q) = "100" /\
  show_percent (Finite 0.9%Q) = "90" /\
  show_percent (Finite 0.005%Q) = "1".
Proof. repeat split; vm_compute; reflexivity. Qed.

End MoreRuns.

(* ===================================================================== *)
(** * Deliveries and fix branches on the scripted world                  *)
(* ===================================================================== *)

Module OutcomeRuns.
Import WorkingCopyModel Bench Sample.
#[local] Existing Instance settings.
#[local] Existing Instance parser.

Ltac differ :=
  let H := fresh in intros H; vm_compute in H; discriminate H.

Lemma first_of_run {W A} (m : M W A) (w : W) (r : result A) :
  fst (run m w) = r -> run m w = (r, snd (run m w)).
Proof. intros <-. apply surjective_pairing. Qed.

(** The bot is configured as [fixer-bot]; a comment signed [fixer-bot]
    is created on the pull request. *)
Lemma own_comment_is_answered :
  action own_delivery = "created" /\
  comment_user_login own_comment = git_userName (@config renamed_settings) /\
  git_userName (@config renamed_settings) <> "AI Comment Fixer Bot" /\
  exists s' evs req ok rest,
    run (CommentProcessor.handleCommentEvent (ST := renamed_settings)
           temp_dir own_delivery)
        (scripted [chat_reply decline_text] [])
      = (Returns tt, s') /\
    (1 <= List.length (attempted_comments (log s')))%nat /\
    log s' = Event (files_call (repository own_delivery) pr42) true
               :: evs ++ Event (OpenAI_chat req) ok :: rest /\
    List.map ev_call evs
      = List.map (content_call (repository own_delivery) pr42)
          [api_file; readme_file].
Proof.
  split; [reflexivity |]. split; [reflexivity |]. split; [differ |].
  destruct (OutcomeFacts.comment_by_the_configured_bot_is_analysed
              (ST := renamed_settings) temp_dir own_delivery own_comment pr42
              (scripted [chat_reply decline_text] []))
    as (s' & Hrun & Hn & evs & req & ok & rest & Hlog & Hcalls);
    [reflexivity | reflexivity | reflexivity | reflexivity | differ |].
  exists s', evs, req, ok, rest. auto.
Defined.

(** A declined verdict with a change listed, GitHub accepting the post:
    the analysis comment of the verdict is the one comment. *)
Lemma declined_delivery_posts_the_analysis :
  comment delivery = Some reviewer_comment /\
  pull_request delivery = Some pr42 /\
  comment_user_login reviewer_comment <> "AI Comment Fixer Bot" /\
  exists s',
    run (CommentProcessor.processComment temp_dir delivery)
        (scripted [chat_reply decline_text] [])
      = (Returns tt, s') /\
    (1 <= List.length (attempted_comments (log s')) <= 2)%nat /\
    (List.length (posted_comments (log s')) <= 1)%nat /\
    attempted_comments (log s')
      = [CommentProcessor.analysis_message
           (OpenAIService.parseAIResponse decline_text)] /\
    posted_comments (log s')
      = [CommentProcessor.analysis_message
           (OpenAIService.parseAIResponse decline_text)].
Proof.
  split; [reflexivity |]. split; [reflexivity |]. split; [differ |].
  destruct (OutcomeFacts.every_outcome_posts_its_comment
              temp_dir delivery reviewer_comment pr42
              (scripted [chat_reply decline_text] []))
    as (s' & Hrun & Hatt & Hposted & _ & Hwhich & _);
    [reflexivity | reflexivity | differ |].
  exists s'. split; [exact Hrun |]. split; [exact Hatt |].
  split; [exact Hposted |].
  rewrite (first_of_run
             (CommentProcessor.analyzeComment reviewer_comment pr42
                (repository delivery))
             (scripted [chat_reply decline_text] [])
             (Returns (OpenAIService.parseAIResponse decline_text)))
    in Hwhich by (vm_compute; reflexivity).
  replace (shouldApply (OpenAIService.parseAIResponse decline_text))
    with false in Hwhich by (vm_compute; reflexivity).
  exact Hwhich.
Defined.

(** An approved verdict, every post accepted. *)
Lemma approved_delivery_comments_after_the_push :
  comment delivery = Some reviewer_comment /\
  pull_request delivery = Some pr42 /\
  comment_user_login reviewer_comment <> "AI Comment Fixer Bot" /\
  exists analysis s1,
    run (CommentProcessor.analyzeComment reviewer_comment
           pr42 (repository delivery))
        (scripted [chat_reply reply_text; chat_reply "Fixed a typo."] [])
      = (Returns analysis, s1) /\
    shouldApply analysis = true /\
    ((exists fixBranch s2 G summary s3,
        Steps.went_through
          (CommentProcessor.repo_path temp_dir (repository delivery))
          (repository delivery) pr42 reviewer_comment (changes analysis)
          s1 fixBranch s2 /\
        log s2 = log s1 ++ G /\
        completed_git_sequence
          (CommentProcessor.repo_path temp_dir (repository delivery))
          fixBranch (number_ pr42) (comment_id reviewer_comment)
          (changes analysis) G /\
        OpenAIService.generateChangeSummary (changes analysis) s2
          = (Returns summary, s3) /\
        attempted_comments (log s3) = [] /\
        run (CommentProcessor.processComment temp_dir delivery)
            (scripted [chat_reply reply_text; chat_reply "Fixed a typo."] [])
          = (Returns tt,
             Posts.report (repository delivery) pr42
               (CommentProcessor.success_message summary fixBranch pr42
                  analysis) s3))
     \/
     (exists e s2 G,
        Steps.failed_step
          (CommentProcessor.repo_path temp_dir (repository delivery))
          (repository delivery) pr42 reviewer_comment (changes analysis)
          s1 e s2 /\
        log s2 = log s1 ++ G /\ ends_in_failure e G /\
        attempted_comments (log s2) = [] /\
        run (CommentProcessor.processComment temp_dir delivery)
            (scripted [chat_reply reply_text; chat_reply "Fixed a typo."] [])
          = (Returns tt,
             Posts.post (repository delivery) pr42
               (CommentProcessor.error_comment e) s2))).
Proof.
  split; [reflexivity |]. split; [reflexivity |]. split; [differ |].
  pose proof
    (first_of_run
       (CommentProcessor.analyzeComment reviewer_comment
          pr42 (repository delivery))
       (scripted [chat_reply reply_text; chat_reply "Fixed a typo."] [])
       (Returns (OpenAIService.parseAIResponse reply_text))) as Ha.
  eexists _, _. split; [apply Ha; vm_compute; reflexivity |].
  split; [vm_compute; reflexivity |].
  apply (OutcomeFacts.comment_waits_for_the_repository_steps
           temp_dir delivery reviewer_comment pr42);
    [reflexivity | reflexivity | differ | apply Ha; vm_compute; reflexivity
    | vm_compute; reflexivity].
Defined.

(** An approved verdict whose repository steps all return; GitHub
    refuses the success comment.  The push went through, no repository
    call failed, and the one comment on the pull request is an error
    comment. *)
Lemma error_comment_after_a_push_that_went_through :
  let s :=
    snd (run (CommentProcessor.processComment temp_dir
                delivery)
           (scripted [chat_reply reply_text; chat_reply "Fixed a typo."]
              [false])) in
  In (Event (Git_push "origin" "fix/pr-42-1700000000000") true) (log s) /\
  forallb ev_ok
    (List.filter (fun e => is_working_copy_call (ev_call e)) (log s)) = true /\
  attempted_comments (log s)
    = [ CommentProcessor.success_message "Fixed a typo."
          "fix/pr-42-1700000000000" pr42
          (OpenAIService.parseAIResponse reply_text);
        CommentProcessor.error_comment (http_error "502") ] /\
  posted_comments (log s)
    = [ CommentProcessor.error_comment (http_error "502") ] /\
  posted (world s) = [ CommentProcessor.error_comment (http_error "502") ].
Proof.
  cbv zeta. split; [vm_compute; tauto |].
  split; [vm_compute; reflexivity |]. split; [vm_compute; reflexivity |].
  split; vm_compute; reflexivity.
Qed.






(** After the typo fix is written, [src/api.ts] holds the new text and
    [README.md] what it held. *)
Lemma typo_fix_is_written_and_the_readme_kept :
  exists s',
    GitService.applyChanges (root clone) [typo_fix] (State clone [])
      = (Returns tt, s') /\
    worktree (world s') !! ["src"; "api.ts"] = Some "receive" /\
    worktree (world s') !! ["README.md"] = Some "docs".
Proof.
  pose proof
    (first_of_run (GitService.applyChanges (root clone) [typo_fix]) clone
       (Returns tt)) as Hrun.
  eexists. split; [apply Hrun; vm_compute; reflexivity |].
  pose proof
    (ReplayFacts.applyChanges_last_change_to_a_file_wins (root clone)
       [typo_fix] clone [] _ (Hrun ltac:(vm_compute; reflexivity))) as Hw.
  split; [rewrite Hw | rewrite Hw]; vm_compute; reflexivity.
Defined.

End OutcomeRuns.
